(** * twilly: the conversation state machine

    A shallow embedding of the SMS-cookie transition functions
    (src/SmsCookie/index.ts) and of the flow controller
    (src/Flows/Controller.ts), followed by the properties of the
    controller that the specification states.

    JavaScript objects are mutable and passed by reference.  The cookie
    functions mostly build fresh objects with the spread syntax, but
    [updateContext] assigns to a field of the object it receives, so the
    cookies live in an explicit store and every function takes and returns
    locations. *)

From Stdlib Require Import ZArith Lia Ascii.
From stdpp Require Import base option list gmap strings.

Open Scope string_scope.
Open Scope list_scope.

(** ** JavaScript values used by the cookie *)

(** A JavaScript number, restricted to what a position counter can hold:
    an integer (in the range where double arithmetic is exact) or NaN. *)
Inductive jsnum :=
  | JInt (z : Z)
  | JNaN.

(** [x + 1] *)
Definition js_succ (x : jsnum) : jsnum :=
  match x with
  | JInt z => JInt (z + 1)%Z
  | JNaN => JNaN
  end.

(** [x === y] on numbers: NaN differs from everything, itself included. *)
Definition js_strict_eq (x y : jsnum) : bool :=
  match x, y with
  | JInt a, JInt b => bool_decide (a = b)
  | _, _ => false
  end.

(** [flowKey: string | number] *)
Inductive FlowKey :=
  | KeyNum (n : jsnum)
  | KeyStr (s : string).

(** A value stored in an action context (a JSON-like object). *)
Inductive CtxValue :=
  | VStr (s : string)
  | VList (l : list string)
  | VNum (n : Z)
  | VBool (b : bool)
  | VNull.

(** [ActionContext]: a plain object used as a map from property names. *)
Abbreviation ActionContext := (gmap string CtxValue).
(** [FlowContext = { [index: string]: ActionContext }] *)
Abbreviation FlowContext := (gmap string ActionContext).
(** [InteractionContext = ActionContext[]] *)
Abbreviation InteractionContext := (list ActionContext).

(** Truthiness of a string-or-null property ([!state.flow]): [null] and the
    empty string are falsy. *)
Definition falsy (o : option string) : bool :=
  match o with
  | None => true
  | Some s => bool_decide (s = "")
  end.

(** Truthiness of a context value ([value || other]): the empty string,
    zero, [false] and [null] are falsy; an array is an object, so it is
    truthy even when empty. *)
Definition truthy (v : CtxValue) : bool :=
  match v with
  | VStr s => negb (bool_decide (s = ""))
  | VList _ => true
  | VNum n => negb (bool_decide (n = 0%Z))
  | VBool b => b
  | VNull => false
  end.

(** A string is held as the bytes of its UTF-8 encoding.  A byte from
    0x80 to 0xBF continues the character begun before it. *)
Definition is_continuation (c : Ascii.ascii) : bool :=
  let n := Ascii.nat_of_ascii c in ((128 <=? n) && (n <=? 191))%nat.

(** The bytes at the front of [s] that continue a character begun before
    [s], and the characters that follow them. *)
Fixpoint split_characters (s : string) : string * list string :=
  match s with
  | EmptyString => (EmptyString, [])
  | String c rest =>
      let '(more, chars) := split_characters rest in
      if is_continuation c then (String c more, chars)
      else (EmptyString, String c more :: chars)
  end.

(** What iterating a string yields: its characters (code points), each as
    a string of its own. *)
Definition characters (s : string) : list string :=
  let '(stray, chars) := split_characters s in
  if bool_decide (stray = "") then chars else stray :: chars.

(** ** The SMS cookie (src/SmsCookie/index.ts) *)

Record QuestionState := {
  attempts : list string;
  isAnswering : bool;
}.

Record SmsCookie := {
  createdAt : Z;
  from : string;
  flow : option string;
  flowContext : FlowContext;
  flowKey : FlowKey;
  interactionContext : InteractionContext;
  interactionComplete : bool;
  interactionId : string;
  isComplete : bool;
  question : QuestionState;
}.

(** [{ ...state, field: v }] for the fields the transitions overwrite. *)
Definition set_flow (v : option string) (s : SmsCookie) : SmsCookie :=
  {| createdAt := createdAt s; from := from s; flow := v;
     flowContext := flowContext s; flowKey := flowKey s;
     interactionContext := interactionContext s;
     interactionComplete := interactionComplete s;
     interactionId := interactionId s; isComplete := isComplete s;
     question := question s |}.

Definition set_flowContext (v : FlowContext) (s : SmsCookie) : SmsCookie :=
  {| createdAt := createdAt s; from := from s; flow := flow s;
     flowContext := v; flowKey := flowKey s;
     interactionContext := interactionContext s;
     interactionComplete := interactionComplete s;
     interactionId := interactionId s; isComplete := isComplete s;
     question := question s |}.

Definition set_flowKey (v : FlowKey) (s : SmsCookie) : SmsCookie :=
  {| createdAt := createdAt s; from := from s; flow := flow s;
     flowContext := flowContext s; flowKey := v;
     interactionContext := interactionContext s;
     interactionComplete := interactionComplete s;
     interactionId := interactionId s; isComplete := isComplete s;
     question := question s |}.

Definition set_interactionContext (v : InteractionContext) (s : SmsCookie)
  : SmsCookie :=
  {| createdAt := createdAt s; from := from s; flow := flow s;
     flowContext := flowContext s; flowKey := flowKey s;
     interactionContext := v;
     interactionComplete := interactionComplete s;
     interactionId := interactionId s; isComplete := isComplete s;
     question := question s |}.

Definition set_isComplete (v : bool) (s : SmsCookie) : SmsCookie :=
  {| createdAt := createdAt s; from := from s; flow := flow s;
     flowContext := flowContext s; flowKey := flowKey s;
     interactionContext := interactionContext s;
     interactionComplete := interactionComplete s;
     interactionId := interactionId s; isComplete := v;
     question := question s |}.

Definition set_question (v : QuestionState) (s : SmsCookie) : SmsCookie :=
  {| createdAt := createdAt s; from := from s; flow := flow s;
     flowContext := flowContext s; flowKey := flowKey s;
     interactionContext := interactionContext s;
     interactionComplete := interactionComplete s;
     interactionId := interactionId s; isComplete := isComplete s;
     question := v |}.

(** The inbound webhook request, reduced to the body fields that are read
    (src/twllio/TwilioWebhookRequest.ts). *)
Record TwilioWebhookRequest := {
  Body : string;
  From_ : string;
}.

(** ** Store, exceptions and the monad of the transition functions *)

(** What a [throw] carries.  [DanglingRef] is not a JavaScript outcome: it
    is what the model answers when a location outside the store is read,
    which no JavaScript reference can be. *)
Inductive Err :=
  | TypeError (msg : string)
  | Error (msg : string)
  | DanglingRef.

Inductive Result (A : Type) :=
  | Ok (a : A)
  | Throw (e : Err).
Arguments Ok {A} a.
Arguments Throw {A} e.

(** [[...value]] in an array literal: an array gives its elements and a
    string its characters; a number, a boolean and [null] are not iterable
    and the spread throws a TypeError (the message is the engine's; this
    is V8's for the variable spread in [recordQuestionMessageSid]). *)
Definition spread (v : CtxValue) : Result (list string) :=
  match v with
  | VList l => Ok l
  | VStr s => Ok (characters s)
  | VNum _ | VBool _ | VNull => Throw (TypeError "prevSids is not iterable")
  end.

(** A location names one cookie object; the store holds the objects in
    allocation order. *)
Abbreviation loc := nat (only parsing).
Abbreviation Heap := (list SmsCookie).

(** A computation reads and writes the store and returns or throws; a
    [throw] keeps the writes made before it. *)
Definition M (A : Type) : Type := Heap -> Heap * Result A.

Definition ret {A} (a : A) : M A := fun h => (h, Ok a).

Definition throw {A} (e : Err) : M A := fun h => (h, Throw e).

Definition bind {A B} (c : M A) (k : A -> M B) : M B :=
  fun h =>
    match c h with
    | (h', Ok a) => k a h'
    | (h', Throw e) => (h', Throw e)
    end.

Declare Scope js_scope.
Delimit Scope js_scope with js.
Notation "x <- c ;; k" := (bind c (fun x => k))
  (at level 100, c at next level, right associativity) : js_scope.
Open Scope js_scope.

(** Reading the object behind a reference. *)
Definition deref (l : loc) : M SmsCookie :=
  fun h =>
    match h !! l with
    | Some s => (h, Ok s)
    | None => (h, Throw DanglingRef)
    end.

(** An object literal: a fresh object at a fresh location. *)
Definition new (s : SmsCookie) : M loc :=
  fun h => (h ++ [s], Ok (length h)).

(** An assignment to fields of an existing object. *)
Definition assign (l : loc) (f : SmsCookie -> SmsCookie) : M unit :=
  fun h =>
    match h !! l with
    | Some s => (<[l := f s]> h, Ok tt)
    | None => (h, Throw DanglingRef)
    end.

(** Lifting a result computed without the store. *)
Definition lift {A} (r : Result A) : M A := fun h => (h, r).

(** ** Actions *)

(** Modelled from the spec: the Action classes (src/Actions) are not among
    the sources.  An evaluator classifies an inbound message, so a Question
    is pending, answered or failed; [isAnswered] and [isFailed] are the two
    properties the controller reads. *)
Inductive Evaluation :=
  | Pending
  | Answered
  | Failed.

Record Question := {
  evaluation : Evaluation;
  QuestionShouldContinueOnFail : bool;
  sid : option (list string);
}.

Definition isAnswered (q : Question) : bool :=
  match evaluation q with Answered => true | _ => false end.

Definition isFailed (q : Question) : bool :=
  match evaluation q with Failed => true | _ => false end.

(** Modelled from the spec: the variants of Action, a closed sum.  A Trigger
    names its target flow. *)
Inductive ActionClass :=
  | Message
  | Reply
  | IsQuestion (q : Question)
  | Trigger (flowName : string)
  | Exit.

(** Modelled from the spec: every action carries the name its flow gave it
    and exposes a context snapshot ([action[ActionGetContext]()]). *)
Record Action := {
  action_name : string;
  ActionGetContext : ActionContext;
  constructor : ActionClass;
}.

(** [action[ActionSetName](name)] *)
Definition ActionSetName (a : Action) (n : string) : Action :=
  {| action_name := n; ActionGetContext := ActionGetContext a;
     constructor := constructor a |}.

Definition with_question (a : Action) (q : Question) : Action :=
  {| action_name := action_name a; ActionGetContext := ActionGetContext a;
     constructor := IsQuestion q |}.

Section Flows.

(** The caller-supplied user context ([userCtx: any]). *)
Context {UserCtx : Type}.

(** ** Flows *)

(** A step's resolver: a function of the flow context and the user context
    that produces an action, something that is not an action ([None]), or
    rejects. *)
Definition Resolver : Type :=
  FlowContext -> UserCtx -> Result (option Action).

(** Modelled from the spec: the Flow class (src/Flows/Flow.ts) is not among
    the sources.  A flow is a name and an ordered list of (action name,
    resolver) pairs; [flow_oid] stands for the identity of the object, which
    the controller compares with [===]. *)
Record Flow := {
  flow_oid : nat;
  flow_name : string;
  flow_actions : list (string * Resolver);
}.

(** [flow.length] *)
Definition flow_length (f : Flow) : jsnum :=
  JInt (Z.of_nat (length (flow_actions f))).

(** [flow[FlowActionNames].has(name)] *)
Definition FlowActionNames_has (f : Flow) (n : string) : bool :=
  bool_decide (n ∈ (flow_actions f).*1).

(** The step at a position: none when the position is not an index of the
    flow. *)
Definition flow_step (f : Flow) (key : jsnum) : option (string * Resolver) :=
  match key with
  | JInt z => if bool_decide (0 <= z)%Z then flow_actions f !! Z.to_nat z else None
  | JNaN => None
  end.

(** [flow[FlowSelectActionResolver](key)] *)
Definition FlowSelectActionResolver (f : Flow) (key : jsnum) : option Resolver :=
  snd <$> flow_step f key.

(** [flow[FlowSelectActionName](key)] *)
Definition FlowSelectActionName (f : Flow) (key : jsnum) : option string :=
  fst <$> flow_step f key.

(** [a === b] on Flow objects. *)
Definition same_flow (a b : Flow) : bool :=
  bool_decide (flow_oid a = flow_oid b).

(** [Number(value)] on a string is ECMAScript's StringToNumber; the model
    takes it as given. *)
Variable StringToNumber : string -> jsnum.

(** [Number(state.flowKey)] *)
Definition Number (k : FlowKey) : jsnum :=
  match k with
  | KeyNum n => n
  | KeyStr s => StringToNumber s
  end.

(** ** Cookie transitions (src/SmsCookie/index.ts)

    The [question] object of a cookie is shared by the copies that spread
    makes, but no function assigns to its fields, so it is kept by value. *)

Definition addQuestionAttempt (state : loc) (attempt : string) : M loc :=
  s <- deref state ;;
  new (set_question
         {| attempts := attempts (question s) ++ [attempt];
            isAnswering := isAnswering (question s) |} s).

Definition completeInteraction (state : loc) : M loc :=
  s <- deref state ;;
  new (set_isComplete true s).

(** [createdAt] and [interactionId] come from the clock and from a random
    string; they are arguments here. *)
Definition createSmsCookie (now : Z) (uid : string) (req : TwilioWebhookRequest)
  : SmsCookie :=
  {| createdAt := now;
     flow := None;
     flowContext := ∅;
     flowKey := KeyNum (JInt 0);
     from := From_ req;
     interactionComplete := false;
     interactionContext := [];
     interactionId := uid;
     isComplete := false;
     question := {| attempts := []; isAnswering := false |} |}.

Definition handleTrigger (state : loc) (flowName : string) : M loc :=
  s <- deref state ;;
  new (set_flowContext ∅ (set_flowKey (KeyNum (JInt 0)) (set_flow (Some flowName) s))).

Definition incrementFlowAction (state : loc) (fl : Flow) : M loc :=
  s <- deref state ;;
  newState <- new s ;;
  let k := js_succ (Number (flowKey s)) in
  _ <- assign newState (set_flowKey (KeyNum k)) ;;
  if js_strict_eq k (flow_length fl) then completeInteraction state
  else ret newState.

Definition startQuestion (state : loc) : M loc :=
  s <- deref state ;;
  new (set_question {| attempts := []; isAnswering := true |} s).

(** [(state.flowContext[name] || {}).messageSid || []]: the value stored
    under [messageSid] in the context recorded under [name], whatever it
    is, when it is truthy; the empty array when there is no such context,
    no such property, or a falsy value. *)
Definition prevSids (s : SmsCookie) (n : string) : CtxValue :=
  match flowContext s !! n with
  | Some ctx =>
      match ctx !! "messageSid" with
      | Some v => if truthy v then v else VList []
      | None => VList []
      end
  | None => VList []
  end.

(** [[...prevSids, ...(question.sid || [])]]: the stored value is spread
    first, so a stored value that cannot be iterated throws. *)
Definition recordQuestionMessageSid (s : SmsCookie) (n : string) (q : Question)
  : Result (list string) :=
  match spread (prevSids s n) with
  | Ok prev => Ok (prev ++ default [] (sid q))
  | Throw e => Throw e
  end.

Definition getActionContext (s : SmsCookie) (fl : Flow) (action : Action)
  : Result ActionContext :=
  match constructor action with
  | IsQuestion q =>
      match recordQuestionMessageSid s (action_name action) q with
      | Ok sids => Ok (<["messageSid" := VList sids]> (ActionGetContext action))
      | Throw e => Throw e
      end
  | _ => Ok (ActionGetContext action)
  end.

(** The object literal [updateContext] returns, built from the cookie it
    reads and from the two context snapshots it takes: [inFlow] goes in
    the flow context under the action's name, [inHistory] at the end of
    the history with [flowName] set. *)
Definition recorded (s : SmsCookie) (fl : Flow) (action : Action)
    (inFlow inHistory : ActionContext) : SmsCookie :=
  set_interactionContext
    (interactionContext s ++ [<["flowName" := VStr (flow_name fl)]> inHistory])
    (set_flowContext (<[action_name action := inFlow]> (flowContext s)) s).

(** The guard [if (!state) return null] is for a null argument, which the
    parameter type excludes and no caller passes: a location always holds a
    cookie.  [getActionContext] is called twice, once for each place the
    snapshot goes; both calls come after the assignment to [state.flow]. *)
Definition updateContext (state : loc) (fl : Flow) (action : Action) : M loc :=
  s <- deref state ;;
  if negb (FlowActionNames_has fl (action_name action)) then
    throw (Error ("Flow " ++ flow_name fl ++ " does not have an action named "
                    ++ action_name action)%string)
  else
    _ <- (if falsy (flow s)
          then assign state (set_flow (Some (flow_name fl)))
          else ret tt) ;;
    s <- deref state ;;
    inFlow <- lift (getActionContext s fl action) ;;
    inHistory <- lift (getActionContext s fl action) ;;
    new (recorded s fl action inFlow inHistory).

(** ** The flow controller (src/Flows/Controller.ts) *)

(** Modelled from the spec: util's [compose] is not among the sources.  The
    updates run in the order they are listed (record the context, then
    complete, advance or switch).  The default argument of the piped
    function, a cookie made for a mock request, is only used when it is
    called without a cookie, which the controller never does. *)
Fixpoint pipeSmsCookieUpdates (funcs : list (loc -> M loc)) (cookie : loc)
  : M loc :=
  match funcs with
  | [] => ret cookie
  | f :: rest => s <- f cookie ;; pipeSmsCookieUpdates rest s
  end.

(** [ExitKeywordTest]: a predicate on the body; a test that returns a
    rejected promise throws at the [await]. *)
Definition ExitKeywordTest : Type := string -> Result bool.

(** The fields of the class that the methods read.  [schema] is the
    evaluated schema, a map from flow names to flows, absent when the
    controller was built without one. *)
Record FlowController := {
  root : Flow;
  schema : option (gmap string Flow);
  testForExit : option ExitKeywordTest;
}.

(** The lookup is [this.schema && this.schema.has(state.flow)] followed by
    [this.schema.get(state.flow)]. *)
Definition getCurrentFlow (this : FlowController) (state : loc) : M Flow :=
  s <- deref state ;;
  if falsy (flow s) || bool_decide (flow s = Some (flow_name (root this))) then
    ret (root this)
  else
    match flow s with
    | None => ret (root this) (* not reached: [null] is falsy *)
    | Some n =>
        match schema this with
        | Some m =>
            match m !! n with
            | Some f => ret f
            | None =>
                throw (TypeError ("Received invalid flow name in SMS cookie: " ++ n)%string)
            end
        | None =>
            throw (TypeError ("Received invalid flow name in SMS cookie: " ++ n)%string)
        end
    end.

(** Modelled from the spec: the Exit class is not among the sources; what
    its constructor gives the action as name and context is taken as
    given. *)
Variable Exit_init : string -> string * ActionContext.

Definition new_Exit (body : string) : Action :=
  {| action_name := fst (Exit_init body);
     ActionGetContext := snd (Exit_init body);
     constructor := Exit |}.

(** Modelled from the spec: [action[QuestionEvaluate](req, state)] is not
    among the sources; it classifies the inbound message and moves the
    question to its next sub-state, or rejects. *)
Variable QuestionEvaluate :
  Question -> TwilioWebhookRequest -> SmsCookie -> Result Question.

(** [deepCopy]: contexts are values here, so the copy is the value. *)
Definition deepCopy (c : FlowContext) : FlowContext := c.

Definition resolveActionFromState (this : FlowController)
    (req : TwilioWebhookRequest) (state : loc) (userCtx : UserCtx)
  : M (option Action) :=
  s <- deref state ;;
  if isComplete s then ret None
  else
    wantsExit <- match testForExit this with
                 | Some test => lift (test (Body req))
                 | None => ret false
                 end ;;
    if wantsExit : bool then ret (Some (new_Exit (Body req)))
    else
      let key := Number (flowKey s) in
      currFlow <- getCurrentFlow this state ;;
      match FlowSelectActionResolver currFlow key with
      | None => ret None
      | Some resolveAction =>
          action <- lift (resolveAction (deepCopy (flowContext s)) userCtx) ;;
          match action with
          | None => ret None
          | Some a =>
              a <- match constructor a with
                   | IsQuestion q =>
                       s <- deref state ;;
                       q' <- lift (QuestionEvaluate q req s) ;;
                       ret (with_question a q')
                   | _ => ret a
                   end ;;
              ret (Some (match FlowSelectActionName currFlow key with
                         | Some n => ActionSetName a n
                         | None => a
                         end))
          end
      end.

(** The check a Trigger goes through before its context is recorded. *)
Definition checkTrigger (this : FlowController) (currFlow : Flow)
    (flowName : string) : M unit :=
  if same_flow currFlow (root this) && negb (bool_decide (is_Some (schema this)))
  then throw (Error "Cannot use Trigger action without a defined Flow schema")
  else if bool_decide (flowName = flow_name (root this)) then ret tt
  else
    match schema this with
    | Some m =>
        if bool_decide (is_Some (m !! flowName)) then ret tt
        else throw (Error "Trigger constructors expect a name of an existing Flow")
    | None => throw (TypeError "Cannot read properties of undefined (reading 'has')")
    end.

(** [action] is [None] when the value handed in is not an Action. *)
Definition resolveNextStateFromAction (this : FlowController)
    (req : TwilioWebhookRequest) (state : loc) (action : option Action)
  : M loc :=
  currFlow <- getCurrentFlow this state ;;
  match action with
  | None => completeInteraction state
  | Some action =>
      match constructor action with
      | Exit =>
          pipeSmsCookieUpdates
            [ (fun s => updateContext s currFlow action);
              completeInteraction ] state
      | IsQuestion q =>
          s0 <- deref state ;;
          state <- (if isAnswering (question s0)
                    then addQuestionAttempt state (Body req)
                    else ret state) ;;
          if isAnswered q then
            pipeSmsCookieUpdates
              [ (fun s => updateContext s currFlow action);
                (fun s => incrementFlowAction s currFlow) ] state
          else if isFailed q then
            if QuestionShouldContinueOnFail q then
              pipeSmsCookieUpdates
                [ (fun s => updateContext s currFlow action);
                  (fun s => incrementFlowAction s currFlow) ] state
            else
              pipeSmsCookieUpdates
                [ (fun s => updateContext s currFlow action);
                  completeInteraction ] state
          else
            s1 <- deref state ;;
            if isAnswering (question s1) then
              updateContext state currFlow action
            else
              pipeSmsCookieUpdates
                [ startQuestion;
                  (fun s => updateContext s currFlow action) ] state
      | Trigger flowName =>
          _ <- checkTrigger this currFlow flowName ;;
          pipeSmsCookieUpdates
            [ (fun s => updateContext s currFlow action);
              (fun s => handleTrigger s flowName) ] state
      | _ =>
          pipeSmsCookieUpdates
            [ (fun s => updateContext s currFlow action);
              (fun s => incrementFlowAction s currFlow) ] state
      end
  end.

End Flows.

(** ** Outcomes of a computation *)

(** [returns c h Q]: run in store [h], [c] returns a value, and the final
    store and the value satisfy [Q]. *)
Definition returns {A} (c : M A) (h : Heap) (Q : Heap -> A -> Prop) : Prop :=
  ∃ h' a, c h = (h', Ok a) ∧ Q h' a.

(** [throws c h]: run in store [h], [c] throws. *)
Definition throws {A} (c : M A) (h : Heap) : Prop :=
  ∃ h' e, c h = (h', Throw e).

(** [heap_keeps h h']: every object of [h] is in [h'], unchanged (the
    computation only allocated).  [heap_keeps_but st h h'] says so for every
    object but the one at [st]. *)
Definition heap_keeps (h h' : Heap) : Prop :=
  ∀ l x, h !! l = Some x -> h' !! l = Some x.

Definition heap_keeps_but (st : loc) (h h' : Heap) : Prop :=
  ∀ l x, l ≠ st -> h !! l = Some x -> h' !! l = Some x.

(** A step [c] extends the history: when it returns, the history of the
    cookie it returns starts with the history of the cookie it was given. *)
Definition extends_history (c : loc -> M loc) : Prop :=
  ∀ h st s h' l,
    h !! st = Some s ->
    c st h = (h', Ok l) ->
    ∃ s', h' !! l = Some s'
          ∧ interactionContext s `prefix_of` interactionContext s'.

(** The cookie behind [state] once [updateContext] has run its assignment
    [if (!state.flow) state.flow = flow.name]. *)
Definition claimed {UserCtx} (fl : @Flow UserCtx) (s : SmsCookie) : SmsCookie :=
  if falsy (flow s) then set_flow (Some (flow_name fl)) s else s.

(** What [incrementFlowAction] returns: the completed copy of the cookie it
    was given when the next position is the flow's length, the copy with
    the next position otherwise. *)
Definition advanced {UserCtx} (StringToNumber : string -> jsnum)
    (fl : @Flow UserCtx) (s : SmsCookie) : SmsCookie :=
  let k := js_succ (Number StringToNumber (flowKey s)) in
  if js_strict_eq k (flow_length fl) then set_isComplete true s
  else set_flowKey (KeyNum k) s.

(** The cookie a Question is recorded against: the one handed in, with the
    inbound body appended to the attempts when it is answering. *)
Definition attempted (req : TwilioWebhookRequest) (s : SmsCookie) : SmsCookie :=
  if isAnswering (question s)
  then set_question {| attempts := attempts (question s) ++ [Body req];
                       isAnswering := isAnswering (question s) |} s
  else s.

(** A run of the webhook loop as far as the state goes: each call of
    [resolveNextStateFromAction] receives the state the previous one
    returned. *)
Fixpoint resolveNextStates {UserCtx} (StringToNumber : string -> jsnum)
    (this : @FlowController UserCtx)
    (calls : list (TwilioWebhookRequest * option Action)) (state : loc)
  : M loc :=
  match calls with
  | [] => ret state
  | (req, action) :: rest =>
      s <- resolveNextStateFromAction StringToNumber this req state action ;;
      resolveNextStates StringToNumber this rest s
  end.

(** ** The default exit test (src/Flows/Controller.ts)

    [EXIT_REGEXP = /(\b)(exit)(\b)/i] and [defaultTestForExit], which
    applies [EXIT_REGEXP.test] to the body.  The expression has no [g]
    flag, so [test] keeps no position between calls.  A string is its
    sequence of characters; a character outside ASCII is neither a word
    character nor a case variant of a letter of the pattern, whether it is
    read as one UTF-16 unit or as several bytes. *)

(** The word characters of [\b]: letters, digits and the underscore. *)
Definition is_word (c : Ascii.ascii) : bool :=
  let n := Ascii.nat_of_ascii c in
  ((48 <=? n) && (n <=? 57) || (65 <=? n) && (n <=? 90)
   || (n =? 95) || (97 <=? n) && (n <=? 122))%nat.

(** The case folding of the [i] flag: a lower-case letter becomes the
    upper-case one. *)
Definition Canonicalize (c : Ascii.ascii) : Ascii.ascii :=
  let n := Ascii.nat_of_ascii c in
  if ((97 <=? n) && (n <=? 122))%nat then Ascii.ascii_of_nat (n - 32) else c.

(** A character of the input against a character of the pattern. *)
Definition same_letter (c p : Ascii.ascii) : bool :=
  Ascii.eqb (Canonicalize c) (Canonicalize p).

Definition word_at (o : option Ascii.ascii) : bool :=
  match o with Some c => is_word c | None => false end.

(** [\b] between two positions: exactly one side is a word character (the
    ends of the input count as none). *)
Definition word_boundary (before after : option Ascii.ascii) : bool :=
  xorb (word_at before) (word_at after).

Definition first_char (s : string) : option Ascii.ascii :=
  match s with String c _ => Some c | EmptyString => None end.

(** The whole pattern at the start of [s], which follows [before]. *)
Definition match_here (before : option Ascii.ascii) (s : string) : bool :=
  word_boundary before (first_char s)
  && match s with
     | String c1 (String c2 (String c3 (String c4 rest))) =>
         same_letter c1 "e"%char && same_letter c2 "x"%char
         && same_letter c3 "i"%char && same_letter c4 "t"%char
         && word_boundary (Some c4) (first_char rest)
     | _ => false
     end.

(** The pattern is tried at every position, from the left. *)
Fixpoint search (before : option Ascii.ascii) (s : string) : bool :=
  match_here before s
  || match s with
     | String c rest => search (Some c) rest
     | EmptyString => false
     end.

Definition EXIT_REGEXP_test (body : string) : bool := search None body.

Definition defaultTestForExit : string -> Result bool :=
  fun body => Ok (EXIT_REGEXP_test body).

(** The last character of [s], or [before] when [s] is empty. *)
Fixpoint last_char (before : option Ascii.ascii) (s : string) : option Ascii.ascii :=
  match s with
  | EmptyString => before
  | String c rest => last_char (Some c) rest
  end.

(** A string with every character case-folded. *)
Fixpoint upper (s : string) : string :=
  match s with
  | EmptyString => EmptyString
  | String c rest => String (Canonicalize c) (upper rest)
  end.

(** ** Building a controller (the constructor, src/Flows/Controller.ts) *)

Section Construction.

Context {UserCtx : Type}.

(** Modelled from the spec: the FlowSchema class and [evaluateSchema]
    (src/Flows) are not among the sources; the evaluation flattens the
    declared schema into a map from names to flows, or fails.  The
    interaction-end hook is a value the constructor stores unchecked. *)
Context {FlowSchema Hook : Type}.
Variable evaluateSchema :
  @Flow UserCtx -> FlowSchema -> Result (gmap string (@Flow UserCtx)).

(** [defaultOptions.onInteractionEnd], the function [() => null]. *)
Variable defaultHook : Hook.

(** The values the constructor tells apart in an argument: for the root, a
    Flow or anything else; for the schema, a falsy value, a FlowSchema, or
    another truthy value; for the exit test, [undefined], a function, or
    anything else; for the hook, [undefined] or a value ([None] is [null]). *)
Inductive RootArg :=
  | RootIsFlow (f : @Flow UserCtx)
  | RootOther.

Inductive SchemaArg :=
  | SchemaFalsy
  | SchemaIs (sc : FlowSchema)
  | SchemaOther.

Inductive TestArg :=
  | TestUndefined
  | TestFunction (test : ExitKeywordTest)
  | TestOther.

Inductive HookArg :=
  | HookUndefined
  | HookValue (v : option Hook).

(** [FlowControllerOptions]; leaving the options out gives
    [defaultOptions], which is the same as leaving both properties
    undefined. *)
Record FlowControllerOptions := {
  opt_onInteractionEnd : HookArg;
  opt_testForExit : TestArg;
}.

(** What the constructor leaves in the object: the fields the methods read
    and the stored hook. *)
Record Constructed := {
  controller : @FlowController UserCtx;
  onInteractionEnd : option Hook;
}.

Definition new_FlowController (rootArg : RootArg) (schemaArg : SchemaArg)
    (options : FlowControllerOptions) : Result Constructed :=
  match rootArg with
  | RootOther => Throw (TypeError "root parameter must be an instance of Flow")
  | RootIsFlow r =>
      if js_strict_eq (flow_length r) (JInt 0) then
        Throw (TypeError
                 "All Flows must perform at least one action. Check the root Flow")
      else
        match schemaArg with
        | SchemaOther =>
            Throw (TypeError "schema parameter must be an instance of FlowSchema")
        | _ =>
            match opt_testForExit options with
            | TestOther => Throw (TypeError "testForExit parameter must be a function")
            | testArg =>
                let test :=
                  match testArg with
                  | TestFunction t => t
                  | _ => defaultTestForExit
                  end in
                let hook :=
                  match opt_onInteractionEnd options with
                  | HookUndefined => Some defaultHook
                  | HookValue v => v
                  end in
                match schemaArg with
                | SchemaIs sc =>
                    match evaluateSchema r sc with
                    | Throw e => Throw e
                    | Ok m =>
                        if bool_decide (size m = 1) then
                          Throw (TypeError
                                   "If you provide the schema parameter, it must include a flow distinct from the root Flow")
                        else
                          Ok {| controller :=
                                  {| root := r; schema := Some m;
                                     testForExit := Some test |};
                                onInteractionEnd := hook |}
                    end
                | _ =>
                    Ok {| controller :=
                            {| root := r; schema := None;
                               testForExit := Some test |};
                          onInteractionEnd := hook |}
                end
            end
        end
  end.

End Construction.

(** The exit test, when there is one, answers false on the body. *)
Definition declines_exit {UserCtx} (this : @FlowController UserCtx)
    (req : TwilioWebhookRequest) : Prop :=
  testForExit this = None
  ∨ ∃ test, testForExit this = Some test ∧ test (Body req) = Ok false.

(** ** Relations between the cookie handed in and the cookie returned *)

(** [yields R c]: when [c] returns, the cookie it returns is a new object
    that [R] relates to the cookie it was given. *)
Definition yields (R : SmsCookie -> SmsCookie -> Prop) (c : loc -> M loc) : Prop :=
  ∀ h st s h' l,
    h !! st = Some s ->
    c st h = (h', Ok l) ->
    length h <= l ∧ ∃ s', h' !! l = Some s' ∧ R s s'.

(** The position is an index of the flow. *)
Definition in_range {UserCtx} (StringToNumber : string -> jsnum)
    (fl : @Flow UserCtx) (s : SmsCookie) : Prop :=
  ∃ z, Number StringToNumber (flowKey s) = JInt z
       ∧ (0 <= z < Z.of_nat (length (flow_actions fl)))%Z.

(** The fields that identify the conversation. *)
Definition same_conversation (s s' : SmsCookie) : Prop :=
  createdAt s' = createdAt s
  ∧ from s' = from s
  ∧ interactionId s' = interactionId s
  ∧ interactionComplete s' = interactionComplete s.

(** The cookie [handleTrigger] returns. *)
Definition triggered (target : string) (s : SmsCookie) : SmsCookie :=
  set_flowContext ∅ (set_flowKey (KeyNum (JInt 0)) (set_flow (Some target) s)).

(** The cookie [startQuestion] returns. *)
Definition started (s : SmsCookie) : SmsCookie :=
  set_question {| attempts := []; isAnswering := true |} s.

(** The history entry made of a context snapshot taken in flow [fl]: the
    snapshot with [flowName] set to the flow's name. *)
Definition history_entry {UserCtx} (fl : @Flow UserCtx) (ctx : ActionContext)
  : ActionContext :=
  <["flowName" := VStr (flow_name fl)]> ctx.

(** Nothing was recorded between [s] and [s']. *)
Definition unrecorded (s s' : SmsCookie) : Prop :=
  interactionContext s' = interactionContext s
  ∧ flowContext s' = flowContext s.

(** Exactly [a] was recorded, in flow [fl], between [s] and [s']: the
    snapshot [getActionContext] takes of it against [s]. *)
Definition recorded_in {UserCtx} (fl : @Flow UserCtx) (a : Action)
    (s s' : SmsCookie) : Prop :=
  ∃ ctx, getActionContext s fl a = Ok ctx
         ∧ interactionContext s' = interactionContext s ++ [history_entry fl ctx]
         ∧ flowContext s' = <[action_name a := ctx]> (flowContext s).

(** Exactly [a] was recorded, in flow [fl], and the flow context was then
    emptied by the switch. *)
Definition switched_in {UserCtx} (fl : @Flow UserCtx) (a : Action)
    (s s' : SmsCookie) : Prop :=
  ∃ ctx, getActionContext s fl a = Ok ctx
         ∧ interactionContext s' = interactionContext s ++ [history_entry fl ctx]
         ∧ flowContext s' = ∅.

(** The call carries no Trigger. *)
Definition not_trigger (act : option Action) : Prop :=
  ∀ a target, act = Some a -> constructor a ≠ Trigger target.

(** What a call of [resolveNextStateFromAction] with [act] is expected to
    establish, by the kind of [act]: [K] when there is no action, [T] for
    a Trigger, [R] for every other action. *)
Definition by_action (K : SmsCookie -> SmsCookie -> Prop)
    (R T : Action -> SmsCookie -> SmsCookie -> Prop)
    (act : option Action) (s s' : SmsCookie) : Prop :=
  match act with
  | None => K s s'
  | Some a =>
      match constructor a with
      | Trigger _ => T a s s'
      | _ => R a s s'
      end
  end.

(** ** A sample configuration

    A root flow that greets, asks and jumps to a survey, a schema with the
    survey flow, and the cookie of a new conversation. *)
Module Sample.

(** StringToNumber on strings of decimal digits; every other string is
    read as NaN. *)
Fixpoint digits (s : string) (acc : Z) : jsnum :=
  match s with
  | EmptyString => JInt acc
  | String c rest =>
      let n := Z.of_nat (Ascii.nat_of_ascii c) in
      if bool_decide (48 <= n <= 57)%Z then digits rest (10 * acc + (n - 48))%Z
      else JNaN
  end.

Definition toNumber (s : string) : jsnum := digits s 0.

Definition reply (n : string) : Action :=
  {| action_name := n;
     ActionGetContext := {[ "body" := VStr "Hello" ]};
     constructor := Reply |}.

Definition ask (n : string) (e : Evaluation) (continue : bool) : Action :=
  {| action_name := n;
     ActionGetContext := {[ "body" := VStr "Your name?" ]};
     constructor :=
       IsQuestion {| evaluation := e;
                     QuestionShouldContinueOnFail := continue;
                     sid := Some ["SM1"] |} |}.

Definition trigger (n target : string) : Action :=
  {| action_name := n;
     ActionGetContext := {[ "flowName" := VStr target ]};
     constructor := Trigger target |}.

Definition rootFlow : @Flow unit :=
  {| flow_oid := 0;
     flow_name := "root";
     flow_actions :=
       [ ("greet", fun _ _ => Ok (Some (reply "greet")));
         ("ask", fun _ _ => Ok (Some (ask "ask" Pending false)));
         ("jump", fun _ _ => Ok (Some (trigger "jump" "survey"))) ] |}.

Definition surveyFlow : @Flow unit :=
  {| flow_oid := 1;
     flow_name := "survey";
     flow_actions :=
       [ ("rate", fun _ _ => Ok (Some (ask "rate" Pending true)));
         ("thanks", fun _ _ => Ok (Some (reply "thanks"))) ] |}.

(** A root whose only step is a question. *)
Definition quizFlow : @Flow unit :=
  {| flow_oid := 2;
     flow_name := "quiz";
     flow_actions :=
       [ ("ask", fun _ _ => Ok (Some (ask "ask" Pending true))) ] |}.

(** A root whose resolver always rejects. *)
Definition brokenFlow : @Flow unit :=
  {| flow_oid := 3;
     flow_name := "broken";
     flow_actions := [ ("boom", fun _ _ => Throw (Error "rejected")) ] |}.

(** The default exit test: the word "exit" alone (the sample does not
    need the whole regular expression). *)
Definition exitTest : ExitKeywordTest :=
  fun body => Ok (bool_decide (body = "exit")).

Definition noSchema : @FlowController unit :=
  {| root := rootFlow; schema := None; testForExit := Some exitTest |}.

Definition withSchema : @FlowController unit :=
  {| root := rootFlow;
     schema := Some {[ "root" := rootFlow; "survey" := surveyFlow ]};
     testForExit := Some exitTest |}.

Definition quiz : @FlowController unit :=
  {| root := quizFlow; schema := None; testForExit := Some exitTest |}.

Definition broken : @FlowController unit :=
  {| root := brokenFlow; schema := None; testForExit := Some exitTest |}.

Definition exitInit (body : string) : string * ActionContext :=
  ("exit", {[ "body" := VStr body ]}).

Definition evaluate (q : Question) (req : TwilioWebhookRequest)
    (s : SmsCookie) : Result Question :=
  Ok q.

Definition hello : TwilioWebhookRequest :=
  {| Body := "hello"; From_ := "+15550100" |}.

Definition bye : TwilioWebhookRequest :=
  {| Body := "exit"; From_ := "+15550100" |}.

Definition fresh : SmsCookie := createSmsCookie 0 "c0ffee" hello.

Definition inSurvey : SmsCookie := set_flow (Some "survey") fresh.

Definition lost : SmsCookie := set_flow (Some "nowhere") fresh.

Definition done_ : SmsCookie := set_isComplete true fresh.

(** The cookie once the greeting has been sent. *)
Definition greeted : SmsCookie :=
  set_interactionContext
    [ <["flowName" := VStr "root"]> (ActionGetContext (reply "greet")) ]
    (set_flowKey (KeyNum (JInt 1)) (set_flow (Some "root") fresh)).

End Sample.

(** ** More sample values *)
Module Demo.

(** A declared schema as a list of flows; its evaluation adds the root. *)
Definition evaluate (r : @Flow unit) (sc : list (@Flow unit))
  : Result (gmap string (@Flow unit)) :=
  Ok (list_to_map ((λ f, (flow_name f, f)) <$> (r :: sc))).

Definition silent : unit := tt.

Definition noOptions : @FlowControllerOptions unit :=
  {| opt_onInteractionEnd := HookUndefined; opt_testForExit := TestUndefined |}.

(** An Exit carrying the name of the root's second step. *)
Definition leave : Action :=
  {| action_name := "ask";
     ActionGetContext := {[ "body" := VStr "exit" ]};
     constructor := Exit |}.

(** The controller the constructor builds from the sample root and a
    schema that declares the survey, with no options. *)
Definition built : @Constructed unit unit :=
  {| controller :=
       {| root := Sample.rootFlow;
          schema := Some (list_to_map
                            [ ("root", Sample.rootFlow);
                              ("survey", Sample.surveyFlow) ]);
          testForExit := Some defaultTestForExit |};
     onInteractionEnd := Some silent |}.

Definition stop : TwilioWebhookRequest :=
  {| Body := "Stop. EXIT!"; From_ := "+15550100" |}.

(** A cookie in the survey whose context for the step [rate] holds a
    number where the receipts go. *)
Definition badReceipts : SmsCookie :=
  set_flowContext {[ "rate" := {[ "messageSid" := VNum 5 ]} ]} Sample.inSurvey.

(** The same with one receipt held as a string instead of an array. *)
Definition textReceipts : SmsCookie :=
  set_flowContext {[ "rate" := {[ "messageSid" := VStr "SM0" ]} ]} Sample.inSurvey.

End Demo.

(** * Properties *)

(** ** The store *)

Lemma heap_lookup_new (h : Heap) (s : SmsCookie) (l : nat) :
  l = length h -> (h ++ [s]) !! l = Some s.
Proof.
  intros ->. rewrite lookup_app_r by lia.
  now rewrite Nat.sub_diag.
Qed.

Lemma heap_lookup_old (h : Heap) (s x : SmsCookie) (l : nat) :
  h !! l = Some x -> (h ++ [s]) !! l = Some x.
Proof.
  intros H. rewrite lookup_app_l; [exact H|].
  eapply lookup_lt_Some, H.
Qed.

Lemma heap_assign_new (h : Heap) (s s' : SmsCookie) :
  <[length h := s']> (h ++ [s]) = h ++ [s'].
Proof.
  rewrite insert_app_r_alt by lia.
  now rewrite Nat.sub_diag.
Qed.

Lemma heap_keeps_refl h : heap_keeps h h.
Proof. now intros l x H. Qed.

Lemma heap_keeps_trans h1 h2 h3 :
  heap_keeps h1 h2 -> heap_keeps h2 h3 -> heap_keeps h1 h3.
Proof. intros H12 H23 l x H. now apply H23, H12. Qed.

Lemma heap_keeps_alloc h x : heap_keeps h (h ++ [x]).
Proof. intros l y H. now apply heap_lookup_old. Qed.

(** ** Rules for [returns] and [throws] *)

Lemma returns_ret {A} (a : A) h (Q : Heap -> A -> Prop) :
  Q h a -> returns (ret a) h Q.
Proof. intros HQ. exists h, a. split; [reflexivity | exact HQ]. Qed.

Lemma returns_bind {A B} (c : M A) (k : A -> M B) h (Q : Heap -> B -> Prop) :
  returns c h (fun h1 a => returns (k a) h1 Q) -> returns (bind c k) h Q.
Proof.
  intros (h1 & a & Hc & h2 & b & Hk & HQ).
  exists h2, b. split; [|exact HQ].
  unfold bind. now rewrite Hc.
Qed.

Lemma returns_mono {A} (c : M A) h (P Q : Heap -> A -> Prop) :
  returns c h P -> (∀ h' a, P h' a -> Q h' a) -> returns c h Q.
Proof.
  intros (h' & a & Hc & HP) HPQ. exists h', a. split; [exact Hc | now apply HPQ].
Qed.

Lemma returns_eq {A} (c : M A) h h' a (Q : Heap -> A -> Prop) :
  c h = (h', Ok a) -> Q h' a -> returns c h Q.
Proof. intros Hc HQ. now exists h', a. Qed.

Lemma returns_not_throws {A} (c : M A) h (Q : Heap -> A -> Prop) :
  returns c h Q -> ¬ throws c h.
Proof.
  intros (h1 & a & Hc & _) (h2 & e & Ht). rewrite Hc in Ht. discriminate.
Qed.

Lemma deref_returns (l : nat) h s :
  h !! l = Some s -> returns (deref l) h (fun h' a => h' = h ∧ a = s).
Proof.
  intros H. exists h, s. unfold deref. rewrite H. auto.
Qed.

Lemma deref_eq (l : nat) h s :
  h !! l = Some s -> deref l h = (h, Ok s).
Proof. intros H. unfold deref. now rewrite H. Qed.

(** ** Functions that copy

    Most cookie functions read their cookie and return an object literal
    built from it. *)

Lemma copy_eq (F : SmsCookie -> SmsCookie) (st : nat) h s :
  h !! st = Some s ->
  (s <- deref st ;; new (F s)) h = (h ++ [F s], Ok (length h)).
Proof. intros H. unfold bind. now rewrite (deref_eq _ _ _ H). Qed.

(** A function that reads its cookie and returns an object literal only
    allocates. *)
Lemma copy_keeps (F : SmsCookie -> SmsCookie) (st : nat) h h' (r : Result nat) :
  (s <- deref st ;; new (F s)) h = (h', r) -> heap_keeps h h'.
Proof.
  unfold bind, deref, new. destruct (h !! st) as [s|].
  - intros [= <- _]. apply heap_keeps_alloc.
  - intros [= <- _]. apply heap_keeps_refl.
Qed.

(** The same function returns whenever its cookie exists. *)
Lemma copy_returns (F : SmsCookie -> SmsCookie) (st : nat) h s :
  h !! st = Some s -> ¬ throws (s <- deref st ;; new (F s)) h.
Proof.
  intros H (h' & e & E). unfold bind in E.
  rewrite (deref_eq _ _ _ H) in E. discriminate E.
Qed.

(** ** The cookie transitions *)

Section Transitions.

Context {UserCtx : Type}.
Variable StringToNumber : string -> jsnum.
Implicit Types (h : Heap) (s : SmsCookie) (fl : @Flow UserCtx) (a : Action).

Lemma addQuestionAttempt_returns h (st : nat) s attempt :
  h !! st = Some s ->
  returns (addQuestionAttempt st attempt) h (fun h' l =>
    h' !! l = Some (set_question
                      {| attempts := attempts (question s) ++ [attempt];
                         isAnswering := isAnswering (question s) |} s)).
Proof.
  intros H. eapply returns_eq; [exact (copy_eq _ _ _ _ H)|].
  now apply heap_lookup_new.
Qed.

Lemma completeInteraction_returns h (st : nat) s :
  h !! st = Some s ->
  returns (completeInteraction st) h (fun h' l =>
    h' !! l = Some (set_isComplete true s)).
Proof.
  intros H. eapply returns_eq; [exact (copy_eq _ _ _ _ H)|].
  now apply heap_lookup_new.
Qed.

Lemma handleTrigger_returns h (st : nat) s target :
  h !! st = Some s ->
  returns (handleTrigger st target) h (fun h' l =>
    h' !! l = Some (set_flowContext ∅
                      (set_flowKey (KeyNum (JInt 0))
                         (set_flow (Some target) s)))).
Proof.
  intros H. eapply returns_eq; [exact (copy_eq _ _ _ _ H)|].
  now apply heap_lookup_new.
Qed.

Lemma startQuestion_returns h (st : nat) s :
  h !! st = Some s ->
  returns (startQuestion st) h (fun h' l =>
    h' !! l = Some (set_question {| attempts := []; isAnswering := true |} s)).
Proof.
  intros H. eapply returns_eq; [exact (copy_eq _ _ _ _ H)|].
  now apply heap_lookup_new.
Qed.

(** The store after [incrementFlowAction]: the copy [newState] is made and
    given the next position in every case; at the end of the flow a second
    copy, of the cookie behind [state], is completed and returned. *)
Lemma incrementFlowAction_eq h (st : nat) s fl :
  h !! st = Some s ->
  incrementFlowAction StringToNumber st fl h =
    let k := js_succ (Number StringToNumber (flowKey s)) in
    if js_strict_eq k (flow_length fl)
    then ((h ++ [set_flowKey (KeyNum k) s]) ++ [set_isComplete true s],
          Ok (S (length h)))
    else (h ++ [set_flowKey (KeyNum k) s], Ok (length h)).
Proof.
  intros H. unfold incrementFlowAction. cbv zeta.
  set (k := js_succ (Number StringToNumber (flowKey s))).
  unfold bind. rewrite (deref_eq _ _ _ H). unfold new, assign.
  rewrite heap_lookup_new by reflexivity. rewrite heap_assign_new.
  fold k. destruct (js_strict_eq k (flow_length fl)); [|reflexivity].
  unfold completeInteraction, bind.
  rewrite (deref_eq _ _ s) by now apply heap_lookup_old.
  unfold new. rewrite length_app. cbn [length].
  now rewrite Nat.add_1_r.
Qed.

Lemma incrementFlowAction_returns h (st : nat) s fl :
  h !! st = Some s ->
  returns (incrementFlowAction StringToNumber st fl) h (fun h' l =>
    h' !! l = Some (advanced StringToNumber fl s)).
Proof.
  intros H. unfold returns. rewrite (incrementFlowAction_eq _ _ _ fl H).
  cbv zeta. unfold advanced.
  destruct (js_strict_eq _ _); eexists _, _; (split; [reflexivity|]);
    apply heap_lookup_new; [|reflexivity].
  rewrite length_app. cbn [length]. lia.
Qed.

End Transitions.

Section Recording.

Context {UserCtx : Type}.
Implicit Types (h : Heap) (s : SmsCookie) (fl : @Flow UserCtx) (a : Action).

(** The context snapshot depends on the cookie through its flow context
    only. *)
Lemma getActionContext_flowContext s s' fl a :
  flowContext s = flowContext s' ->
  getActionContext s fl a = getActionContext s' fl a.
Proof.
  intros E. unfold getActionContext, recordQuestionMessageSid, prevSids.
  now rewrite E.
Qed.

Lemma getActionContext_claimed fl s a :
  getActionContext (claimed fl s) fl a = getActionContext s fl a.
Proof.
  apply getActionContext_flowContext.
  unfold claimed. now destruct (falsy (flow s)).
Qed.

(** The snapshot of an action that is not a Question is the action's own
    context: taking it never throws. *)
Lemma getActionContext_plain s fl a :
  (∀ q, constructor a ≠ IsQuestion q) ->
  getActionContext s fl a = Ok (ActionGetContext a).
Proof.
  intros Hq. unfold getActionContext.
  destruct (constructor a) as [| |q| |]; try reflexivity.
  now destruct (Hq q).
Qed.

(** The snapshot of a Question is its own context with [messageSid] set to
    the stored receipts, spread, followed by its own; it can be taken
    exactly when the stored receipts can be spread. *)
Lemma getActionContext_asks s fl a q prev :
  constructor a = IsQuestion q ->
  spread (prevSids s (action_name a)) = Ok prev ->
  getActionContext s fl a
  = Ok (<["messageSid" := VList (prev ++ default [] (sid q))]> (ActionGetContext a)).
Proof.
  intros Hq Hp. unfold getActionContext, recordQuestionMessageSid.
  now rewrite Hq, Hp.
Qed.

Lemma getActionContext_asks_throws s fl a q e :
  constructor a = IsQuestion q ->
  spread (prevSids s (action_name a)) = Throw e ->
  getActionContext s fl a = Throw e.
Proof.
  intros Hq Hp. unfold getActionContext, recordQuestionMessageSid.
  now rewrite Hq, Hp.
Qed.

(** Taking the snapshot succeeds for every action that is not a Question,
    and for a Question whose stored receipts can be spread. *)
Lemma getActionContext_ok s fl a :
  (∀ q, constructor a = IsQuestion q ->
        ∃ prev, spread (prevSids s (action_name a)) = Ok prev) ->
  ∃ ctx, getActionContext s fl a = Ok ctx.
Proof.
  intros Hq. destruct (constructor a) as [| |q| |] eqn:Hk;
    try (eexists; apply getActionContext_plain; intros q' Hq';
         rewrite Hk in Hq'; discriminate Hq').
  destruct (Hq q eq_refl) as [prev Hp].
  eexists. exact (getActionContext_asks s fl a q prev Hk Hp).
Qed.

(** The store after the assignment [if (!state.flow) state.flow = flow.name]
    and the cookie then read back. *)
Lemma updateContext_claims h (st : nat) s fl a :
  h !! st = Some s ->
  FlowActionNames_has fl (action_name a) = true ->
  updateContext st fl a h =
    (inFlow <- lift (getActionContext s fl a) ;;
     inHistory <- lift (getActionContext s fl a) ;;
     new (recorded (claimed fl s) fl a inFlow inHistory)) (<[st := claimed fl s]> h).
Proof.
  intros H Hn. unfold updateContext. unfold bind at 1.
  rewrite (deref_eq _ _ _ H), Hn. cbn [negb].
  unfold bind at 1.
  assert (E : (if falsy (flow s)
               then assign st (set_flow (Some (flow_name fl)))
               else ret tt) h = (<[st := claimed fl s]> h, Ok tt)).
  { unfold claimed. destruct (falsy (flow s)).
    - unfold assign. now rewrite H.
    - unfold ret. now rewrite (list_insert_id _ _ _ H). }
  rewrite E. unfold bind at 1.
  assert (Hlt : st < length h) by (eapply lookup_lt_Some, H).
  rewrite (deref_eq _ _ (claimed fl s)) by now apply list_lookup_insert_eq.
  now rewrite getActionContext_claimed.
Qed.

(** What [updateContext] does to the store when the action's name is one
    of the flow's and its snapshot can be taken: the cookie behind [state]
    is [claimed], and the returned cookie is new. *)
Lemma updateContext_eq h (st : nat) s fl a ctx :
  h !! st = Some s ->
  FlowActionNames_has fl (action_name a) = true ->
  getActionContext s fl a = Ok ctx ->
  updateContext st fl a h =
    (<[st := claimed fl s]> h ++ [recorded (claimed fl s) fl a ctx ctx],
     Ok (length h)).
Proof.
  intros H Hn Hc. rewrite (updateContext_claims _ _ _ _ _ H Hn).
  unfold bind, lift, new. rewrite Hc. now rewrite length_insert.
Qed.

Lemma updateContext_returns h (st : nat) s fl a ctx :
  h !! st = Some s ->
  FlowActionNames_has fl (action_name a) = true ->
  getActionContext s fl a = Ok ctx ->
  returns (updateContext st fl a) h (fun h' l =>
    h' !! l = Some (recorded (claimed fl s) fl a ctx ctx)).
Proof.
  intros H Hn Hc. eapply returns_eq; [exact (updateContext_eq _ _ _ _ _ _ H Hn Hc)|].
  apply heap_lookup_new. now rewrite length_insert.
Qed.

(** When the snapshot cannot be taken the error is raised after the
    assignment: the cookie behind [state] is [claimed] all the same. *)
Lemma updateContext_fails h (st : nat) s fl a e :
  h !! st = Some s ->
  FlowActionNames_has fl (action_name a) = true ->
  getActionContext s fl a = Throw e ->
  updateContext st fl a h = (<[st := claimed fl s]> h, Throw e).
Proof.
  intros H Hn Hc. rewrite (updateContext_claims _ _ _ _ _ H Hn).
  unfold bind, lift. now rewrite Hc.
Qed.

(** An action whose name the flow does not declare is refused before
    anything is written. *)
Lemma updateContext_refuses h (st : nat) s fl a :
  h !! st = Some s ->
  FlowActionNames_has fl (action_name a) = false ->
  updateContext st fl a h =
    (h, Throw (Error ("Flow " ++ flow_name fl ++ " does not have an action named "
                        ++ action_name a)%string)).
Proof.
  intros H Hn. unfold updateContext, bind.
  now rewrite (deref_eq _ _ _ H), Hn.
Qed.

(** A call of [updateContext] that returns: the name was declared and the
    snapshot could be taken. *)
Lemma updateContext_inv h (st : nat) s fl a h' (l : nat) :
  h !! st = Some s ->
  updateContext st fl a h = (h', Ok l) ->
  FlowActionNames_has fl (action_name a) = true
  ∧ ∃ ctx, getActionContext s fl a = Ok ctx
           ∧ h' = <[st := claimed fl s]> h ++ [recorded (claimed fl s) fl a ctx ctx]
           ∧ l = length h.
Proof.
  intros H E.
  destruct (FlowActionNames_has fl (action_name a)) eqn:Hn.
  - split; [reflexivity|].
    destruct (getActionContext s fl a) as [ctx|e] eqn:Hc.
    + rewrite (updateContext_eq _ _ _ _ _ _ H Hn Hc) in E.
      injection E as <- <-. now exists ctx.
    + rewrite (updateContext_fails _ _ _ _ _ _ H Hn Hc) in E. discriminate E.
  - rewrite (updateContext_refuses _ _ _ _ _ H Hn) in E. discriminate E.
Qed.

(** [getCurrentFlow] only reads. *)
Lemma getCurrentFlow_reads (this : @FlowController UserCtx) (st : nat) h h' r :
  getCurrentFlow this st h = (h', r) -> h' = h.
Proof.
  unfold getCurrentFlow, bind, deref.
  destruct (h !! st) as [s|]; [|now intros [= <- _]].
  destruct (falsy (flow s) || bool_decide (flow s = Some (flow_name (root this))));
    [now intros [= <- _]|].
  destruct (flow s) as [n|]; [|now intros [= <- _]].
  destruct (schema this) as [m|]; [|now intros [= <- _]].
  destruct (m !! n); now intros [= <- _].
Qed.

End Recording.

(** ** Resolving the current flow *)

(** C7. A cookie whose flow name is unset (null or empty, what
    [!state.flow] accepts) or is the root's name resolves to the root flow.
    Any other name that the schema does not have, or that is looked up
    when there is no schema, raises the invalid-flow-name TypeError; a name
    the schema has resolves to the schema's flow. *)
Theorem getCurrentFlow_resolves {UserCtx} (this : @FlowController UserCtx)
    (h : Heap) (st : nat) (s : SmsCookie) :
  h !! st = Some s ->
  (falsy (flow s) = true ∨ flow s = Some (flow_name (root this)) ->
     getCurrentFlow this st h = (h, Ok (root this)))
  ∧ (∀ n, flow s = Some n -> n ≠ "" -> n ≠ flow_name (root this) ->
       ((schema this = None ∨ ∃ m, schema this = Some m ∧ m !! n = None) ->
          getCurrentFlow this st h =
            (h, Throw (TypeError
                         ("Received invalid flow name in SMS cookie: " ++ n)%string)))
       ∧ (∀ m f, schema this = Some m -> m !! n = Some f ->
            getCurrentFlow this st h = (h, Ok f))).
Proof.
  intros H. unfold getCurrentFlow, bind. rewrite (deref_eq _ _ _ H).
  split.
  - intros [Hf | Hr].
    + now rewrite Hf.
    + rewrite Hr, bool_decide_true by reflexivity.
      now rewrite orb_true_r.
  - intros n Hn Hne Hroot. rewrite Hn. cbn [falsy].
    rewrite !bool_decide_false by congruence. cbn [orb].
    split.
    + intros [Hnone | (m & Hm & Hlook)].
      * now rewrite Hnone.
      * now rewrite Hm, Hlook.
    + intros m f Hm Hlook. now rewrite Hm, Hlook.
Qed.

Lemma getCurrentFlow_resolves_witness :
  getCurrentFlow Sample.withSchema 0 [Sample.fresh]
    = ([Sample.fresh], Ok Sample.rootFlow)
  ∧ getCurrentFlow Sample.noSchema 0 [Sample.inSurvey]
    = ([Sample.inSurvey],
       Throw (TypeError "Received invalid flow name in SMS cookie: survey"))
  ∧ getCurrentFlow Sample.withSchema 0 [Sample.lost]
    = ([Sample.lost],
       Throw (TypeError "Received invalid flow name in SMS cookie: nowhere"))
  ∧ getCurrentFlow Sample.withSchema 0 [Sample.inSurvey]
    = ([Sample.inSurvey], Ok Sample.surveyFlow).
Proof.
  split; [|split; [|split]].
  - apply (proj1 (getCurrentFlow_resolves
                    Sample.withSchema [Sample.fresh] 0 Sample.fresh eq_refl)).
    left. reflexivity.
  - apply (proj2 (getCurrentFlow_resolves
                    Sample.noSchema [Sample.inSurvey] 0 Sample.inSurvey eq_refl)
             "survey" eq_refl); [discriminate | discriminate |].
    left. reflexivity.
  - apply (proj2 (getCurrentFlow_resolves
                    Sample.withSchema [Sample.lost] 0 Sample.lost eq_refl)
             "nowhere" eq_refl); [discriminate | discriminate |].
    right. eexists. split; [reflexivity|]. vm_compute. reflexivity.
  - eapply (proj2 (getCurrentFlow_resolves
                     Sample.withSchema [Sample.inSurvey] 0 Sample.inSurvey eq_refl)
              "survey" eq_refl); [discriminate | discriminate | reflexivity |].
    vm_compute. reflexivity.
Defined.

(** ** Resolving the action *)

(** C8. For a completed cookie [resolveActionFromState] returns no action,
    whatever the controller (exit test, flows), the inbound message, the
    user context and the rest of the cookie are; nothing is written. *)
Theorem resolveActionFromState_complete {UserCtx}
    (StringToNumber : string -> jsnum)
    (Exit_init : string -> string * ActionContext)
    (QuestionEvaluate :
       Question -> TwilioWebhookRequest -> SmsCookie -> Result Question)
    (this : @FlowController UserCtx) (req : TwilioWebhookRequest)
    (userCtx : UserCtx) (h : Heap) (st : nat) (s : SmsCookie) :
  h !! st = Some s ->
  isComplete s = true ->
  resolveActionFromState StringToNumber Exit_init QuestionEvaluate
    this req st userCtx h = (h, Ok None).
Proof.
  intros H Hc. unfold resolveActionFromState, bind.
  now rewrite (deref_eq _ _ _ H), Hc.
Qed.

Lemma resolveActionFromState_complete_witness :
  resolveActionFromState Sample.toNumber Sample.exitInit Sample.evaluate
    Sample.broken Sample.bye 0 tt [Sample.done_] = ([Sample.done_], Ok None).
Proof.
  apply resolveActionFromState_complete with (s := Sample.done_); reflexivity.
Defined.

(** C9. For a cookie that is not complete, when the controller's exit test
    answers true on the inbound body, [resolveActionFromState] returns the
    Exit action built from that body.  The flow, the position and the
    resolvers play no part: the result is the same for every controller
    with that test, and nothing is written. *)
Theorem resolveActionFromState_exit {UserCtx}
    (StringToNumber : string -> jsnum)
    (Exit_init : string -> string * ActionContext)
    (QuestionEvaluate :
       Question -> TwilioWebhookRequest -> SmsCookie -> Result Question)
    (this : @FlowController UserCtx) (test : ExitKeywordTest)
    (req : TwilioWebhookRequest) (userCtx : UserCtx)
    (h : Heap) (st : nat) (s : SmsCookie) :
  h !! st = Some s ->
  isComplete s = false ->
  testForExit this = Some test ->
  test (Body req) = Ok true ->
  resolveActionFromState StringToNumber Exit_init QuestionEvaluate
    this req st userCtx h = (h, Ok (Some (new_Exit Exit_init (Body req))))
  ∧ constructor (new_Exit Exit_init (Body req)) = Exit.
Proof.
  intros H Hc Ht Hb. split; [|reflexivity].
  unfold resolveActionFromState, bind.
  rewrite (deref_eq _ _ _ H), Hc, Ht. unfold lift. now rewrite Hb.
Qed.

(** The root's only resolver rejects, the exit still comes out. *)
Lemma resolveActionFromState_exit_witness :
  resolveActionFromState Sample.toNumber Sample.exitInit Sample.evaluate
    Sample.broken Sample.bye 0 tt [Sample.fresh]
    = ([Sample.fresh], Ok (Some (new_Exit Sample.exitInit "exit")))
  ∧ constructor (new_Exit Sample.exitInit "exit") = Exit.
Proof.
  apply (resolveActionFromState_exit Sample.toNumber Sample.exitInit
           Sample.evaluate Sample.broken Sample.exitTest Sample.bye tt
           [Sample.fresh] 0 Sample.fresh); reflexivity.
Defined.

(** ** Advancing the position *)

(** C10. When [Number(flowKey) + 1] is the flow's length,
    [incrementFlowAction] returns a completed copy of the cookie with the
    position it had; otherwise it returns a copy whose position is
    [Number(flowKey) + 1], as complete as the cookie was.  The cookie it
    was given is not written. *)
Theorem incrementFlowAction_completes_or_advances {UserCtx}
    (StringToNumber : string -> jsnum) (f : @Flow UserCtx)
    (h : Heap) (st : nat) (s : SmsCookie) :
  h !! st = Some s ->
  returns (incrementFlowAction StringToNumber st f) h (fun h' l =>
    ∃ s', h' !! l = Some s' ∧ h' !! st = Some s ∧
      let next := js_succ (Number StringToNumber (flowKey s)) in
      (js_strict_eq next (flow_length f) = true ->
         s' = set_isComplete true s ∧
         isComplete s' = true ∧ flowKey s' = flowKey s)
      ∧ (js_strict_eq next (flow_length f) = false ->
           s' = set_flowKey (KeyNum next) s ∧
           flowKey s' = KeyNum next ∧ isComplete s' = isComplete s)).
Proof.
  intros H. unfold returns. rewrite (incrementFlowAction_eq _ _ _ _ f H).
  cbv zeta.
  destruct (js_strict_eq _ _) eqn:Hk; eexists _, _; (split; [reflexivity|]).
  - exists (set_isComplete true s). split; [|split; [|split]].
    + apply heap_lookup_new. rewrite length_app. cbn [length]. lia.
    + now do 2 apply heap_lookup_old.
    + intros _. repeat split.
    + intros [=].
  - eexists. split; [|split; [|split]].
    + now apply heap_lookup_new.
    + now apply heap_lookup_old.
    + intros [=].
    + intros _. repeat split.
Qed.

Lemma incrementFlowAction_completes_or_advances_witness :
  returns (incrementFlowAction Sample.toNumber 0 Sample.rootFlow)
    [set_flowKey (KeyStr "2") Sample.fresh]
    (fun h' l =>
       ∃ s', h' !! l = Some s'
             ∧ h' !! 0 = Some (set_flowKey (KeyStr "2") Sample.fresh)
             ∧ isComplete s' = true ∧ flowKey s' = KeyStr "2")
  ∧ returns (incrementFlowAction Sample.toNumber 0 Sample.rootFlow)
      [Sample.fresh]
      (fun h' l =>
         ∃ s', h' !! l = Some s' ∧ h' !! 0 = Some Sample.fresh
               ∧ flowKey s' = KeyNum (JInt 1) ∧ isComplete s' = false).
Proof.
  split.
  - eapply returns_mono.
    + apply (incrementFlowAction_completes_or_advances Sample.toNumber
               Sample.rootFlow [set_flowKey (KeyStr "2") Sample.fresh] 0
               (set_flowKey (KeyStr "2") Sample.fresh) eq_refl).
    + intros h' l (s' & Hl & Hst & Hend & _).
      destruct (Hend eq_refl) as (_ & Hc & Hk).
      exists s'. auto.
  - eapply returns_mono.
    + apply (incrementFlowAction_completes_or_advances Sample.toNumber
               Sample.rootFlow [Sample.fresh] 0 Sample.fresh eq_refl).
    + intros h' l (s' & Hl & Hst & _ & Hmid).
      destruct (Hmid eq_refl) as (_ & Hk & Hc).
      exists s'. auto.
Defined.

(** ** Computing the next state *)

Section NextState.

Context {UserCtx : Type}.
Variable StringToNumber : string -> jsnum.
Variable this : @FlowController UserCtx.
Implicit Types (h : Heap) (s : SmsCookie) (f : @Flow UserCtx) (a : Action).

Lemma pipe2_returns (u v : nat -> M nat) (st : nat) h (Q : Heap -> nat -> Prop) :
  returns (u st) h (fun h1 l1 => returns (v l1) h1 Q) ->
  returns (pipeSmsCookieUpdates [u; v] st) h Q.
Proof.
  intros Hu. cbn [pipeSmsCookieUpdates]. apply returns_bind.
  eapply returns_mono; [exact Hu|]. cbv beta. intros h1 l1 Hv.
  apply returns_bind. eapply returns_mono; [exact Hv|]. cbv beta.
  intros h2 l2 HQ. now apply returns_ret.
Qed.

(** Recording the context and then completing. *)
Lemma record_complete_returns h (st : nat) s f a ctx :
  h !! st = Some s ->
  FlowActionNames_has f (action_name a) = true ->
  getActionContext s f a = Ok ctx ->
  returns (pipeSmsCookieUpdates
             [ (fun c => updateContext c f a); completeInteraction ] st) h
    (fun h' l =>
       h' !! l = Some (set_isComplete true (recorded (claimed f s) f a ctx ctx))).
Proof.
  intros H Hn Hc. apply pipe2_returns.
  eapply returns_mono; [exact (updateContext_returns _ _ _ _ _ _ H Hn Hc)|].
  cbv beta. intros h1 l1 H1. now apply completeInteraction_returns.
Qed.

(** Recording the context and then advancing. *)
Lemma record_advance_returns h (st : nat) s f a ctx :
  h !! st = Some s ->
  FlowActionNames_has f (action_name a) = true ->
  getActionContext s f a = Ok ctx ->
  returns (pipeSmsCookieUpdates
             [ (fun c => updateContext c f a);
               (fun c => incrementFlowAction StringToNumber c f) ] st) h
    (fun h' l =>
       h' !! l = Some (advanced StringToNumber f
                         (recorded (claimed f s) f a ctx ctx))).
Proof.
  intros H Hn Hc. apply pipe2_returns.
  eapply returns_mono; [exact (updateContext_returns _ _ _ _ _ _ H Hn Hc)|].
  cbv beta. intros h1 l1 H1. now apply incrementFlowAction_returns.
Qed.

(** Recording the context and then switching flows. *)
Lemma record_trigger_returns h (st : nat) s f a ctx target :
  h !! st = Some s ->
  FlowActionNames_has f (action_name a) = true ->
  getActionContext s f a = Ok ctx ->
  returns (pipeSmsCookieUpdates
             [ (fun c => updateContext c f a);
               (fun c => handleTrigger c target) ] st) h
    (fun h' l =>
       h' !! l = Some (set_flowContext ∅
                         (set_flowKey (KeyNum (JInt 0))
                            (set_flow (Some target)
                               (recorded (claimed f s) f a ctx ctx))))).
Proof.
  intros H Hn Hc. apply pipe2_returns.
  eapply returns_mono; [exact (updateContext_returns _ _ _ _ _ _ H Hn Hc)|].
  cbv beta. intros h1 l1 H1. now apply handleTrigger_returns.
Qed.

(** Starting the question and then recording the context. *)
Lemma start_record_returns h (st : nat) s f a ctx :
  h !! st = Some s ->
  FlowActionNames_has f (action_name a) = true ->
  getActionContext s f a = Ok ctx ->
  returns (pipeSmsCookieUpdates
             [ startQuestion; (fun c => updateContext c f a) ] st) h
    (fun h' l =>
       h' !! l = Some (recorded
                         (claimed f (set_question
                                       {| attempts := []; isAnswering := true |} s))
                         f a ctx ctx)).
Proof.
  intros H Hn Hc. apply pipe2_returns.
  eapply returns_mono; [exact (startQuestion_returns _ _ _ H)|].
  cbv beta. intros h1 l1 H1. now apply updateContext_returns.
Qed.

(** A pipeline whose first update throws, throws: the second is not run. *)
Lemma pipe_first_throws (u : nat -> M nat) (rest : list (nat -> M nat))
    (st : nat) h h' e :
  u st h = (h', Throw e) ->
  pipeSmsCookieUpdates (u :: rest) st h = (h', Throw e).
Proof. intros E. cbn [pipeSmsCookieUpdates]. unfold bind. now rewrite E. Qed.

(** Once the current flow is known the rest of the method runs with it. *)
Lemma resolveNextStateFromAction_with_flow h (st : nat) f req act :
  getCurrentFlow this st h = (h, Ok f) ->
  resolveNextStateFromAction StringToNumber this req st act h =
    match act with
    | None => completeInteraction st h
    | Some a =>
        match constructor a with
        | Exit =>
            pipeSmsCookieUpdates
              [ (fun c => updateContext c f a); completeInteraction ] st h
        | IsQuestion q =>
            (s0 <- deref st ;;
             state <- (if isAnswering (question s0)
                       then addQuestionAttempt st (Body req)
                       else ret st) ;;
             if isAnswered q then
               pipeSmsCookieUpdates
                 [ (fun c => updateContext c f a);
                   (fun c => incrementFlowAction StringToNumber c f) ] state
             else if isFailed q then
               if QuestionShouldContinueOnFail q then
                 pipeSmsCookieUpdates
                   [ (fun c => updateContext c f a);
                     (fun c => incrementFlowAction StringToNumber c f) ] state
               else
                 pipeSmsCookieUpdates
                   [ (fun c => updateContext c f a); completeInteraction ] state
             else
               s1 <- deref state ;;
               if isAnswering (question s1) then updateContext state f a
               else
                 pipeSmsCookieUpdates
                   [ startQuestion; (fun c => updateContext c f a) ] state) h
        | Trigger target =>
            (_ <- checkTrigger this f target ;;
             pipeSmsCookieUpdates
               [ (fun c => updateContext c f a);
                 (fun c => handleTrigger c target) ] st) h
        | _ =>
            pipeSmsCookieUpdates
              [ (fun c => updateContext c f a);
                (fun c => incrementFlowAction StringToNumber c f) ] st h
        end
    end.
Proof.
  intros Hf. unfold resolveNextStateFromAction.
  unfold bind at 1. rewrite Hf.
  destruct act as [a|]; [|reflexivity].
  destruct (constructor a); reflexivity.
Qed.

End NextState.

(** What recording and claiming leave alone. *)
Section Fields.

Context {UserCtx : Type}.
Implicit Types (s : SmsCookie) (f : @Flow UserCtx) (a : Action).

Lemma claimed_keeps f s :
  flowContext (claimed f s) = flowContext s
  ∧ flowKey (claimed f s) = flowKey s
  ∧ interactionContext (claimed f s) = interactionContext s
  ∧ isComplete (claimed f s) = isComplete s
  ∧ question (claimed f s) = question s.
Proof. unfold claimed. destruct (falsy (flow s)); repeat split. Qed.

Lemma attempted_keeps req s :
  flowContext (attempted req s) = flowContext s
  ∧ flowKey (attempted req s) = flowKey s
  ∧ interactionContext (attempted req s) = interactionContext s
  ∧ isComplete (attempted req s) = isComplete s
  ∧ flow (attempted req s) = flow s.
Proof. unfold attempted. destruct (isAnswering (question s)); repeat split. Qed.

Lemma getActionContext_attempted req s f a :
  getActionContext (attempted req s) f a = getActionContext s f a.
Proof.
  apply getActionContext_flowContext.
  now destruct (attempted_keeps req s) as (-> & _).
Qed.

Lemma getActionContext_question s q f a :
  getActionContext (set_question q s) f a = getActionContext s f a.
Proof. now apply getActionContext_flowContext. Qed.

End Fields.

(** C5. At the last index of the current flow, a Reply or a Message
    completes the interaction: the returned cookie has [isComplete = true],
    keeps its position and stays in the same flow (no loop back to position
    0, no return to another flow). *)
Theorem last_step_completes {UserCtx} (StringToNumber : string -> jsnum)
    (this : @FlowController UserCtx) (req : TwilioWebhookRequest)
    (f : @Flow UserCtx) (a : Action) (h : Heap) (st : nat) (s : SmsCookie) :
  h !! st = Some s ->
  getCurrentFlow this st h = (h, Ok f) ->
  Number StringToNumber (flowKey s)
    = JInt (Z.of_nat (length (flow_actions f)) - 1) ->
  constructor a = Reply ∨ constructor a = Message ->
  FlowActionNames_has f (action_name a) = true ->
  returns (resolveNextStateFromAction StringToNumber this req st (Some a)) h
    (fun h' l =>
       ∃ s', h' !! l = Some s'
             ∧ isComplete s' = true
             ∧ flowKey s' = flowKey s
             ∧ flow s' = flow (claimed f s)).
Proof.
  intros H Hf Hlast Hk Hn.
  assert (Hc : getActionContext s f a = Ok (ActionGetContext a)).
  { apply getActionContext_plain. intros q Hq.
    destruct Hk as [Hk | Hk]; rewrite Hk in Hq; discriminate Hq. }
  unfold returns.
  rewrite (resolveNextStateFromAction_with_flow _ _ _ _ _ _ _ Hf).
  pose proof (record_advance_returns StringToNumber _ _ _ _ _ _ H Hn Hc) as Hrun.
  assert (Hend :
    advanced StringToNumber f
      (recorded (claimed f s) f a (ActionGetContext a) (ActionGetContext a))
    = set_isComplete true
        (recorded (claimed f s) f a (ActionGetContext a) (ActionGetContext a))).
  { unfold advanced. cbn [recorded set_interactionContext set_flowContext flowKey].
    destruct (claimed_keeps f s) as (_ & -> & _). rewrite Hlast.
    unfold flow_length. cbn [js_succ js_strict_eq].
    rewrite bool_decide_true by lia. reflexivity. }
  rewrite Hend in Hrun.
  destruct Hrun as (h' & l & Hrun & Hl).
  exists h', l. split.
  - destruct Hk as [-> | ->]; exact Hrun.
  - eexists. split; [exact Hl|]. cbn.
    destruct (claimed_keeps f s) as (_ & -> & _). auto.
Qed.

Lemma last_step_completes_witness :
  returns (resolveNextStateFromAction Sample.toNumber Sample.withSchema
             Sample.hello 0 (Some (Sample.reply "thanks")))
    [set_flowKey (KeyNum (JInt 1)) Sample.inSurvey]
    (fun h' l =>
       ∃ s', h' !! l = Some s'
             ∧ isComplete s' = true
             ∧ flowKey s' = KeyNum (JInt 1)
             ∧ flow s' = Some "survey").
Proof.
  apply (last_step_completes Sample.toNumber Sample.withSchema Sample.hello
           Sample.surveyFlow (Sample.reply "thanks")
           [set_flowKey (KeyNum (JInt 1)) Sample.inSurvey] 0
           (set_flowKey (KeyNum (JInt 1)) Sample.inSurvey));
    [reflexivity | reflexivity | reflexivity | left; reflexivity | reflexivity].
Defined.

(** ** Questions *)

(** The cookie the controller returns for a Question whose name the current
    flow declares, when the snapshot of the question can be taken. *)
Lemma resolveNextStateFromAction_question {UserCtx}
    (StringToNumber : string -> jsnum) (this : @FlowController UserCtx)
    (req : TwilioWebhookRequest) (f : @Flow UserCtx) (a : Action)
    (q : Question) (ctx : ActionContext) (h : Heap) (st : nat) (s : SmsCookie) :
  h !! st = Some s ->
  getCurrentFlow this st h = (h, Ok f) ->
  constructor a = IsQuestion q ->
  FlowActionNames_has f (action_name a) = true ->
  getActionContext s f a = Ok ctx ->
  returns (resolveNextStateFromAction StringToNumber this req st (Some a)) h
    (fun h' l =>
       h' !! l = Some
         match evaluation q with
         | Answered =>
             advanced StringToNumber f
               (recorded (claimed f (attempted req s)) f a ctx ctx)
         | Failed =>
             if QuestionShouldContinueOnFail q
             then advanced StringToNumber f
                    (recorded (claimed f (attempted req s)) f a ctx ctx)
             else set_isComplete true
                    (recorded (claimed f (attempted req s)) f a ctx ctx)
         | Pending =>
             if isAnswering (question s)
             then recorded (claimed f (attempted req s)) f a ctx ctx
             else recorded
                    (claimed f (set_question
                                  {| attempts := []; isAnswering := true |} s))
                    f a ctx ctx
         end).
Proof.
  intros H Hf Hq Hn Hc. unfold returns.
  rewrite (resolveNextStateFromAction_with_flow _ _ _ _ _ _ _ Hf), Hq.
  fold (returns
          (s0 <- deref st ;;
           state <- (if isAnswering (question s0)
                     then addQuestionAttempt st (Body req) else ret st) ;;
           if isAnswered q then
             pipeSmsCookieUpdates
               [ (fun c => updateContext c f a);
                 (fun c => incrementFlowAction StringToNumber c f) ] state
           else if isFailed q then
             if QuestionShouldContinueOnFail q then
               pipeSmsCookieUpdates
                 [ (fun c => updateContext c f a);
                   (fun c => incrementFlowAction StringToNumber c f) ] state
             else
               pipeSmsCookieUpdates
                 [ (fun c => updateContext c f a); completeInteraction ] state
           else
             s1 <- deref state ;;
             if isAnswering (question s1) then updateContext state f a
             else
               pipeSmsCookieUpdates
                 [ startQuestion; (fun c => updateContext c f a) ] state) h).
  apply returns_bind.
  eapply returns_mono; [exact (deref_returns _ _ _ H)|].
  cbv beta. intros h0 s0 [-> ->].
  apply returns_bind.
  eapply (returns_mono _ _ (fun h1 l1 => h1 !! l1 = Some (attempted req s))).
  { unfold attempted. destruct (isAnswering (question s)) eqn:Ha.
    - eapply returns_mono; [exact (addQuestionAttempt_returns _ _ _ _ H)|].
      cbv beta. intros h1 l1 H1. now rewrite Ha in H1.
    - now apply returns_ret. }
  cbv beta. intros h1 l1 H1.
  assert (Hc1 : getActionContext (attempted req s) f a = Ok ctx)
    by now rewrite getActionContext_attempted.
  unfold isAnswered, isFailed.
  destruct (evaluation q).
  - (* pending *)
    apply returns_bind.
    eapply returns_mono; [exact (deref_returns _ _ _ H1)|].
    cbv beta. intros h2 s2 [-> ->].
    unfold attempted in *. destruct (isAnswering (question s)) eqn:Ha.
    + cbn [question set_question isAnswering].
      now apply updateContext_returns.
    + rewrite Ha. now apply start_record_returns.
  - (* answered *)
    now apply record_advance_returns.
  - (* failed *)
    destruct (QuestionShouldContinueOnFail q).
    + now apply record_advance_returns.
    + now apply record_complete_returns.
Qed.

(** When the snapshot of the question cannot be taken, every branch ends
    in [updateContext], which raises the error of the snapshot. *)
Lemma resolveNextStateFromAction_question_throws {UserCtx}
    (StringToNumber : string -> jsnum) (this : @FlowController UserCtx)
    (req : TwilioWebhookRequest) (f : @Flow UserCtx) (a : Action)
    (q : Question) (e : Err) (h : Heap) (st : nat) (s : SmsCookie) :
  h !! st = Some s ->
  getCurrentFlow this st h = (h, Ok f) ->
  constructor a = IsQuestion q ->
  FlowActionNames_has f (action_name a) = true ->
  getActionContext s f a = Throw e ->
  ∃ h', resolveNextStateFromAction StringToNumber this req st (Some a) h
        = (h', Throw e).
Proof.
  intros H Hf Hq Hn Hc.
  rewrite (resolveNextStateFromAction_with_flow _ _ _ _ _ _ _ Hf), Hq.
  unfold bind at 1. rewrite (deref_eq _ _ _ H).
  unfold bind at 1.
  assert (∃ h1 l1, (if isAnswering (question s)
                    then addQuestionAttempt st (Body req) else ret st) h
                   = (h1, Ok l1) ∧ h1 !! l1 = Some (attempted req s))
    as (h1 & l1 & E1 & H1).
  { unfold attempted. destruct (isAnswering (question s)) eqn:Ha.
    - destruct (addQuestionAttempt_returns h st s (Body req) H)
        as (h1 & l1 & E1 & H1).
      exists h1, l1. split; [exact E1|]. now rewrite Ha in H1.
    - exists h, st. split; [reflexivity | exact H]. }
  rewrite E1.
  assert (Hc1 : getActionContext (attempted req s) f a = Throw e)
    by now rewrite getActionContext_attempted.
  pose proof (updateContext_fails _ _ _ _ _ _ H1 Hn Hc1) as Hup.
  assert (Hpipe : ∀ rest,
            pipeSmsCookieUpdates ((fun c => updateContext c f a) :: rest) l1 h1
            = (<[l1 := claimed f (attempted req s)]> h1, Throw e))
    by (intros rest; now apply pipe_first_throws).
  unfold isAnswered, isFailed.
  destruct (evaluation q).
  - unfold bind at 1. rewrite (deref_eq _ _ _ H1).
    destruct (isAnswering (question (attempted req s))) eqn:Ha.
    + eauto.
    + destruct (startQuestion_returns h1 l1 _ H1) as (h2 & l2 & E2 & H2).
      cbn [pipeSmsCookieUpdates]. unfold bind at 1. rewrite E2.
      assert (Hc2 : getActionContext
                      (set_question {| attempts := []; isAnswering := true |}
                         (attempted req s)) f a = Throw e)
        by now rewrite getActionContext_question.
      unfold bind at 1.
      rewrite (updateContext_fails _ _ _ _ _ _ H2 Hn Hc2). eauto.
  - rewrite Hpipe. eauto.
  - destruct (QuestionShouldContinueOnFail q); rewrite Hpipe; eauto.
Qed.

(** C3 (as the code has it). When the receipts stored under the question's
    name can be spread (none, an array or a string): a pending Question
    met by a cookie that is not answering yields a cookie with
    [isAnswering = true], no attempts and the same position; an answered
    Question met by a cookie that is answering yields a cookie with
    exactly the inbound body appended to the attempts, whose position is
    one more, unless that reaches the flow's length: then the position
    stays and the cookie is complete.  When the stored receipts cannot be
    spread, the call raises the error of the spread. *)
Theorem question_start_then_answer {UserCtx} (StringToNumber : string -> jsnum)
    (this : @FlowController UserCtx) (req : TwilioWebhookRequest)
    (f : @Flow UserCtx) (a : Action) (q : Question)
    (h : Heap) (st : nat) (s : SmsCookie) :
  h !! st = Some s ->
  getCurrentFlow this st h = (h, Ok f) ->
  constructor a = IsQuestion q ->
  FlowActionNames_has f (action_name a) = true ->
  (∀ prev, spread (prevSids s (action_name a)) = Ok prev ->
     (evaluation q = Pending -> isAnswering (question s) = false ->
        returns (resolveNextStateFromAction StringToNumber this req st (Some a)) h
          (fun h' l =>
             ∃ s', h' !! l = Some s'
                   ∧ question s' = {| attempts := []; isAnswering := true |}
                   ∧ flowKey s' = flowKey s))
     ∧ (evaluation q = Answered -> isAnswering (question s) = true ->
          returns (resolveNextStateFromAction StringToNumber this req st (Some a)) h
            (fun h' l =>
               ∃ s', h' !! l = Some s'
                     ∧ attempts (question s') = attempts (question s) ++ [Body req]
                     ∧ let next := js_succ (Number StringToNumber (flowKey s)) in
                       (js_strict_eq next (flow_length f) = false ->
                          flowKey s' = KeyNum next ∧ isComplete s' = isComplete s)
                       ∧ (js_strict_eq next (flow_length f) = true ->
                            flowKey s' = flowKey s ∧ isComplete s' = true))))
  ∧ (∀ e, spread (prevSids s (action_name a)) = Throw e ->
       ∃ h', resolveNextStateFromAction StringToNumber this req st (Some a) h
             = (h', Throw e)).
Proof.
  intros H Hf Hq Hn. split.
  - intros prev Hp.
    pose proof (resolveNextStateFromAction_question
                  StringToNumber this req f a q _ h st s H Hf Hq Hn
                  (getActionContext_asks s f a q prev Hq Hp)) as Hrun.
    split.
    + intros He Ha. rewrite He, Ha in Hrun.
      eapply returns_mono; [exact Hrun|]. cbv beta. intros h' l Hl.
      eexists. split; [exact Hl|]. cbn.
      now destruct (claimed_keeps f
                      (set_question {| attempts := []; isAnswering := true |} s))
        as (_ & -> & _ & _ & ->).
    + intros He Ha. rewrite He in Hrun.
      eapply returns_mono; [exact Hrun|]. cbv beta zeta. intros h' l Hl.
      eexists. split; [exact Hl|].
      unfold advanced.
      cbn [recorded set_interactionContext set_flowContext flowKey].
      destruct (claimed_keeps f (attempted req s)) as (_ & Ek & _ & Ec & Eq).
      rewrite Ek.
      destruct (attempted_keeps req s) as (_ & Ek' & _ & Ec' & _).
      rewrite Ek'.
      assert (Eatt : attempts (question (attempted req s))
                     = attempts (question s) ++ [Body req])
        by (unfold attempted; now rewrite Ha).
      destruct (js_strict_eq _ _); cbn; rewrite ?Ek, ?Ek', ?Ec, ?Ec', Eq, Eatt;
        (split; [reflexivity|]); split; intros [=]; auto.
  - intros e Hp.
    exact (resolveNextStateFromAction_question_throws
             StringToNumber this req f a q e h st s H Hf Hq Hn
             (getActionContext_asks_throws s f a q e Hq Hp)).
Qed.

Lemma question_start_then_answer_witness :
  returns (resolveNextStateFromAction Sample.toNumber Sample.withSchema
             Sample.hello 0 (Some (Sample.ask "rate" Pending true)))
    [Sample.inSurvey]
    (fun h' l =>
       ∃ s', h' !! l = Some s'
             ∧ question s' = {| attempts := []; isAnswering := true |}
             ∧ flowKey s' = KeyNum (JInt 0))
  ∧ returns (resolveNextStateFromAction Sample.toNumber Sample.withSchema
               Sample.hello 0 (Some (Sample.ask "rate" Answered true)))
      [set_question {| attempts := []; isAnswering := true |} Sample.inSurvey]
      (fun h' l =>
         ∃ s', h' !! l = Some s'
               ∧ attempts (question s') = ["hello"]
               ∧ flowKey s' = KeyNum (JInt 1) ∧ isComplete s' = false)
  ∧ ∃ h', resolveNextStateFromAction Sample.toNumber Sample.withSchema
            Sample.hello 0 (Some (Sample.ask "rate" Answered true))
            [Demo.badReceipts]
          = (h', Throw (TypeError "prevSids is not iterable")).
Proof.
  split; [|split].
  - apply (proj1 (proj1 (question_start_then_answer Sample.toNumber
                           Sample.withSchema Sample.hello Sample.surveyFlow
                           (Sample.ask "rate" Pending true) _
                           [Sample.inSurvey] 0 Sample.inSurvey
                           eq_refl eq_refl eq_refl eq_refl) [] eq_refl));
      reflexivity.
  - eapply returns_mono.
    + apply (proj2 (proj1 (question_start_then_answer Sample.toNumber
                             Sample.withSchema Sample.hello Sample.surveyFlow
                             (Sample.ask "rate" Answered true) _
                             [set_question {| attempts := []; isAnswering := true |}
                                Sample.inSurvey] 0
                             (set_question {| attempts := []; isAnswering := true |}
                                Sample.inSurvey)
                             eq_refl eq_refl eq_refl eq_refl) [] eq_refl));
        reflexivity.
    + cbv beta zeta. intros h' l (s' & Hl & Hatt & Hmid & _).
      destruct (Hmid eq_refl) as (Hk & Hc).
      exists s'. auto.
  - apply (proj2 (question_start_then_answer Sample.toNumber
                    Sample.withSchema Sample.hello Sample.surveyFlow
                    (Sample.ask "rate" Answered true) _
                    [Demo.badReceipts] 0 Demo.badReceipts
                    eq_refl eq_refl eq_refl eq_refl)).
    reflexivity.
Defined.

(** C3 as stated does not hold at the end of a flow: on a root flow whose only
    step is the question, the pending call starts the question, and the
    answered call that follows records the attempt but leaves the position
    at 0 (and completes the interaction). *)
Lemma answered_last_question_keeps_position :
  ∃ h1 l1 s1 h2 l2 s2,
    resolveNextStateFromAction Sample.toNumber Sample.quiz Sample.hello 0
      (Some (Sample.ask "ask" Pending true)) [Sample.fresh] = (h1, Ok l1)
    ∧ h1 !! l1 = Some s1
    ∧ question s1 = {| attempts := []; isAnswering := true |}
    ∧ flowKey s1 = KeyNum (JInt 0)
    ∧ resolveNextStateFromAction Sample.toNumber Sample.quiz Sample.hello l1
        (Some (Sample.ask "ask" Answered true)) h1 = (h2, Ok l2)
    ∧ h2 !! l2 = Some s2
    ∧ attempts (question s2) = ["hello"]
    ∧ flowKey s2 = KeyNum (JInt 0)
    ∧ flowKey s2 ≠ KeyNum (js_succ (Number Sample.toNumber (flowKey s1)))
    ∧ isComplete s2 = true.
Proof.
  do 6 eexists.
  split; [vm_compute; reflexivity|].
  split; [reflexivity|].
  split; [reflexivity|].
  split; [reflexivity|].
  split; [vm_compute; reflexivity|].
  split; [reflexivity|].
  split; [reflexivity|].
  split; [reflexivity|].
  split; [discriminate|reflexivity].
Qed.

(** C4 (as the code has it). When the receipts stored under the question's
    name can be spread (none, an array or a string), a failed Question has
    its context recorded, in the flow context under its name and at the
    end of the history: its own context with [messageSid] set to the
    stored receipts followed by its own.  Without [continueOnFail] the
    returned cookie is complete.  With [continueOnFail] its position is
    one more, unless that reaches the flow's length: then the position
    stays and the cookie is complete.  When the stored receipts cannot be
    spread, the call raises the error of the spread. *)
Theorem failed_question_completes_or_advances {UserCtx}
    (StringToNumber : string -> jsnum)
    (this : @FlowController UserCtx) (req : TwilioWebhookRequest)
    (f : @Flow UserCtx) (a : Action) (q : Question)
    (h : Heap) (st : nat) (s : SmsCookie) :
  h !! st = Some s ->
  getCurrentFlow this st h = (h, Ok f) ->
  constructor a = IsQuestion q ->
  evaluation q = Failed ->
  FlowActionNames_has f (action_name a) = true ->
  (∀ prev, spread (prevSids s (action_name a)) = Ok prev ->
     let ctx := <["messageSid" := VList (prev ++ default [] (sid q))]>
                  (ActionGetContext a) in
     returns (resolveNextStateFromAction StringToNumber this req st (Some a)) h
       (fun h' l =>
          ∃ s', h' !! l = Some s'
                ∧ flowContext s' !! action_name a = Some ctx
                ∧ interactionContext s' =
                    interactionContext s ++ [<["flowName" := VStr (flow_name f)]> ctx]
                ∧ (QuestionShouldContinueOnFail q = false -> isComplete s' = true)
                ∧ (QuestionShouldContinueOnFail q = true ->
                     let next := js_succ (Number StringToNumber (flowKey s)) in
                     (js_strict_eq next (flow_length f) = false ->
                        flowKey s' = KeyNum next ∧ isComplete s' = isComplete s)
                     ∧ (js_strict_eq next (flow_length f) = true ->
                          flowKey s' = flowKey s ∧ isComplete s' = true))))
  ∧ (∀ e, spread (prevSids s (action_name a)) = Throw e ->
       ∃ h', resolveNextStateFromAction StringToNumber this req st (Some a) h
             = (h', Throw e)).
Proof.
  intros H Hf Hq He Hn. split.
  - intros prev Hp ctx.
    pose proof (resolveNextStateFromAction_question
                  StringToNumber this req f a q ctx h st s H Hf Hq Hn
                  (getActionContext_asks s f a q prev Hq Hp)) as Hrun.
    rewrite He in Hrun.
    eapply returns_mono; [exact Hrun|]. cbv beta zeta. intros h' l Hl.
    eexists. split; [exact Hl|].
    destruct (claimed_keeps f (attempted req s)) as (Ex & Ek & Ei & Ec & _).
    destruct (attempted_keeps req s) as (Ex' & Ek' & Ei' & Ec' & _).
    assert (Efc : ∀ c,
               flowContext c
               = flowContext (recorded (claimed f (attempted req s)) f a ctx ctx) ->
               flowContext c !! action_name a = Some ctx).
    { intros c ->. cbn. apply lookup_insert_eq. }
    assert (Eic : ∀ c,
               interactionContext c
               = interactionContext
                   (recorded (claimed f (attempted req s)) f a ctx ctx) ->
               interactionContext c =
                 interactionContext s ++ [<["flowName" := VStr (flow_name f)]> ctx]).
    { intros c ->. cbn. now rewrite Ei, Ei'. }
    destruct (QuestionShouldContinueOnFail q).
    + unfold advanced.
      cbn [recorded set_interactionContext set_flowContext flowKey].
      rewrite Ek, Ek'.
      destruct (js_strict_eq _ _).
      * split; [now apply Efc|]. split; [now apply Eic|].
        split; [intros [=]|]. intros _. split; [intros [=]|].
        intros _. cbn. now rewrite Ek, Ek'.
      * split; [now apply Efc|]. split; [now apply Eic|].
        split; [intros [=]|]. intros _. split; [|intros [=]].
        intros _. cbn. now rewrite Ec, Ec'.
    + split; [now apply Efc|]. split; [now apply Eic|].
      split; [reflexivity|]. intros [=].
  - intros e Hp.
    exact (resolveNextStateFromAction_question_throws
             StringToNumber this req f a q e h st s H Hf Hq Hn
             (getActionContext_asks_throws s f a q e Hq Hp)).
Qed.

Lemma failed_question_completes_or_advances_witness :
  returns (resolveNextStateFromAction Sample.toNumber Sample.withSchema
             Sample.hello 0 (Some (Sample.ask "ask" Failed false)))
    [set_flowKey (KeyNum (JInt 1)) Sample.fresh]
    (fun h' l => ∃ s', h' !! l = Some s' ∧ isComplete s' = true)
  ∧ returns (resolveNextStateFromAction Sample.toNumber Sample.withSchema
               Sample.hello 0 (Some (Sample.ask "ask" Failed true)))
      [set_flowKey (KeyNum (JInt 1)) Sample.fresh]
      (fun h' l =>
         ∃ s', h' !! l = Some s'
               ∧ flowKey s' = KeyNum (JInt 2) ∧ isComplete s' = false)
  ∧ returns (resolveNextStateFromAction Sample.toNumber Sample.withSchema
               Sample.hello 0 (Some (Sample.ask "rate" Failed false)))
      [Demo.textReceipts]
      (fun h' l =>
         ∃ s', h' !! l = Some s'
               ∧ flowContext s' !! "rate"
                 = Some (<["messageSid" := VList ["S"; "M"; "0"; "SM1"] ]>
                           (ActionGetContext (Sample.ask "rate" Failed false))))
  ∧ ∃ h', resolveNextStateFromAction Sample.toNumber Sample.withSchema
            Sample.hello 0 (Some (Sample.ask "rate" Failed false))
            [Demo.badReceipts]
          = (h', Throw (TypeError "prevSids is not iterable")).
Proof.
  split; [|split; [|split]].
  - eapply returns_mono.
    + apply (proj1 (failed_question_completes_or_advances Sample.toNumber
                      Sample.withSchema Sample.hello Sample.rootFlow
                      (Sample.ask "ask" Failed false) _
                      [set_flowKey (KeyNum (JInt 1)) Sample.fresh] 0
                      (set_flowKey (KeyNum (JInt 1)) Sample.fresh)
                      eq_refl eq_refl eq_refl eq_refl eq_refl) [] eq_refl).
    + cbv beta. intros h' l (s' & Hl & _ & _ & Hstop & _).
      exists s'. split; [exact Hl|]. now apply Hstop.
  - eapply returns_mono.
    + apply (proj1 (failed_question_completes_or_advances Sample.toNumber
                      Sample.withSchema Sample.hello Sample.rootFlow
                      (Sample.ask "ask" Failed true) _
                      [set_flowKey (KeyNum (JInt 1)) Sample.fresh] 0
                      (set_flowKey (KeyNum (JInt 1)) Sample.fresh)
                      eq_refl eq_refl eq_refl eq_refl eq_refl) [] eq_refl).
    + cbv beta. intros h' l (s' & Hl & _ & _ & _ & Hgo).
      destruct (Hgo eq_refl) as (Hmid & _).
      destruct (Hmid eq_refl) as (Hk & Hc).
      exists s'. auto.
  - eapply returns_mono.
    + apply (proj1 (failed_question_completes_or_advances Sample.toNumber
                      Sample.withSchema Sample.hello Sample.surveyFlow
                      (Sample.ask "rate" Failed false) _
                      [Demo.textReceipts] 0 Demo.textReceipts
                      eq_refl eq_refl eq_refl eq_refl eq_refl)
               ["S"; "M"; "0"] eq_refl).
    + cbv beta. intros h' l (s' & Hl & Hfc & _).
      exists s'. split; [exact Hl | exact Hfc].
  - apply (proj2 (failed_question_completes_or_advances Sample.toNumber
                    Sample.withSchema Sample.hello Sample.surveyFlow
                    (Sample.ask "rate" Failed false) _
                    [Demo.badReceipts] 0 Demo.badReceipts
                    eq_refl eq_refl eq_refl eq_refl eq_refl)).
    reflexivity.
Defined.

(** C4 as stated does not hold at the end of a flow: on a root flow whose only
    step is the question, a failed Question with [continueOnFail] leaves
    the position at 0 (and completes the interaction). *)
Lemma failed_last_question_keeps_position :
  ∃ h' l s',
    QuestionShouldContinueOnFail
      {| evaluation := Failed; QuestionShouldContinueOnFail := true;
         sid := Some ["SM1"] |} = true
    ∧ constructor (Sample.ask "ask" Failed true)
      = IsQuestion {| evaluation := Failed; QuestionShouldContinueOnFail := true;
                      sid := Some ["SM1"] |}
    ∧ resolveNextStateFromAction Sample.toNumber Sample.quiz Sample.hello 0
        (Some (Sample.ask "ask" Failed true)) [Sample.fresh] = (h', Ok l)
    ∧ h' !! l = Some s'
    ∧ flowKey s' = flowKey Sample.fresh
    ∧ flowKey s' ≠ KeyNum (js_succ (Number Sample.toNumber (flowKey Sample.fresh)))
    ∧ isComplete s' = true.
Proof.
  do 3 eexists.
  split; [reflexivity|].
  split; [reflexivity|].
  split; [vm_compute; reflexivity|].
  split; [reflexivity|].
  split; [reflexivity|].
  split; [discriminate|reflexivity].
Qed.

(** ** Triggers *)

Section Triggers.

Context {UserCtx : Type}.
Variable this : @FlowController UserCtx.
Implicit Types (h : Heap) (f : @Flow UserCtx).

Lemma checkTrigger_passes h f m target :
  schema this = Some m ->
  target = flow_name (root this) ∨ is_Some (m !! target) ->
  checkTrigger this f target h = (h, Ok tt).
Proof.
  intros Hm Ht. unfold checkTrigger. rewrite Hm.
  rewrite (bool_decide_true (is_Some (Some m))) by (now eexists).
  cbn [negb]. rewrite andb_false_r.
  destruct (bool_decide (target = flow_name (root this))) eqn:Hr; [reflexivity|].
  destruct Ht as [-> | Ht].
  - now rewrite bool_decide_true in Hr.
  - now rewrite bool_decide_true.
Qed.

Lemma checkTrigger_unknown h f m target :
  schema this = Some m ->
  target ≠ flow_name (root this) ->
  m !! target = None ->
  checkTrigger this f target h =
    (h, Throw (Error "Trigger constructors expect a name of an existing Flow")).
Proof.
  intros Hm Hr Ht. unfold checkTrigger. rewrite Hm.
  rewrite (bool_decide_true (is_Some (Some m))) by (now eexists).
  cbn [negb]. rewrite andb_false_r.
  rewrite bool_decide_false by exact Hr.
  rewrite bool_decide_false; [reflexivity|].
  rewrite Ht. now intros [x [=]].
Qed.

(** Without a schema the only flow a cookie can be in is the root. *)
Lemma getCurrentFlow_no_schema h (st : nat) f :
  schema this = None ->
  getCurrentFlow this st h = (h, Ok f) ->
  f = root this.
Proof.
  intros Hm. unfold getCurrentFlow, bind, deref.
  destruct (h !! st) as [s|]; [|intros [=]].
  destruct (falsy (flow s) || bool_decide (flow s = Some (flow_name (root this))));
    [now intros [= <-]|].
  destruct (flow s) as [n|]; [|now intros [= <-]].
  rewrite Hm. intros [=].
Qed.

Lemma checkTrigger_no_schema h target :
  schema this = None ->
  checkTrigger this (root this) target h =
    (h, Throw (Error "Cannot use Trigger action without a defined Flow schema")).
Proof.
  intros Hm. unfold checkTrigger, same_flow. rewrite Hm.
  rewrite bool_decide_true by reflexivity.
  rewrite bool_decide_false; [reflexivity|].
  now intros [x [=]].
Qed.

End Triggers.

(** C1 (as the code has it). Without a schema every Trigger raises an
    error, also one whose target is the root's name, and the store is as it
    was.  With a schema, for a cookie whose current flow resolves: a target
    that is neither the root's name nor in the schema raises the
    unknown-flow error and the store is as it was; a target that is the
    root's name or in the schema, on an action whose name the current flow
    declares, succeeds.  The returned cookie is in the target flow at
    position 0 with an empty flow context, and its history is the old one
    followed by the trigger's context tagged with the flow it was recorded
    in. *)
Theorem trigger_switches_flow {UserCtx} (StringToNumber : string -> jsnum)
    (this : @FlowController UserCtx) (req : TwilioWebhookRequest)
    (a : Action) (target : string) (h : Heap) (st : nat) (s : SmsCookie) :
  h !! st = Some s ->
  constructor a = Trigger target ->
  (schema this = None ->
     ∃ e, resolveNextStateFromAction StringToNumber this req st (Some a) h
          = (h, Throw e))
  ∧ (∀ m f,
       schema this = Some m ->
       getCurrentFlow this st h = (h, Ok f) ->
       (target ≠ flow_name (root this) -> m !! target = None ->
          resolveNextStateFromAction StringToNumber this req st (Some a) h
          = (h, Throw (Error "Trigger constructors expect a name of an existing Flow")))
       ∧ (target = flow_name (root this) ∨ is_Some (m !! target) ->
          FlowActionNames_has f (action_name a) = true ->
          returns (resolveNextStateFromAction StringToNumber this req st (Some a)) h
            (fun h' l =>
               ∃ s', h' !! l = Some s'
                     ∧ flow s' = Some target
                     ∧ flowKey s' = KeyNum (JInt 0)
                     ∧ flowContext s' = ∅
                     ∧ interactionContext s' =
                         interactionContext s ++
                           [<["flowName" := VStr (flow_name f)]> (ActionGetContext a)]
                     ∧ isComplete s' = isComplete s
                     ∧ question s' = question s))).
Proof.
  intros H Ha. split.
  - intros Hm.
    destruct (getCurrentFlow this st h) as [h0 [f|e]] eqn:Hf.
    + pose proof (getCurrentFlow_reads _ _ _ _ _ Hf) as ->.
      pose proof (getCurrentFlow_no_schema _ _ _ _ Hm Hf) as ->.
      rewrite (resolveNextStateFromAction_with_flow _ _ _ _ _ _ _ Hf), Ha.
      unfold bind. rewrite (checkTrigger_no_schema _ _ _ Hm). eauto.
    + pose proof (getCurrentFlow_reads _ _ _ _ _ Hf) as ->.
      unfold resolveNextStateFromAction, bind. rewrite Hf. eauto.
  - intros m f Hm Hf. unfold returns.
    rewrite (resolveNextStateFromAction_with_flow _ _ _ _ _ _ _ Hf), Ha.
    split.
    + intros Hr Ht. unfold bind.
      now rewrite (checkTrigger_unknown _ _ _ _ _ Hm Hr Ht).
    + intros Ht Hn. unfold bind.
      rewrite (checkTrigger_passes _ _ _ _ _ Hm Ht).
      assert (Hc : getActionContext s f a = Ok (ActionGetContext a)).
      { apply getActionContext_plain. intros q Hq. rewrite Ha in Hq.
        discriminate Hq. }
      destruct (record_trigger_returns _ _ _ _ _ _ target H Hn Hc)
        as (h' & l & Hrun & Hl).
      exists h', l. split; [exact Hrun|].
      eexists. split; [exact Hl|].
      cbn.
      now destruct (claimed_keeps f s) as (_ & _ & -> & -> & ->).
Qed.

Lemma trigger_switches_flow_witness :
  (∃ e, resolveNextStateFromAction Sample.toNumber Sample.noSchema Sample.hello 0
          (Some (Sample.trigger "jump" "survey")) [Sample.fresh]
        = ([Sample.fresh], Throw e))
  ∧ resolveNextStateFromAction Sample.toNumber Sample.withSchema Sample.hello 0
      (Some (Sample.trigger "jump" "nowhere")) [Sample.fresh]
    = ([Sample.fresh],
       Throw (Error "Trigger constructors expect a name of an existing Flow"))
  ∧ returns (resolveNextStateFromAction Sample.toNumber Sample.withSchema
               Sample.hello 0 (Some (Sample.trigger "jump" "survey")))
      [set_flowKey (KeyNum (JInt 2)) Sample.fresh]
      (fun h' l =>
         ∃ s', h' !! l = Some s'
               ∧ flow s' = Some "survey"
               ∧ flowKey s' = KeyNum (JInt 0)
               ∧ flowContext s' = ∅
               ∧ interactionContext s' =
                   [<["flowName" := VStr "root"]>
                      (ActionGetContext (Sample.trigger "jump" "survey"))]
               ∧ isComplete s' = false
               ∧ question s' = {| attempts := []; isAnswering := false |}).
Proof.
  split; [|split].
  - apply (proj1 (trigger_switches_flow Sample.toNumber Sample.noSchema
                    Sample.hello (Sample.trigger "jump" "survey") "survey"
                    [Sample.fresh] 0 Sample.fresh eq_refl eq_refl)).
    reflexivity.
  - eapply (proj2 (trigger_switches_flow Sample.toNumber Sample.withSchema
                     Sample.hello (Sample.trigger "jump" "nowhere") "nowhere"
                     [Sample.fresh] 0 Sample.fresh eq_refl eq_refl)
              _ Sample.rootFlow eq_refl eq_refl);
      [discriminate | vm_compute; reflexivity].
  - eapply (proj2 (trigger_switches_flow Sample.toNumber Sample.withSchema
                     Sample.hello (Sample.trigger "jump" "survey") "survey"
                     [set_flowKey (KeyNum (JInt 2)) Sample.fresh] 0
                     (set_flowKey (KeyNum (JInt 2)) Sample.fresh)
                     eq_refl eq_refl)
              _ Sample.rootFlow eq_refl eq_refl);
      [|reflexivity].
    right. vm_compute. eexists. reflexivity.
Defined.

(** C1 as stated does not hold without a schema: a Trigger whose target is the
    root's name, issued from the root, is refused. *)
Lemma trigger_to_root_without_schema_throws :
  constructor (Sample.trigger "jump" "root") = Trigger (flow_name (root Sample.noSchema))
  ∧ schema Sample.noSchema = None
  ∧ resolveNextStateFromAction Sample.toNumber Sample.noSchema Sample.hello 0
      (Some (Sample.trigger "jump" "root")) [Sample.fresh]
    = ([Sample.fresh],
       Throw (Error "Cannot use Trigger action without a defined Flow schema")).
Proof.
  split; [reflexivity|]. split; [reflexivity|]. vm_compute. reflexivity.
Qed.

(** ** The interaction history *)

Lemma returns_inv {A} (c : M A) h h' a (Q : Heap -> A -> Prop) :
  returns c h Q -> c h = (h', Ok a) -> Q h' a.
Proof.
  intros (h1 & a1 & Hc & HQ) E. rewrite Hc in E. now injection E as <- <-.
Qed.

Lemma bind_inv {A B} (c : M A) (k : A -> M B) h h' b :
  bind c k h = (h', Ok b) ->
  ∃ h1 a, c h = (h1, Ok a) ∧ k a h1 = (h', Ok b).
Proof.
  unfold bind. destruct (c h) as [h1 [a|e]]; [|intros [=]].
  intros E. now exists h1, a.
Qed.

Lemma extends_history_ret : extends_history ret.
Proof.
  intros h st s h' l H [= <- <-]. now exists s.
Qed.

Lemma extends_history_seq (u v : nat -> M nat) :
  extends_history u -> extends_history v ->
  extends_history (fun c => bind (u c) v).
Proof.
  intros Hu Hv h st s h' l H E.
  apply bind_inv in E as (h1 & l1 & E1 & E2).
  destruct (Hu _ _ _ _ _ H E1) as (s1 & H1 & P1).
  destruct (Hv _ _ _ _ _ H1 E2) as (s2 & H2 & P2).
  exists s2. split; [exact H2|]. now transitivity (interactionContext s1).
Qed.

Lemma extends_history_pipe (funcs : list (nat -> M nat)) :
  Forall extends_history funcs ->
  extends_history (pipeSmsCookieUpdates funcs).
Proof.
  induction 1 as [|u rest Hu _ IH]; cbn [pipeSmsCookieUpdates].
  - apply extends_history_ret.
  - now apply (extends_history_seq u (pipeSmsCookieUpdates rest)).
Qed.

Section History.

Context {UserCtx : Type}.
Variable StringToNumber : string -> jsnum.
Variable this : @FlowController UserCtx.
Implicit Types (h : Heap) (f : @Flow UserCtx) (a : Action).

Lemma extends_history_addQuestionAttempt attempt :
  extends_history (fun c => addQuestionAttempt c attempt).
Proof.
  intros h st s h' l H E.
  eexists. split;
    [exact (returns_inv _ _ _ _ _ (addQuestionAttempt_returns _ _ _ attempt H) E)|].
  reflexivity.
Qed.

Lemma extends_history_completeInteraction :
  extends_history completeInteraction.
Proof.
  intros h st s h' l H E.
  eexists. split;
    [exact (returns_inv _ _ _ _ _ (completeInteraction_returns _ _ _ H) E)|].
  reflexivity.
Qed.

Lemma extends_history_handleTrigger target :
  extends_history (fun c => handleTrigger c target).
Proof.
  intros h st s h' l H E.
  eexists. split;
    [exact (returns_inv _ _ _ _ _ (handleTrigger_returns _ _ _ target H) E)|].
  reflexivity.
Qed.

Lemma extends_history_startQuestion : extends_history startQuestion.
Proof.
  intros h st s h' l H E.
  eexists. split;
    [exact (returns_inv _ _ _ _ _ (startQuestion_returns _ _ _ H) E)|].
  reflexivity.
Qed.

Lemma extends_history_incrementFlowAction f :
  extends_history (fun c => incrementFlowAction StringToNumber c f).
Proof.
  intros h st s h' l H E.
  eexists. split;
    [exact (returns_inv _ _ _ _ _
              (incrementFlowAction_returns StringToNumber _ _ _ f H) E)|].
  unfold advanced. now destruct (js_strict_eq _ _).
Qed.

(** [updateContext] appends one entry, when it returns at all. *)
Lemma extends_history_updateContext f a :
  extends_history (fun c => updateContext c f a).
Proof.
  intros h st s h' l H E.
  destruct (FlowActionNames_has f (action_name a)) eqn:Hn.
  - destruct (updateContext_inv _ _ _ _ _ _ _ H E) as (_ & ctx & Hc & -> & ->).
    eexists. split.
    { apply heap_lookup_new. now rewrite length_insert. }
    cbn. destruct (claimed_keeps f s) as (_ & _ & -> & _).
    now apply prefix_app_r.
  - rewrite (updateContext_refuses _ _ _ _ _ H Hn) in E. discriminate.
Qed.

Lemma checkTrigger_reads f target h h' r :
  checkTrigger this f target h = (h', r) -> h' = h.
Proof.
  unfold checkTrigger.
  destruct (same_flow f (root this) && negb (bool_decide (is_Some (schema this))));
    [now intros [= <- _]|].
  destruct (bool_decide (target = flow_name (root this))); [now intros [= <- _]|].
  destruct (schema this) as [m|]; [|now intros [= <- _]].
  destruct (bool_decide (is_Some (m !! target))); now intros [= <- _].
Qed.

Lemma extends_history_resolveNextStateFromAction req act :
  extends_history
    (fun c => resolveNextStateFromAction StringToNumber this req c act).
Proof.
  intros h st s h' l H E.
  unfold resolveNextStateFromAction in E.
  apply bind_inv in E as (h0 & f & Hf & E).
  pose proof (getCurrentFlow_reads _ _ _ _ _ Hf) as ->.
  assert (Hrec : ∀ a, extends_history (fun c => updateContext c f a))
    by (intros a; apply extends_history_updateContext).
  assert (Hadv : ∀ a, extends_history
            (pipeSmsCookieUpdates
               [ (fun c => updateContext c f a);
                 (fun c => incrementFlowAction StringToNumber c f) ])).
  { intros a. apply extends_history_pipe.
    repeat constructor; [apply Hrec | apply extends_history_incrementFlowAction]. }
  assert (Hend : ∀ a, extends_history
            (pipeSmsCookieUpdates
               [ (fun c => updateContext c f a); completeInteraction ])).
  { intros a. apply extends_history_pipe.
    repeat constructor; [apply Hrec | apply extends_history_completeInteraction]. }
  destruct act as [a|]; [|exact (extends_history_completeInteraction _ _ _ _ _ H E)].
  destruct (constructor a) as [| |q|target|].
  - exact (Hadv a _ _ _ _ _ H E).
  - exact (Hadv a _ _ _ _ _ H E).
  - apply bind_inv in E as (h0 & s0 & E0 & E).
    rewrite (deref_eq _ _ _ H) in E0. injection E0 as <- <-.
    apply bind_inv in E as (h1 & l1 & E1 & E).
    assert (∃ s1, h1 !! l1 = Some s1
                  ∧ interactionContext s `prefix_of` interactionContext s1)
      as (s1 & H1 & P1).
    { destruct (isAnswering (question s)).
      - exact (extends_history_addQuestionAttempt _ _ _ _ _ _ H E1).
      - exact (extends_history_ret _ _ _ _ _ H E1). }
    assert (∃ s', h' !! l = Some s'
                  ∧ interactionContext s1 `prefix_of` interactionContext s')
      as (s' & H' & P').
    { destruct (isAnswered q); [exact (Hadv a _ _ _ _ _ H1 E)|].
      destruct (isFailed q).
      - destruct (QuestionShouldContinueOnFail q);
          [exact (Hadv a _ _ _ _ _ H1 E) | exact (Hend a _ _ _ _ _ H1 E)].
      - apply bind_inv in E as (h2 & s2 & E2 & E).
        rewrite (deref_eq _ _ _ H1) in E2. injection E2 as <- <-.
        destruct (isAnswering (question s1)); [exact (Hrec a _ _ _ _ _ H1 E)|].
        refine (extends_history_pipe _ _ _ _ _ _ _ H1 E).
        repeat constructor; [apply extends_history_startQuestion | apply Hrec]. }
    exists s'. split; [exact H'|]. now transitivity (interactionContext s1).
  - apply bind_inv in E as (h0 & [] & E0 & E).
    pose proof (checkTrigger_reads _ _ _ _ _ E0) as ->.
    refine (extends_history_pipe _ _ _ _ _ _ _ H E).
    repeat constructor; [apply Hrec | apply extends_history_handleTrigger].
  - exact (Hend a _ _ _ _ _ H E).
Qed.

Lemma extends_history_resolveNextStates calls :
  extends_history (resolveNextStates StringToNumber this calls).
Proof.
  induction calls as [|[req act] rest IH]; cbn [resolveNextStates].
  - apply extends_history_ret.
  - exact (extends_history_seq _ _
             (extends_history_resolveNextStateFromAction req act) IH).
Qed.

End History.

(** C6. Over any sequence of calls of [resolveNextStateFromAction], each on
    the state the previous one returned, the interaction history of the
    resulting cookie extends the history of the first one: it is at least
    as long, and every entry of the first history is found at the same
    index, so nothing is removed or reordered. *)
Theorem history_only_grows {UserCtx} (StringToNumber : string -> jsnum)
    (this : @FlowController UserCtx)
    (calls : list (TwilioWebhookRequest * option Action))
    (h h' : Heap) (st l : nat) (s : SmsCookie) :
  h !! st = Some s ->
  resolveNextStates StringToNumber this calls st h = (h', Ok l) ->
  ∃ s', h' !! l = Some s'
        ∧ interactionContext s `prefix_of` interactionContext s'
        ∧ length (interactionContext s) <= length (interactionContext s')
        ∧ ∀ i x, interactionContext s !! i = Some x ->
                 interactionContext s' !! i = Some x.
Proof.
  intros H E.
  destruct (extends_history_resolveNextStates StringToNumber this calls
              _ _ _ _ _ H E) as (s' & H' & P).
  exists s'. split; [exact H'|]. split; [exact P|]. split.
  - now apply prefix_length.
  - intros i x Hi. exact (prefix_lookup_Some _ _ _ _ Hi P).
Qed.

(** After the greeting: a question that is asked and then answered, and
    the jump to the survey. *)
Lemma history_only_grows_witness :
  ∃ h' l s',
    resolveNextStates Sample.toNumber Sample.withSchema
      [ (Sample.hello, Some (Sample.ask "ask" Pending false));
        (Sample.hello, Some (Sample.ask "ask" Answered false));
        (Sample.hello, Some (Sample.trigger "jump" "survey")) ]
      0 [Sample.greeted] = (h', Ok l)
    ∧ h' !! l = Some s'
    ∧ interactionContext Sample.greeted `prefix_of` interactionContext s'
    ∧ length (interactionContext Sample.greeted) <= length (interactionContext s')
    ∧ ∀ i x, interactionContext Sample.greeted !! i = Some x ->
             interactionContext s' !! i = Some x.
Proof.
  assert (∃ h' l,
            resolveNextStates Sample.toNumber Sample.withSchema
              [ (Sample.hello, Some (Sample.ask "ask" Pending false));
                (Sample.hello, Some (Sample.ask "ask" Answered false));
                (Sample.hello, Some (Sample.trigger "jump" "survey")) ]
              0 [Sample.greeted] = (h', Ok l)) as (h' & l & E)
    by (eexists _, _; vm_compute; reflexivity).
  destruct (history_only_grows Sample.toNumber Sample.withSchema _
              [Sample.greeted] h' 0 l Sample.greeted eq_refl E) as (s' & H').
  exists h', l, s'. split; [exact E | exact H'].
Defined.

(** ** What a call does to the objects that exist *)

Section Frame.

Context {UserCtx : Type}.
Variable StringToNumber : string -> jsnum.
Variable this : @FlowController UserCtx.
Implicit Types (h : Heap) (s : SmsCookie) (f : @Flow UserCtx) (a : Action).

Lemma incrementFlowAction_keeps f (st : nat) h h' (r : Result nat) :
  incrementFlowAction StringToNumber st f h = (h', r) -> heap_keeps h h'.
Proof.
  destruct (h !! st) as [s|] eqn:H.
  - rewrite (incrementFlowAction_eq _ _ _ _ f H). cbv zeta.
    destruct (js_strict_eq _ _); intros [= <- _].
    + eapply heap_keeps_trans; apply heap_keeps_alloc.
    + apply heap_keeps_alloc.
  - unfold incrementFlowAction, bind, deref. rewrite H.
    intros [= <- _]. apply heap_keeps_refl.
Qed.

Lemma incrementFlowAction_no_throw f (st : nat) h s :
  h !! st = Some s -> ¬ throws (incrementFlowAction StringToNumber st f) h.
Proof.
  intros H. eapply returns_not_throws.
  exact (incrementFlowAction_returns StringToNumber _ _ _ f H).
Qed.

(** [updateContext] refuses and leaves the store as it is, or claims the
    cookie it was given and then either fails to take the snapshot or
    allocates the cookie it returns. *)
Lemma updateContext_outcome f a (st : nat) h s h' (r : Result nat) :
  h !! st = Some s ->
  updateContext st f a h = (h', r) ->
  ((∃ e, r = Throw e) ∧ h' = h)
  ∨ ((∃ e, r = Throw e ∧ getActionContext s f a = Throw e)
     ∧ h' = <[st := claimed f s]> h)
  ∨ (r = Ok (length h)
     ∧ ∃ ctx, h' = <[st := claimed f s]> h ++ [recorded (claimed f s) f a ctx ctx]).
Proof.
  intros H E. destruct (FlowActionNames_has f (action_name a)) eqn:Hn.
  - destruct (getActionContext s f a) as [ctx|e] eqn:Hc.
    + rewrite (updateContext_eq _ _ _ _ _ _ H Hn Hc) in E. injection E as <- <-.
      right. right. eauto.
    + rewrite (updateContext_fails _ _ _ _ _ _ H Hn Hc) in E. injection E as <- <-.
      right. left. eauto.
  - rewrite (updateContext_refuses _ _ _ _ _ H Hn) in E. injection E as <- <-.
    left. eauto.
Qed.

Lemma updateContext_keeps_but f a (st : nat) h h' (r : Result nat) :
  updateContext st f a h = (h', r) -> heap_keeps_but st h h'.
Proof.
  destruct (h !! st) as [s|] eqn:H.
  - intros E l x Hl Hx.
    destruct (updateContext_outcome _ _ _ _ _ _ _ H E)
      as [[_ ->] | [[_ ->] | [_ [ctx ->]]]].
    + exact Hx.
    + now rewrite list_lookup_insert_ne.
    + apply heap_lookup_old. now rewrite list_lookup_insert_ne.
  - unfold updateContext, bind, deref. rewrite H.
    intros [= <- _] l x _ Hx. exact Hx.
Qed.

(** Recording the context and then running a step that only allocates and
    cannot fail: a refusal leaves the store as it was; a snapshot that
    cannot be taken and a result both leave the cookie that was handed in
    claimed. *)
Lemma record_then_frame (g : nat -> M nat) f a (st : nat) h s h' (r : Result nat) :
  (∀ h0 l x, h0 !! l = Some x -> ¬ throws (g l) h0) ->
  (∀ h0 l h1 r1, g l h0 = (h1, r1) -> heap_keeps h0 h1) ->
  h !! st = Some s ->
  pipeSmsCookieUpdates [ (fun c => updateContext c f a); g ] st h = (h', r) ->
  heap_keeps_but st h h'
  ∧ (((∃ e, r = Throw e) ∧ h' = h)
     ∨ ((∃ e, r = Throw e ∧ getActionContext s f a = Throw e)
        ∧ h' !! st = Some (claimed f s))
     ∨ ((∃ l, r = Ok l) ∧ h' !! st = Some (claimed f s))).
Proof.
  intros Hg Hk H E. cbn [pipeSmsCookieUpdates] in E. unfold bind in E.
  destruct (updateContext st f a h) as [h1 r1] eqn:E1.
  pose proof (updateContext_keeps_but _ _ _ _ _ _ E1) as K1.
  assert (Hlt : st < length h) by (eapply lookup_lt_Some, H).
  destruct (updateContext_outcome _ _ _ _ _ _ _ H E1)
    as [[[e ->] ->] | [[(e & -> & Hc) ->] | [-> [ctx ->]]]].
  - injection E as <- <-. split; [exact K1|]. left. eauto.
  - injection E as <- <-. split; [exact K1|]. right. left.
    split; [eauto|]. now apply list_lookup_insert_eq.
  - destruct (g (length h)
                (<[st := claimed f s]> h ++ [recorded (claimed f s) f a ctx ctx]))
      as [h2 r2] eqn:E2.
    pose proof (Hk _ _ _ _ E2) as K2.
    destruct r2 as [l2|e2].
    + unfold ret in E. injection E as <- <-. split.
      * intros l x Hl Hx. now apply K2, K1.
      * right. right. split; [eauto|]. apply K2, heap_lookup_old.
        now apply list_lookup_insert_eq.
    + exfalso. eapply Hg; [|exists h2, e2; exact E2].
      apply heap_lookup_new. now rewrite length_insert.
Qed.

(** What a call may have done to the cookie it was handed: nothing, or
    the claim of [updateContext]; and nothing when it throws, as long as
    [S] holds (the snapshot could be taken). *)
Local Abbreviation input_kept S st s h' r :=
  ((∀ e, r = Throw e -> S -> h' !! st = Some s)
   ∧ (h' !! st = Some s ∨ ∃ f, h' !! st = Some (claimed f s))).

Lemma input_kept_exact (S : Prop) (st : nat) s h' (r : Result nat) :
  h' !! st = Some s -> input_kept S st s h' r.
Proof. intros H. split; [now intros|now left]. Qed.

Lemma input_kept_record_then (g : nat -> M nat) f a (st : nat) h s h'
    (r : Result nat) :
  (∀ h0 l x, h0 !! l = Some x -> ¬ throws (g l) h0) ->
  (∀ h0 l h1 r1, g l h0 = (h1, r1) -> heap_keeps h0 h1) ->
  h !! st = Some s ->
  pipeSmsCookieUpdates [ (fun c => updateContext c f a); g ] st h = (h', r) ->
  input_kept (∃ ctx, getActionContext s f a = Ok ctx) st s h' r.
Proof.
  intros Hg Hk H E.
  destruct (record_then_frame g f a st h s h' r Hg Hk H E)
    as [_ [[[e ->] ->] | [[(e & -> & Hc) Hst] | [[l ->] Hst]]]].
  - now apply input_kept_exact.
  - split; [|right; now exists f].
    intros e' _ [ctx Hctx]. rewrite Hctx in Hc. discriminate Hc.
  - split; [intros e [=]|]. right. now exists f.
Qed.

(** The same pipeline run on another cookie leaves this one alone. *)
Lemma input_kept_record_other (S : Prop) (g : nat -> M nat) f a (st l1 : nat)
    h1 s s1 h' (r : Result nat) :
  (∀ h0 l x, h0 !! l = Some x -> ¬ throws (g l) h0) ->
  (∀ h0 l h2 r2, g l h0 = (h2, r2) -> heap_keeps h0 h2) ->
  st ≠ l1 ->
  h1 !! st = Some s ->
  h1 !! l1 = Some s1 ->
  pipeSmsCookieUpdates [ (fun c => updateContext c f a); g ] l1 h1 = (h', r) ->
  input_kept S st s h' r.
Proof.
  intros Hg Hk Hne H H1 E.
  destruct (record_then_frame g f a l1 h1 s1 h' r Hg Hk H1 E) as [K _].
  apply input_kept_exact. now apply K.
Qed.

Lemma completeInteraction_no_throw (st : nat) h s :
  h !! st = Some s -> ¬ throws (completeInteraction st) h.
Proof. apply copy_returns. Qed.

Lemma handleTrigger_no_throw target (st : nat) h s :
  h !! st = Some s -> ¬ throws (handleTrigger st target) h.
Proof. apply copy_returns. Qed.

(** Whatever the action and the outcome, the cookie handed to
    [resolveNextStateFromAction] keeps all its fields but [flow], which the
    call may set when it was unset.  When the call throws, the cookie is as
    it was, except when the error is that of the snapshot of a Question:
    that one is raised after the assignment. *)
Lemma resolveNextStateFromAction_input req act (st : nat) h s h' (r : Result nat) :
  h !! st = Some s ->
  resolveNextStateFromAction StringToNumber this req st act h = (h', r) ->
  input_kept
    (∀ a q, act = Some a -> constructor a = IsQuestion q ->
            ∃ prev, spread (prevSids s (action_name a)) = Ok prev)
    st s h' r.
Proof.
  intros H E. unfold resolveNextStateFromAction in E. unfold bind at 1 in E.
  destruct (getCurrentFlow this st h) as [h0 [f|e]] eqn:Hf;
    pose proof (getCurrentFlow_reads _ _ _ _ _ Hf) as ->;
    [|injection E as <- <-; now apply input_kept_exact].
  destruct act as [a|];
    [|apply input_kept_exact; exact (copy_keeps _ _ _ _ _ E _ _ H)].
  set (S := ∀ a0 q, Some a = Some a0 -> constructor a0 = IsQuestion q ->
                    ∃ prev, spread (prevSids s (action_name a0)) = Ok prev).
  assert (HS : S -> ∃ ctx, getActionContext s f a = Ok ctx).
  { intros HS. destruct (constructor a) as [| |q| |] eqn:Hq;
      try (eexists; apply getActionContext_plain; intros q' Hq';
           rewrite Hq in Hq'; discriminate Hq').
    destruct (HS a q eq_refl Hq) as [prev Hp].
    eexists. exact (getActionContext_asks s f a q prev Hq Hp). }
  assert (Hweaken : input_kept (∃ ctx, getActionContext s f a = Ok ctx) st s h' r ->
                    input_kept S st s h' r).
  { intros [K1 K2]. split; [|exact K2]. intros e Hr Hs. exact (K1 e Hr (HS Hs)). }
  assert (Hadv : ∀ l h1 s1, h1 !! l = Some s1 ->
            pipeSmsCookieUpdates
              [ (fun c => updateContext c f a);
                (fun c => incrementFlowAction StringToNumber c f) ] l h1 = (h', r) ->
            (l = st -> s1 = s -> input_kept S st s h' r)
            ∧ (l ≠ st -> h1 !! st = Some s -> input_kept S st s h' r)).
  { intros l h1 s1 H1 E1. split.
    - intros -> ->. apply Hweaken.
      refine (input_kept_record_then _ f a _ _ _ _ _ _ _ H1 E1).
      + intros h0 l x. apply incrementFlowAction_no_throw.
      + intros h0 l h2 r2. apply incrementFlowAction_keeps.
    - intros Hne Hst.
      refine (input_kept_record_other S _ f a st l _ _ _ _ _ _ _ _ Hst H1 E1);
        [|  |congruence].
      + intros h0 l0 x. apply incrementFlowAction_no_throw.
      + intros h0 l0 h2 r2. apply incrementFlowAction_keeps. }
  assert (Hend : ∀ l h1 s1, h1 !! l = Some s1 ->
            pipeSmsCookieUpdates
              [ (fun c => updateContext c f a); completeInteraction ] l h1 = (h', r) ->
            (l = st -> s1 = s -> input_kept S st s h' r)
            ∧ (l ≠ st -> h1 !! st = Some s -> input_kept S st s h' r)).
  { intros l h1 s1 H1 E1. split.
    - intros -> ->. apply Hweaken.
      refine (input_kept_record_then _ f a _ _ _ _ _ _ _ H1 E1).
      + intros h0 l x. apply completeInteraction_no_throw.
      + intros h0 l h2 r2. apply copy_keeps.
    - intros Hne Hst.
      refine (input_kept_record_other S _ f a st l _ _ _ _ _ _ _ _ Hst H1 E1);
        [|  |congruence].
      + intros h0 l0 x. apply completeInteraction_no_throw.
      + intros h0 l0 h2 r2. apply copy_keeps. }
  destruct (constructor a) as [| |q|target|].
  - exact (proj1 (Hadv st h s H E) eq_refl eq_refl).
  - exact (proj1 (Hadv st h s H E) eq_refl eq_refl).
  - (* a Question *)
    unfold bind at 1 in E. rewrite (deref_eq _ _ _ H) in E.
    unfold bind at 1 in E.
    assert (Hlt : st < length h) by (eapply lookup_lt_Some, H).
    destruct (isAnswering (question s)) eqn:Ha.
    + (* the attempt is appended to a copy; the rest runs on the copy *)
      unfold addQuestionAttempt in E. rewrite (copy_eq _ _ _ _ H) in E.
      set (s1 := set_question _ s) in E.
      assert (H1 : (h ++ [s1]) !! length h = Some s1) by now apply heap_lookup_new.
      assert (Hst : (h ++ [s1]) !! st = Some s) by now apply heap_lookup_old.
      assert (Hne : length h ≠ st) by lia.
      destruct (isAnswered q); [exact (proj2 (Hadv _ _ _ H1 E) Hne Hst)|].
      destruct (isFailed q).
      * destruct (QuestionShouldContinueOnFail q);
          [ exact (proj2 (Hadv _ _ _ H1 E) Hne Hst)
          | exact (proj2 (Hend _ _ _ H1 E) Hne Hst) ].
      * unfold bind at 1 in E. rewrite (deref_eq _ _ _ H1) in E.
        subst s1. cbn [question set_question isAnswering] in E.
        rewrite Ha in E. apply input_kept_exact.
        apply (updateContext_keeps_but _ _ _ _ _ _ E);
          [lia | now apply heap_lookup_old].
    + unfold ret in E at 1.
      destruct (isAnswered q);
        [exact (proj1 (Hadv _ _ _ H E) eq_refl eq_refl)|].
      destruct (isFailed q).
      * destruct (QuestionShouldContinueOnFail q);
          [ exact (proj1 (Hadv _ _ _ H E) eq_refl eq_refl)
          | exact (proj1 (Hend _ _ _ H E) eq_refl eq_refl) ].
      * (* the question starts on a copy, which is then recorded *)
        unfold bind at 1 in E. rewrite (deref_eq _ _ _ H), Ha in E.
        cbn [pipeSmsCookieUpdates] in E. unfold bind at 1 in E.
        unfold startQuestion in E. rewrite (copy_eq _ _ _ _ H) in E.
        set (s1 := set_question _ s) in E.
        unfold bind in E.
        destruct (updateContext (length h) f a (h ++ [s1])) as [h2 r2] eqn:E2.
        pose proof (updateContext_keeps_but _ _ _ _ _ _ E2 st s) as K.
        assert (Hst : h2 !! st = Some s)
          by (apply K; [lia | now apply heap_lookup_old]).
        apply input_kept_exact.
        destruct r2; injection E as <- _; exact Hst.
  - (* a Trigger *)
    unfold bind at 1 in E.
    destruct (checkTrigger this f target h) as [h0 [[]|e]] eqn:Ec;
      pose proof (checkTrigger_reads _ _ _ _ _ _ Ec) as ->;
      [|injection E as <- <-; now apply input_kept_exact].
    apply Hweaken.
    refine (input_kept_record_then _ f a _ _ _ _ _ _ _ H E).
    + intros h0 l x. apply handleTrigger_no_throw.
    + intros h0 l h2 r2. apply copy_keeps.
  - exact (proj1 (Hend st h s H E) eq_refl eq_refl).
Qed.

End Frame.

(** ** The cookie handed in *)

(** C2, at the input where the code departs from it.  A new conversation's
    cookie has no flow name; after a Reply of the root flow is resolved the
    very object that was handed in (location 0) names the root flow: the
    call has written to its input.  The returned cookie is another
    object. *)
Theorem resolveNextStateFromAction_writes_its_input :
  ∃ h' l,
    resolveNextStateFromAction Sample.toNumber Sample.noSchema Sample.hello 0
      (Some (Sample.reply "greet")) [Sample.fresh] = (h', Ok l)
    ∧ l ≠ 0
    ∧ flow Sample.fresh = None
    ∧ h' !! 0 = Some (set_flow (Some "root") Sample.fresh)
    ∧ h' !! 0 ≠ Some Sample.fresh.
Proof.
  eexists _, _.
  split; [vm_compute; reflexivity|].
  split; [discriminate|].
  split; [reflexivity|].
  split; [reflexivity|].
  cbn. intros [=].
Qed.

(** * Further properties of the code *)

(** ** The default exit test *)

Lemma same_letter_word c :
  same_letter c "e" || same_letter c "x" || same_letter c "i" || same_letter c "t"
  = true ->
  is_word c = true.
Proof.
  destruct c as [[] [] [] [] [] [] [] []]; vm_compute; congruence.
Qed.

Lemma same_letter_upper c p :
  same_letter c p = true <-> Canonicalize c = Canonicalize p.
Proof. unfold same_letter. apply Ascii.eqb_eq. Qed.

(** The pattern at one position: four letters that fold to EXIT, no word
    character before them and none after. *)
Lemma match_here_spec before s :
  match_here before s = true <->
  ∃ w post, s = (w ++ post)%string ∧ upper w = "EXIT"
            ∧ word_at before = false ∧ word_at (first_char post) = false.
Proof.
  split.
  - unfold match_here. intros H. apply andb_true_iff in H as [Hb H].
    destruct s as [|c1 [|c2 [|c3 [|c4 rest]]]]; try discriminate.
    apply andb_true_iff in H as [H Ha].
    apply andb_true_iff in H as [H L4].
    apply andb_true_iff in H as [H L3].
    apply andb_true_iff in H as [L1 L2].
    exists (String c1 (String c2 (String c3 (String c4 EmptyString)))), rest.
    split; [reflexivity|].
    assert (W1 : is_word c1 = true) by (apply same_letter_word; now rewrite L1).
    assert (W4 : is_word c4 = true)
      by (apply same_letter_word; rewrite L4; now rewrite !orb_true_r).
    apply same_letter_upper in L1, L2, L3, L4.
    split; [cbn [upper]; rewrite L1, L2, L3, L4; reflexivity|].
    unfold word_boundary in *. cbn [first_char word_at] in *.
    rewrite W1 in Hb. rewrite W4 in Ha.
    split; [now destruct (word_at before) | now destruct (word_at (first_char rest))].
  - intros (w & post & -> & Hw & Hb & Ha).
    destruct w as [|c1 [|c2 [|c3 [|c4 [|? ?]]]]]; try discriminate.
    injection Hw as E1 E2 E3 E4.
    assert (L1 : same_letter c1 "e" = true) by now apply same_letter_upper.
    assert (L2 : same_letter c2 "x" = true) by now apply same_letter_upper.
    assert (L3 : same_letter c3 "i" = true) by now apply same_letter_upper.
    assert (L4 : same_letter c4 "t" = true) by now apply same_letter_upper.
    assert (W1 : is_word c1 = true) by (apply same_letter_word; now rewrite L1).
    assert (W4 : is_word c4 = true)
      by (apply same_letter_word; rewrite L4; now rewrite !orb_true_r).
    change (String c1 (String c2 (String c3 (String c4 EmptyString))) ++ post)%string
      with (String c1 (String c2 (String c3 (String c4 post)))).
    unfold match_here, word_boundary. cbn [first_char word_at].
    now rewrite Hb, Ha, W1, W4, L1, L2, L3, L4.
Qed.

Lemma search_spec s : ∀ before,
  search before s = true <->
  ∃ pre w post, s = (pre ++ w ++ post)%string ∧ upper w = "EXIT"
                ∧ word_at (last_char before pre) = false
                ∧ word_at (first_char post) = false.
Proof.
  induction s as [|c s IH]; intros before.
  - split.
    + intros H. cbn [search] in H. rewrite orb_false_r in H.
      apply match_here_spec in H as (w & post & E & Hw & _).
      destruct w; discriminate.
    + intros (pre & w & post & E & Hw & _).
      destruct pre; [|discriminate]. destruct w; discriminate.
  - cbn [search]. rewrite orb_true_iff, match_here_spec, IH. split.
    + intros [(w & post & E & Hw & Hb & Ha) | (pre & w & post & E & Hw & Hb & Ha)].
      * exists EmptyString, w, post. auto.
      * exists (String c pre), w, post. cbn. rewrite E. auto.
    + intros (pre & w & post & E & Hw & Hb & Ha).
      destruct pre as [|c' pre].
      * left. exists w, post. auto.
      * right. cbn in E. injection E as <- E. exists pre, w, post. auto.
Qed.

(** X1. The default exit test accepts a body exactly when it contains the
    word exit, in any mix of upper and lower case, with no letter, digit or
    underscore right before it and none right after it. *)
Theorem EXIT_REGEXP_test_spec (body : string) :
  EXIT_REGEXP_test body = true <->
  ∃ pre w post, body = (pre ++ w ++ post)%string ∧ upper w = "EXIT"
                ∧ word_at (last_char None pre) = false
                ∧ word_at (first_char post) = false.
Proof. apply search_spec. Qed.

Lemma EXIT_REGEXP_test_spec_witness :
  EXIT_REGEXP_test "Please Exit, now" = true
  ∧ ∃ pre w post, "my exit" = (pre ++ w ++ post)%string ∧ upper w = "EXIT"
                  ∧ word_at (last_char None pre) = false
                  ∧ word_at (first_char post) = false.
Proof.
  split.
  - apply (proj2 (EXIT_REGEXP_test_spec "Please Exit, now")).
    exists "Please ", "Exit", ", now". repeat split.
  - apply (proj1 (EXIT_REGEXP_test_spec "my exit")). reflexivity.
Defined.

(** ** Building a controller *)

(** What a successful construction tells about the arguments and leaves in
    the controller. *)
Lemma new_FlowController_inv {UserCtx FlowSchema Hook : Type}
    (evaluateSchema :
       @Flow UserCtx -> FlowSchema -> Result (gmap string (@Flow UserCtx)))
    (defaultHook : Hook) (rootArg : RootArg) (schemaArg : SchemaArg)
    (options : FlowControllerOptions) (c : Constructed) :
  new_FlowController evaluateSchema defaultHook rootArg schemaArg options = Ok c ->
  ∃ r,
    rootArg = RootIsFlow r
    ∧ flow_actions r ≠ []
    ∧ root (controller c) = r
    ∧ ((opt_testForExit options = TestUndefined
        ∧ testForExit (controller c) = Some defaultTestForExit)
       ∨ ∃ t, opt_testForExit options = TestFunction t
              ∧ testForExit (controller c) = Some t)
    ∧ ((opt_onInteractionEnd options = HookUndefined
        ∧ onInteractionEnd c = Some defaultHook)
       ∨ opt_onInteractionEnd options = HookValue (onInteractionEnd c))
    ∧ ((schemaArg = SchemaFalsy ∧ schema (controller c) = None)
       ∨ ∃ sc m, schemaArg = SchemaIs sc
                 ∧ evaluateSchema r sc = Ok m
                 ∧ size m ≠ 1
                 ∧ schema (controller c) = Some m).
Proof.
  unfold new_FlowController.
  destruct rootArg as [r|]; [|intros [=]].
  unfold flow_length. cbn [js_strict_eq].
  destruct (flow_actions r) as [|step steps] eqn:Hsteps; [intros [=]|].
  rewrite bool_decide_false by (cbn [length]; lia).
  intros H. exists r. split; [reflexivity|].
  rewrite Hsteps. split; [discriminate|].
  destruct options as [hookArg testArg]. cbn [opt_testForExit opt_onInteractionEnd] in *.
  destruct schemaArg as [|sc|]; [| |discriminate H].
  - destruct testArg as [|t|]; [| |discriminate H];
      injection H as <-; cbn;
      (split; [reflexivity|]); (split; [eauto|]);
      (split; [destruct hookArg; auto|]); now left.
  - destruct testArg as [|t|]; [| |discriminate H];
      (destruct (evaluateSchema r sc) as [m|e] eqn:Hev; [|discriminate H]);
      (destruct (bool_decide (size m = 1)) eqn:Hsize; [discriminate H|]);
      apply bool_decide_eq_false in Hsize;
      injection H as <-; cbn;
      (split; [reflexivity|]); (split; [eauto|]);
      (split; [destruct hookArg; auto|]); right; exists sc, m; auto.
Qed.

Lemma new_FlowController_intro {UserCtx FlowSchema Hook : Type}
    (evaluateSchema :
       @Flow UserCtx -> FlowSchema -> Result (gmap string (@Flow UserCtx)))
    (defaultHook : Hook) (rootArg : RootArg) (schemaArg : SchemaArg)
    (options : FlowControllerOptions) (c : Constructed) :
  (∃ r,
    rootArg = RootIsFlow r
    ∧ flow_actions r ≠ []
    ∧ root (controller c) = r
    ∧ ((opt_testForExit options = TestUndefined
        ∧ testForExit (controller c) = Some defaultTestForExit)
       ∨ ∃ t, opt_testForExit options = TestFunction t
              ∧ testForExit (controller c) = Some t)
    ∧ ((opt_onInteractionEnd options = HookUndefined
        ∧ onInteractionEnd c = Some defaultHook)
       ∨ opt_onInteractionEnd options = HookValue (onInteractionEnd c))
    ∧ ((schemaArg = SchemaFalsy ∧ schema (controller c) = None)
       ∨ ∃ sc m, schemaArg = SchemaIs sc
                 ∧ evaluateSchema r sc = Ok m
                 ∧ size m ≠ 1
                 ∧ schema (controller c) = Some m)) ->
  new_FlowController evaluateSchema defaultHook rootArg schemaArg options = Ok c.
Proof.
  unfold new_FlowController.
  intros (r & -> & Hsteps & Hroot & Htest & Hhook & Hschema).
  unfold flow_length. cbn [js_strict_eq].
  rewrite bool_decide_false
    by (destruct (flow_actions r); [congruence | cbn [length]; lia]).
  destruct c as [[r' sch t'] hk]. cbn in Hroot, Htest, Hhook, Hschema. subst r'.
  assert (Ehook :
    match opt_onInteractionEnd options with
    | HookUndefined => Some defaultHook
    | HookValue v => v
    end = hk).
  { destruct Hhook as [[-> ->] | ->]; reflexivity. }
  destruct Hschema as [[-> ->] | (sc & m & -> & Hev & Hsize & ->)].
  - destruct Htest as [[-> ->] | (t & -> & ->)]; now rewrite Ehook.
  - destruct Htest as [[-> ->] | (t & -> & ->)];
      rewrite Hev, bool_decide_false by exact Hsize; now rewrite Ehook.
Qed.

(** X2. The constructor succeeds exactly when the root is a Flow with at
    least one action, the exit test is a function or left undefined, and
    the schema is either falsy or a FlowSchema whose evaluation succeeds
    with a number of flows other than one.  The controller then holds that
    root, an exit test (the default one when none was given), the
    evaluated schema if any, and the hook (the default one when it was
    left undefined). *)
Theorem new_FlowController_spec {UserCtx FlowSchema Hook : Type}
    (evaluateSchema :
       @Flow UserCtx -> FlowSchema -> Result (gmap string (@Flow UserCtx)))
    (defaultHook : Hook) (rootArg : RootArg) (schemaArg : SchemaArg)
    (options : FlowControllerOptions) (c : Constructed) :
  new_FlowController evaluateSchema defaultHook rootArg schemaArg options = Ok c
  <->
  ∃ r,
    rootArg = RootIsFlow r
    ∧ flow_actions r ≠ []
    ∧ root (controller c) = r
    ∧ ((opt_testForExit options = TestUndefined
        ∧ testForExit (controller c) = Some defaultTestForExit)
       ∨ ∃ t, opt_testForExit options = TestFunction t
              ∧ testForExit (controller c) = Some t)
    ∧ ((opt_onInteractionEnd options = HookUndefined
        ∧ onInteractionEnd c = Some defaultHook)
       ∨ opt_onInteractionEnd options = HookValue (onInteractionEnd c))
    ∧ ((schemaArg = SchemaFalsy ∧ schema (controller c) = None)
       ∨ ∃ sc m, schemaArg = SchemaIs sc
                 ∧ evaluateSchema r sc = Ok m
                 ∧ size m ≠ 1
                 ∧ schema (controller c) = Some m).
Proof.
  split; [apply new_FlowController_inv | apply new_FlowController_intro].
Qed.

Lemma new_FlowController_spec_witness :
  new_FlowController Demo.evaluate Demo.silent
    (RootIsFlow Sample.rootFlow) (SchemaIs [Sample.surveyFlow]) Demo.noOptions
  = Ok {| controller :=
            {| root := Sample.rootFlow;
               schema := Some (list_to_map
                                 [ ("root", Sample.rootFlow);
                                   ("survey", Sample.surveyFlow) ]);
               testForExit := Some defaultTestForExit |};
          onInteractionEnd := Some Demo.silent |}.
Proof.
  apply (proj2 (new_FlowController_spec Demo.evaluate Demo.silent _ _ _ _)).
  exists Sample.rootFlow.
  split; [reflexivity|]. split; [discriminate|]. split; [reflexivity|].
  split; [left; split; reflexivity|].
  split; [left; split; reflexivity|].
  right. exists [Sample.surveyFlow], (list_to_map
                                 [ ("root", Sample.rootFlow);
                                   ("survey", Sample.surveyFlow) ]).
  split; [reflexivity|]. split; [reflexivity|].
  split; [vm_compute; discriminate | reflexivity].
Defined.

(** ** Resolving the action, past the exit test *)

Section Resolving.

Context {UserCtx : Type}.
Variable StringToNumber : string -> jsnum.
Variable Exit_init : string -> string * ActionContext.
Variable QuestionEvaluate :
  Question -> TwilioWebhookRequest -> SmsCookie -> Result Question.
Variable this : @FlowController UserCtx.
Implicit Types (h : Heap) (s : SmsCookie) (f : @Flow UserCtx) (a : Action).

Local Abbreviation resolveAction :=
  (resolveActionFromState StringToNumber Exit_init QuestionEvaluate this).

(** The method, for a cookie that is not complete and a body the exit test
    declines. *)
Lemma resolveActionFromState_past_exit req (userCtx : UserCtx) h (st : nat) s :
  h !! st = Some s ->
  isComplete s = false ->
  declines_exit this req ->
  resolveAction req st userCtx h =
    match getCurrentFlow this st h with
    | (h0, Throw e) => (h0, Throw e)
    | (h0, Ok f) =>
        match flow_step f (Number StringToNumber (flowKey s)) with
        | None => (h0, Ok None)
        | Some (n, resolve) =>
            match resolve (flowContext s) userCtx with
            | Throw e => (h0, Throw e)
            | Ok None => (h0, Ok None)
            | Ok (Some a) =>
                match constructor a with
                | IsQuestion q =>
                    match QuestionEvaluate q req s with
                    | Throw e => (h0, Throw e)
                    | Ok q' => (h0, Ok (Some (ActionSetName (with_question a q') n)))
                    end
                | _ => (h0, Ok (Some (ActionSetName a n)))
                end
            end
        end
    end.
Proof.
  intros H Hc Hexit. unfold resolveActionFromState.
  unfold bind at 1. rewrite (deref_eq _ _ _ H), Hc.
  assert (Hpast : ∀ (k : bool -> M (option Action)),
            bind (match testForExit this with
                  | Some test => lift (test (Body req))
                  | None => ret false
                  end) k h = k false h).
  { intros k. unfold bind. destruct Hexit as [-> | (test & -> & Ht)].
    - reflexivity.
    - unfold lift. now rewrite Ht. }
  rewrite Hpast. unfold bind at 1.
  destruct (getCurrentFlow this st h) as [h0 [f|e]] eqn:Hf; [|reflexivity].
  pose proof (getCurrentFlow_reads _ _ _ _ _ Hf) as ->.
  unfold FlowSelectActionResolver, FlowSelectActionName, deepCopy.
  destruct (flow_step f (Number StringToNumber (flowKey s))) as [[n resolve]|];
    [|reflexivity].
  cbn [fmap option_fmap option_map snd fst]. unfold bind at 1, lift at 1.
  destruct (resolve (flowContext s) userCtx) as [[a|]|e]; [|reflexivity|reflexivity].
  destruct (constructor a) as [| |q|target|]; try reflexivity.
  unfold bind at 1. unfold bind at 1. rewrite (deref_eq _ _ _ H).
  unfold bind, lift. now destruct (QuestionEvaluate q req s).
Qed.

(** A step of a flow carries a name the flow declares. *)
Lemma flow_step_declared f key n (resolve : @Resolver UserCtx) :
  flow_step f key = Some (n, resolve) ->
  FlowActionNames_has f n = true ∧ FlowSelectActionName f key = Some n.
Proof.
  intros Hstep. split.
  - unfold FlowActionNames_has. apply bool_decide_eq_true.
    unfold flow_step in Hstep. destruct key as [z|]; [|discriminate].
    destruct (bool_decide (0 <= z)%Z); [|discriminate].
    apply list_elem_of_fmap. exists (n, resolve). split; [reflexivity|].
    eapply list_elem_of_lookup_2, Hstep.
  - unfold FlowSelectActionName. now rewrite Hstep.
Qed.

End Resolving.

(** X3. [resolveActionFromState] never writes to the store: whatever it
    returns or throws, the store is the one it was given. *)
Theorem resolveActionFromState_reads {UserCtx}
    (StringToNumber : string -> jsnum)
    (Exit_init : string -> string * ActionContext)
    (QuestionEvaluate :
       Question -> TwilioWebhookRequest -> SmsCookie -> Result Question)
    (this : @FlowController UserCtx) (req : TwilioWebhookRequest)
    (userCtx : UserCtx) (h h' : Heap) (st : nat) (r : Result (option Action)) :
  resolveActionFromState StringToNumber Exit_init QuestionEvaluate
    this req st userCtx h = (h', r) ->
  h' = h.
Proof.
  destruct (h !! st) as [s|] eqn:H.
  2:{ unfold resolveActionFromState, bind, deref. rewrite H. now intros [= <- _]. }
  destruct (isComplete s) eqn:Hc.
  { unfold resolveActionFromState, bind. rewrite (deref_eq _ _ _ H), Hc.
    now intros [= <- _]. }
  assert (Hpast : declines_exit this req ->
            resolveActionFromState StringToNumber Exit_init QuestionEvaluate
              this req st userCtx h = (h', r) -> h' = h).
  { intros Hexit.
    rewrite (resolveActionFromState_past_exit _ _ _ _ _ _ _ _ _ H Hc Hexit).
    destruct (getCurrentFlow this st h) as [h0 [f|e]] eqn:Hf;
      pose proof (getCurrentFlow_reads _ _ _ _ _ Hf) as ->;
      [|now intros [= <- _]].
    destruct (flow_step f _) as [[n resolve]|]; [|now intros [= <- _]].
    destruct (resolve _ _) as [[a|]|e]; [|now intros [= <- _]|now intros [= <- _]].
    destruct (constructor a) as [| |q|target|]; try now intros [= <- _].
    destruct (QuestionEvaluate q req s); now intros [= <- _]. }
  destruct (testForExit this) as [test|] eqn:Ht; [|apply Hpast; now left].
  destruct (test (Body req)) as [[]|e] eqn:Hb.
  - unfold resolveActionFromState, bind.
    rewrite (deref_eq _ _ _ H), Hc, Ht. unfold lift. rewrite Hb.
    now intros [= <- _].
  - apply Hpast. right. eauto.
  - unfold resolveActionFromState, bind.
    rewrite (deref_eq _ _ _ H), Hc, Ht. unfold lift. rewrite Hb.
    now intros [= <- _].
Qed.

Lemma resolveActionFromState_reads_witness :
  ∃ r, resolveActionFromState Sample.toNumber Sample.exitInit Sample.evaluate
         Sample.withSchema Sample.hello 0 tt [Sample.inSurvey]
       = ([Sample.inSurvey], r).
Proof.
  destruct (resolveActionFromState Sample.toNumber Sample.exitInit
              Sample.evaluate Sample.withSchema Sample.hello 0 tt
              [Sample.inSurvey]) as [h' r] eqn:E.
  exists r.
  now rewrite (resolveActionFromState_reads _ _ _ _ _ _ _ _ _ _ E).
Defined.

(** X4. Past the exit test, [resolveActionFromState] returns no action when
    the position is not an index of the current flow (NaN, negative, or at
    or beyond the flow's length), and also when the step's resolver
    produces something that is not an Action. *)
Theorem resolveActionFromState_no_action {UserCtx}
    (StringToNumber : string -> jsnum)
    (Exit_init : string -> string * ActionContext)
    (QuestionEvaluate :
       Question -> TwilioWebhookRequest -> SmsCookie -> Result Question)
    (this : @FlowController UserCtx) (req : TwilioWebhookRequest)
    (userCtx : UserCtx) (f : @Flow UserCtx)
    (h : Heap) (st : nat) (s : SmsCookie) :
  h !! st = Some s ->
  isComplete s = false ->
  declines_exit this req ->
  getCurrentFlow this st h = (h, Ok f) ->
  (Number StringToNumber (flowKey s) = JNaN
   ∨ (∃ z, Number StringToNumber (flowKey s) = JInt z
           ∧ (z < 0 ∨ Z.of_nat (length (flow_actions f)) <= z)%Z)
   ∨ (∃ n resolve, flow_step f (Number StringToNumber (flowKey s))
                   = Some (n, resolve)
                   ∧ resolve (flowContext s) userCtx = Ok None)) ->
  resolveActionFromState StringToNumber Exit_init QuestionEvaluate
    this req st userCtx h = (h, Ok None).
Proof.
  intros H Hc Hexit Hf Hpos.
  rewrite (resolveActionFromState_past_exit _ _ _ _ _ _ _ _ _ H Hc Hexit), Hf.
  destruct Hpos as [-> | [(z & -> & Hz) | (n & resolve & -> & ->)]];
    [reflexivity| |reflexivity].
  unfold flow_step. destruct (bool_decide (0 <= z)%Z) eqn:H0; [|reflexivity].
  apply bool_decide_eq_true in H0.
  rewrite lookup_ge_None_2 by lia. reflexivity.
Qed.

Lemma resolveActionFromState_no_action_witness :
  resolveActionFromState Sample.toNumber Sample.exitInit Sample.evaluate
    Sample.withSchema Sample.hello 0 tt
    [set_flowKey (KeyStr "7") Sample.inSurvey]
  = ([set_flowKey (KeyStr "7") Sample.inSurvey], Ok None).
Proof.
  apply (resolveActionFromState_no_action Sample.toNumber Sample.exitInit
           Sample.evaluate Sample.withSchema Sample.hello tt Sample.surveyFlow
           [set_flowKey (KeyStr "7") Sample.inSurvey] 0
           (set_flowKey (KeyStr "7") Sample.inSurvey));
    [reflexivity | reflexivity | | reflexivity | ].
  - right. exists Sample.exitTest. split; reflexivity.
  - right. left. exists 7%Z. split; [reflexivity|]. right. cbn. lia.
Defined.

(** X5. The action [resolveActionFromState] resolves from the flow carries
    the name of the step at the cookie's position, and the current flow
    declares that name. *)
Theorem resolveActionFromState_names_the_step {UserCtx}
    (StringToNumber : string -> jsnum)
    (Exit_init : string -> string * ActionContext)
    (QuestionEvaluate :
       Question -> TwilioWebhookRequest -> SmsCookie -> Result Question)
    (this : @FlowController UserCtx) (req : TwilioWebhookRequest)
    (userCtx : UserCtx) (f : @Flow UserCtx) (a : Action)
    (h h' : Heap) (st : nat) (s : SmsCookie) :
  h !! st = Some s ->
  declines_exit this req ->
  getCurrentFlow this st h = (h, Ok f) ->
  resolveActionFromState StringToNumber Exit_init QuestionEvaluate
    this req st userCtx h = (h', Ok (Some a)) ->
  FlowSelectActionName f (Number StringToNumber (flowKey s)) = Some (action_name a)
  ∧ FlowActionNames_has f (action_name a) = true.
Proof.
  intros H Hexit Hf E.
  destruct (isComplete s) eqn:Hc.
  { unfold resolveActionFromState, bind in E.
    rewrite (deref_eq _ _ _ H), Hc in E. discriminate E. }
  rewrite (resolveActionFromState_past_exit _ _ _ _ _ _ _ _ _ H Hc Hexit), Hf in E.
  destruct (flow_step f _) as [[n resolve]|] eqn:Hstep; [|discriminate E].
  destruct (flow_step_declared _ _ _ _ Hstep) as [Hdecl Hname].
  assert (Ename : action_name a = n).
  { destruct (resolve _ _) as [[a0|]|e]; [|discriminate E|discriminate E].
    destruct (constructor a0) as [| |q|target|];
      try (injection E as _ <-; reflexivity).
    destruct (QuestionEvaluate q req s); [|discriminate E].
    injection E as _ <-. reflexivity. }
  rewrite Ename. now split.
Qed.

Lemma resolveActionFromState_names_the_step_witness :
  FlowSelectActionName Sample.surveyFlow
    (Number Sample.toNumber (flowKey Sample.inSurvey))
  = Some (action_name (ActionSetName (Sample.ask "rate" Pending true) "rate"))
  ∧ FlowActionNames_has Sample.surveyFlow
      (action_name (ActionSetName (Sample.ask "rate" Pending true) "rate")) = true.
Proof.
  apply (resolveActionFromState_names_the_step Sample.toNumber Sample.exitInit
           Sample.evaluate Sample.withSchema Sample.hello tt Sample.surveyFlow
           _ [Sample.inSurvey] [Sample.inSurvey] 0 Sample.inSurvey);
    [reflexivity | | reflexivity | reflexivity].
  right. exists Sample.exitTest. split; reflexivity.
Defined.

(** X6. Errors met while resolving are raised unchanged and nothing is
    written: a rejecting exit test; past the exit test, an invalid flow
    name in the cookie; then a rejecting resolver; then, for a Question, a
    rejecting evaluation. *)
Theorem resolveActionFromState_raises {UserCtx}
    (StringToNumber : string -> jsnum)
    (Exit_init : string -> string * ActionContext)
    (QuestionEvaluate :
       Question -> TwilioWebhookRequest -> SmsCookie -> Result Question)
    (this : @FlowController UserCtx) (req : TwilioWebhookRequest)
    (userCtx : UserCtx) (e : Err) (h : Heap) (st : nat) (s : SmsCookie) :
  h !! st = Some s ->
  isComplete s = false ->
  ((∃ test, testForExit this = Some test ∧ test (Body req) = Throw e)
   ∨ (declines_exit this req
      ∧ (getCurrentFlow this st h = (h, Throw e)
         ∨ ∃ f n resolve,
             getCurrentFlow this st h = (h, Ok f)
             ∧ flow_step f (Number StringToNumber (flowKey s)) = Some (n, resolve)
             ∧ (resolve (flowContext s) userCtx = Throw e
                ∨ ∃ a q, resolve (flowContext s) userCtx = Ok (Some a)
                         ∧ constructor a = IsQuestion q
                         ∧ QuestionEvaluate q req s = Throw e)))) ->
  resolveActionFromState StringToNumber Exit_init QuestionEvaluate
    this req st userCtx h = (h, Throw e).
Proof.
  intros H Hc [(test & Ht & Hb) | [Hexit Hrest]].
  - unfold resolveActionFromState, bind.
    rewrite (deref_eq _ _ _ H), Hc, Ht. unfold lift. now rewrite Hb.
  - rewrite (resolveActionFromState_past_exit _ _ _ _ _ _ _ _ _ H Hc Hexit).
    destruct Hrest as [-> | (f & n & resolve & -> & -> & Hres)]; [reflexivity|].
    destruct Hres as [-> | (a & q & -> & -> & ->)]; reflexivity.
Qed.

Lemma resolveActionFromState_raises_witness :
  resolveActionFromState Sample.toNumber Sample.exitInit Sample.evaluate
    Sample.broken Sample.hello 0 tt [Sample.fresh]
  = ([Sample.fresh], Throw (Error "rejected"))
  ∧ resolveActionFromState Sample.toNumber Sample.exitInit Sample.evaluate
      Sample.withSchema Sample.hello 0 tt [Sample.lost]
    = ([Sample.lost],
       Throw (TypeError "Received invalid flow name in SMS cookie: nowhere")).
Proof.
  split.
  - apply (resolveActionFromState_raises Sample.toNumber Sample.exitInit
             Sample.evaluate Sample.broken Sample.hello tt _
             [Sample.fresh] 0 Sample.fresh eq_refl eq_refl).
    right. split; [right; exists Sample.exitTest; split; reflexivity|].
    right. exists Sample.brokenFlow, "boom", (fun _ _ => Throw (Error "rejected")).
    split; [reflexivity|]. split; [reflexivity|]. left. reflexivity.
  - apply (resolveActionFromState_raises Sample.toNumber Sample.exitInit
             Sample.evaluate Sample.withSchema Sample.hello tt _
             [Sample.lost] 0 Sample.lost eq_refl eq_refl).
    right. split; [right; exists Sample.exitTest; split; reflexivity|].
    left. reflexivity.
Defined.

(** ** What every call of [resolveNextStateFromAction] establishes *)

Lemma yields_copy (R : SmsCookie -> SmsCookie -> Prop)
    (F : SmsCookie -> SmsCookie) :
  (∀ s, R s (F s)) -> yields R (fun st => s <- deref st ;; new (F s)).
Proof.
  intros HR h st s h' l H E. rewrite (copy_eq _ _ _ _ H) in E.
  injection E as <- <-. split; [lia|].
  exists (F s). split; [now apply heap_lookup_new | apply HR].
Qed.

Lemma yields_seq (R1 R2 R3 : SmsCookie -> SmsCookie -> Prop) (u v : nat -> M nat) :
  (∀ s1 s2 s3, R1 s1 s2 -> R2 s2 s3 -> R3 s1 s3) ->
  yields R1 u -> yields R2 v -> yields R3 (fun c => bind (u c) v).
Proof.
  intros Hcomp Hu Hv h st s h' l H E.
  apply bind_inv in E as (h1 & l1 & E1 & E2).
  destruct (Hu _ _ _ _ _ H E1) as (Hl1 & s1 & H1 & P1).
  destruct (Hv _ _ _ _ _ H1 E2) as (Hl2 & s2 & H2 & P2).
  apply lookup_lt_Some in H1. split; [lia|].
  exists s2. split; [exact H2|]. exact (Hcomp _ _ _ P1 P2).
Qed.

Lemma yields_pipe2 (R1 R2 R3 : SmsCookie -> SmsCookie -> Prop) (u v : nat -> M nat) :
  (∀ s1 s2 s3, R1 s1 s2 -> R2 s2 s3 -> R3 s1 s3) ->
  yields R1 u -> yields R2 v -> yields R3 (pipeSmsCookieUpdates [u; v]).
Proof.
  intros Hcomp Hu Hv h st s h' l H E.
  cbn [pipeSmsCookieUpdates] in E.
  apply bind_inv in E as (h1 & l1 & E1 & E).
  apply bind_inv in E as (h2 & l2 & E2 & E).
  injection E as <- <-.
  refine (yields_seq R1 R2 R3 u v Hcomp Hu Hv h st s h2 l2 H _).
  unfold bind. now rewrite E1.
Qed.

Section Evolution.

Context {UserCtx : Type}.
Variable StringToNumber : string -> jsnum.
Variable this : @FlowController UserCtx.
Implicit Types (h : Heap) (s : SmsCookie) (f : @Flow UserCtx) (a : Action).

Lemma yields_incrementFlowAction (R : SmsCookie -> SmsCookie -> Prop) f :
  (∀ s, R s (advanced StringToNumber f s)) ->
  yields R (fun c => incrementFlowAction StringToNumber c f).
Proof.
  intros HR h st s h' l H E.
  pose proof (incrementFlowAction_returns StringToNumber _ _ _ f H) as Hret.
  pose proof (returns_inv _ _ _ _ _ Hret E) as Hl. cbv beta in Hl.
  rewrite (incrementFlowAction_eq _ _ _ _ f H) in E. cbv zeta in E.
  split.
  - destruct (js_strict_eq _ _); injection E as <- <-; lia.
  - exists (advanced StringToNumber f s). split; [exact Hl | apply HR].
Qed.

Lemma yields_updateContext (R : SmsCookie -> SmsCookie -> Prop) f a :
  (∀ s ctx, FlowActionNames_has f (action_name a) = true ->
            getActionContext s f a = Ok ctx ->
            R s (recorded (claimed f s) f a ctx ctx)) ->
  yields R (fun c => updateContext c f a).
Proof.
  intros HR h st s h' l H E.
  destruct (updateContext_inv _ _ _ _ _ _ _ H E) as (Hn & ctx & Hc & -> & ->).
  split; [lia|]. eexists. split; [|exact (HR s ctx Hn Hc)].
  apply heap_lookup_new. now rewrite length_insert.
Qed.

(** The relations: [K] for the steps that copy, [R] for a recorded action,
    [T] for a recorded Trigger followed by the switch. *)
Variable K : @Flow UserCtx -> SmsCookie -> SmsCookie -> Prop.
Variables R T : @Flow UserCtx -> Action -> SmsCookie -> SmsCookie -> Prop.

Hypothesis K_complete : ∀ f s, K f s (set_isComplete true s).
Hypothesis K_attempt : ∀ f s body,
  K f s (set_question {| attempts := attempts (question s) ++ [body];
                         isAnswering := isAnswering (question s) |} s).
Hypothesis K_start : ∀ f s, K f s (started s).
Hypothesis K_advance : ∀ f s, K f s (advanced StringToNumber f s).
Hypothesis R_record : ∀ f a s ctx,
  FlowActionNames_has f (action_name a) = true ->
  getActionContext s f a = Ok ctx ->
  R f a s (recorded (claimed f s) f a ctx ctx).
Hypothesis T_trigger : ∀ f a target s ctx,
  constructor a = Trigger target ->
  FlowActionNames_has f (action_name a) = true ->
  getActionContext s f a = Ok ctx ->
  T f a s (triggered target (recorded (claimed f s) f a ctx ctx)).
Hypothesis K_then_R : ∀ f a s1 s2 s3, K f s1 s2 -> R f a s2 s3 -> R f a s1 s3.
Hypothesis R_then_K : ∀ f a s1 s2 s3, R f a s1 s2 -> K f s2 s3 -> R f a s1 s3.

Lemma resolveNextStateFromAction_yields req act h (st : nat) s h' (l : nat) :
  h !! st = Some s ->
  resolveNextStateFromAction StringToNumber this req st act h = (h', Ok l) ->
  length h <= l
  ∧ ∃ f s', getCurrentFlow this st h = (h, Ok f)
            ∧ h' !! l = Some s'
            ∧ by_action (K f) (R f) (T f) act s s'.
Proof.
  intros H E.
  destruct (getCurrentFlow this st h) as [h0 [f|e]] eqn:Hf;
    pose proof (getCurrentFlow_reads _ _ _ _ _ Hf) as ->.
  2:{ unfold resolveNextStateFromAction, bind in E. rewrite Hf in E.
      discriminate E. }
  rewrite (resolveNextStateFromAction_with_flow _ _ _ _ _ _ _ Hf) in E.
  assert (Hrec : ∀ a, yields (R f a) (fun c => updateContext c f a))
    by (intros a; apply yields_updateContext; intros s0 ctx; apply R_record).
  assert (Hinc : yields (K f) (fun c => incrementFlowAction StringToNumber c f))
    by (apply yields_incrementFlowAction; apply K_advance).
  assert (Hcmp : yields (K f) completeInteraction)
    by (apply (yields_copy (K f) (set_isComplete true)); apply K_complete).
  assert (Hadv : ∀ a, yields (R f a)
            (pipeSmsCookieUpdates
               [ (fun c => updateContext c f a);
                 (fun c => incrementFlowAction StringToNumber c f) ]))
    by (intros a; exact (yields_pipe2 _ _ _ _ _ (R_then_K f a) (Hrec a) Hinc)).
  assert (Hend : ∀ a, yields (R f a)
            (pipeSmsCookieUpdates
               [ (fun c => updateContext c f a); completeInteraction ]))
    by (intros a; exact (yields_pipe2 _ _ _ _ _ (R_then_K f a) (Hrec a) Hcmp)).
  destruct act as [a|]; cbn [by_action].
  2:{ destruct (Hcmp _ _ _ _ _ H E) as (Hl & s' & H' & HK).
      split; [exact Hl|]. now exists f, s'. }
  destruct (constructor a) as [| |q|target|] eqn:Hk.
  - destruct (Hadv a _ _ _ _ _ H E) as (Hl & s' & H' & HR).
    split; [exact Hl|]. now exists f, s'.
  - destruct (Hadv a _ _ _ _ _ H E) as (Hl & s' & H' & HR).
    split; [exact Hl|]. now exists f, s'.
  - (* a Question *)
    apply bind_inv in E as (h0 & s0 & E0 & E).
    rewrite (deref_eq _ _ _ H) in E0. injection E0 as <- <-.
    apply bind_inv in E as (h1 & l1 & E1 & E).
    assert (Hrest : ∀ s1, h1 !! l1 = Some s1 ->
              length h1 <= l ∧ ∃ s', h' !! l = Some s' ∧ R f a s1 s').
    { intros s1 H1.
      destruct (isAnswered q); [exact (Hadv a _ _ _ _ _ H1 E)|].
      destruct (isFailed q).
      - destruct (QuestionShouldContinueOnFail q);
          [exact (Hadv a _ _ _ _ _ H1 E) | exact (Hend a _ _ _ _ _ H1 E)].
      - apply bind_inv in E as (h2 & s2 & E2 & E).
        rewrite (deref_eq _ _ _ H1) in E2. injection E2 as <- <-.
        destruct (isAnswering (question s1)); [exact (Hrec a _ _ _ _ _ H1 E)|].
        refine (yields_pipe2 (K f) (R f a) (R f a) _ _ (K_then_R f a) _ (Hrec a)
                  _ _ _ _ _ H1 E).
        apply (yields_copy (K f) started). apply K_start. }
    destruct (isAnswering (question s)).
    + unfold addQuestionAttempt in E1. rewrite (copy_eq _ _ _ _ H) in E1.
      injection E1 as <- <-.
      destruct (Hrest _ (heap_lookup_new _ _ _ eq_refl)) as (Hl & s' & H' & HR).
      rewrite length_app in Hl. split; [lia|].
      exists f, s'. split; [reflexivity|]. split; [exact H'|].
      exact (K_then_R _ _ _ _ _ (K_attempt f s (Body req)) HR).
    + injection E1 as <- <-.
      destruct (Hrest _ H) as (Hl & s' & H' & HR).
      split; [exact Hl|]. now exists f, s'.
  - (* a Trigger *)
    apply bind_inv in E as (h0 & [] & E0 & E).
    pose proof (checkTrigger_reads _ _ _ _ _ _ E0) as ->.
    cbn [pipeSmsCookieUpdates] in E.
    apply bind_inv in E as (h1 & l1 & E1 & E).
    apply bind_inv in E as (h2 & l2 & E2 & E).
    injection E as <- <-.
    destruct (updateContext_inv _ _ _ _ _ _ _ H E1) as (Hn & ctx & Hc & -> & ->).
    unfold handleTrigger in E2.
    rewrite (copy_eq _ _ _ (recorded (claimed f s) f a ctx ctx)) in E2
      by (apply heap_lookup_new; now rewrite length_insert).
    injection E2 as <- <-.
    rewrite length_app, length_insert. cbn [length]. split; [lia|].
    exists f. eexists. split; [reflexivity|]. split.
    + apply heap_lookup_new. rewrite length_app, length_insert. reflexivity.
    + now apply T_trigger.
  - destruct (Hend a _ _ _ _ _ H E) as (Hl & s' & H' & HR).
    split; [exact Hl|]. now exists f, s'.
Qed.

End Evolution.

(** A property of single calls that is reflexive and transitive holds over
    a run of calls. *)
Lemma resolveNextStates_preserves {UserCtx} (StringToNumber : string -> jsnum)
    (this : @FlowController UserCtx) (P : SmsCookie -> SmsCookie -> Prop) :
  (∀ s, P s s) ->
  (∀ s1 s2 s3, P s1 s2 -> P s2 s3 -> P s1 s3) ->
  (∀ req act h st s h' l,
     h !! st = Some s ->
     resolveNextStateFromAction StringToNumber this req st act h = (h', Ok l) ->
     ∃ s', h' !! l = Some s' ∧ P s s') ->
  ∀ calls h st s h' l,
    h !! st = Some s ->
    resolveNextStates StringToNumber this calls st h = (h', Ok l) ->
    ∃ s', h' !! l = Some s' ∧ P s s'.
Proof.
  intros Hrefl Htrans Hone calls.
  induction calls as [|[req act] rest IH]; intros h st s h' l H E;
    cbn [resolveNextStates] in E.
  - injection E as <- <-. now exists s.
  - apply bind_inv in E as (h1 & l1 & E1 & E2).
    destruct (Hone _ _ _ _ _ _ _ H E1) as (s1 & H1 & P1).
    destruct (IH _ _ _ _ _ H1 E2) as (s2 & H2 & P2).
    exists s2. split; [exact H2|]. exact (Htrans _ _ _ P1 P2).
Qed.

(** ** What no call changes *)

Section Keeps.

Context {UserCtx : Type}.
Variable StringToNumber : string -> jsnum.
Variable this : @FlowController UserCtx.
Implicit Types (s : SmsCookie) (f : @Flow UserCtx) (a : Action).

Lemma claimed_same_conversation f s :
  same_conversation s (claimed f s)
  ∧ isComplete (claimed f s) = isComplete s.
Proof. unfold claimed. destruct (falsy (flow s)); repeat split. Qed.

Lemma advanced_same_conversation f s :
  same_conversation s (advanced StringToNumber f s)
  ∧ (isComplete s = true -> isComplete (advanced StringToNumber f s) = true).
Proof.
  unfold advanced. cbv zeta. destruct (js_strict_eq _ _); repeat split; auto.
Qed.

(** One call keeps the conversation's identity and never takes back
    completion. *)
Lemma resolveNextStateFromAction_keeps req act (h : Heap) (st : nat) s
    (h' : Heap) (l : nat) :
  h !! st = Some s ->
  resolveNextStateFromAction StringToNumber this req st act h = (h', Ok l) ->
  ∃ s', h' !! l = Some s'
        ∧ same_conversation s s'
        ∧ (isComplete s = true -> isComplete s' = true).
Proof.
  intros H E.
  set (P := fun s s' : SmsCookie =>
              same_conversation s s'
              ∧ (isComplete s = true -> isComplete s' = true)).
  assert (Ptrans : ∀ s1 s2 s3, P s1 s2 -> P s2 s3 -> P s1 s3).
  { intros s1 s2 s3 [(A1 & A2 & A3 & A4) A5] [(B1 & B2 & B3 & B4) B5].
    repeat split; try congruence. auto. }
  assert (Prec : ∀ f a s0 ctx, P s0 (recorded (claimed f s0) f a ctx ctx)).
  { intros f a s0 ctx.
    destruct (claimed_same_conversation f s0) as [(A1 & A2 & A3 & A4) A5].
    repeat split; cbn; congruence. }
  destruct (resolveNextStateFromAction_yields StringToNumber this
              (fun _ => P) (fun _ _ => P) (fun _ _ => P)) with
    (req := req) (act := act) (h := h) (st := st) (s := s) (h' := h') (l := l)
    as (_ & f & s' & _ & H' & HP); try assumption.
  - intros f s0. repeat split; auto.
  - intros f s0 body. repeat split; auto.
  - intros f s0. repeat split; auto.
  - intros f s0. apply advanced_same_conversation.
  - intros f a s0 ctx _ _. apply Prec.
  - intros f a target s0 ctx _ _ _.
    destruct (Prec f a s0 ctx) as [(A1 & A2 & A3 & A4) A5].
    repeat split; assumption.
  - intros f a. apply Ptrans.
  - intros f a. apply Ptrans.
  - exists s'. split; [exact H'|].
    unfold by_action in HP. destruct act as [a|]; [|exact HP].
    destruct (constructor a); exact HP.
Qed.

End Keeps.

(** X7. Completion is never taken back: over any run of
    [resolveNextStateFromAction] calls, each on the state the previous one
    returned, a cookie that was complete yields a cookie that is
    complete. *)
Theorem isComplete_is_kept {UserCtx} (StringToNumber : string -> jsnum)
    (this : @FlowController UserCtx)
    (calls : list (TwilioWebhookRequest * option Action))
    (h h' : Heap) (st l : nat) (s : SmsCookie) :
  h !! st = Some s ->
  isComplete s = true ->
  resolveNextStates StringToNumber this calls st h = (h', Ok l) ->
  ∃ s', h' !! l = Some s' ∧ isComplete s' = true.
Proof.
  intros H Hc E.
  destruct (resolveNextStates_preserves StringToNumber this
              (fun s s' => isComplete s = true -> isComplete s' = true))
    with (calls := calls) (h := h) (st := st) (s := s) (h' := h') (l := l)
    as (s' & H' & HP); try assumption.
  - auto.
  - auto.
  - intros req act h0 st0 s0 h1 l1 H0 E0.
    destruct (resolveNextStateFromAction_keeps _ _ _ _ _ _ _ _ _ H0 E0)
      as (s1 & H1 & _ & HP).
    now exists s1.
  - exists s'. auto.
Qed.

Lemma isComplete_is_kept_witness :
  ∃ h' l s',
    resolveNextStates Sample.toNumber Sample.withSchema
      [ (Sample.hello, Some (Sample.reply "greet"));
        (Sample.hello, Some (Sample.ask "ask" Pending false)) ]
      0 [Sample.done_] = (h', Ok l)
    ∧ h' !! l = Some s' ∧ isComplete s' = true.
Proof.
  assert (∃ h' l,
            resolveNextStates Sample.toNumber Sample.withSchema
              [ (Sample.hello, Some (Sample.reply "greet"));
                (Sample.hello, Some (Sample.ask "ask" Pending false)) ]
              0 [Sample.done_] = (h', Ok l)) as (h' & l & E)
    by (eexists _, _; vm_compute; reflexivity).
  destruct (isComplete_is_kept Sample.toNumber Sample.withSchema _
              [Sample.done_] h' 0 l Sample.done_ eq_refl eq_refl E) as (s' & H').
  exists h', l, s'. split; [exact E | exact H'].
Defined.

(** X8. The fields that identify the conversation ([createdAt], [from],
    [interactionId]) and [interactionComplete] are the same after any run
    of [resolveNextStateFromAction] calls. *)
Theorem conversation_is_kept {UserCtx} (StringToNumber : string -> jsnum)
    (this : @FlowController UserCtx)
    (calls : list (TwilioWebhookRequest * option Action))
    (h h' : Heap) (st l : nat) (s : SmsCookie) :
  h !! st = Some s ->
  resolveNextStates StringToNumber this calls st h = (h', Ok l) ->
  ∃ s', h' !! l = Some s'
        ∧ createdAt s' = createdAt s
        ∧ from s' = from s
        ∧ interactionId s' = interactionId s
        ∧ interactionComplete s' = interactionComplete s.
Proof.
  intros H E.
  destruct (resolveNextStates_preserves StringToNumber this same_conversation)
    with (calls := calls) (h := h) (st := st) (s := s) (h' := h') (l := l)
    as (s' & H' & HP); try assumption.
  - intros s0. repeat split.
  - intros s1 s2 s3 (A1 & A2 & A3 & A4) (B1 & B2 & B3 & B4).
    repeat split; congruence.
  - intros req act h0 st0 s0 h1 l1 H0 E0.
    destruct (resolveNextStateFromAction_keeps _ _ _ _ _ _ _ _ _ H0 E0)
      as (s1 & H1 & HP & _).
    now exists s1.
  - exists s'. split; [exact H'|]. exact HP.
Qed.

Lemma conversation_is_kept_witness :
  ∃ h' l s',
    resolveNextStates Sample.toNumber Sample.withSchema
      [ (Sample.hello, Some (Sample.reply "greet"));
        (Sample.hello, Some (Sample.ask "ask" Failed true));
        (Sample.hello, Some (Sample.trigger "jump" "survey")) ]
      0 [Sample.fresh] = (h', Ok l)
    ∧ h' !! l = Some s'
    ∧ createdAt s' = 0%Z
    ∧ from s' = "+15550100"
    ∧ interactionId s' = "c0ffee"
    ∧ interactionComplete s' = false.
Proof.
  assert (∃ h' l,
            resolveNextStates Sample.toNumber Sample.withSchema
              [ (Sample.hello, Some (Sample.reply "greet"));
                (Sample.hello, Some (Sample.ask "ask" Failed true));
                (Sample.hello, Some (Sample.trigger "jump" "survey")) ]
              0 [Sample.fresh] = (h', Ok l)) as (h' & l & E)
    by (eexists _, _; vm_compute; reflexivity).
  destruct (conversation_is_kept Sample.toNumber Sample.withSchema _
              [Sample.fresh] h' 0 l Sample.fresh eq_refl E) as (s' & H').
  exists h', l, s'. split; [exact E | exact H'].
Defined.

(** ** What a call records *)

Section Records.

Context {UserCtx : Type}.
Variable StringToNumber : string -> jsnum.
Variable this : @FlowController UserCtx.
Implicit Types (s : SmsCookie) (f : @Flow UserCtx) (a : Action).

(** One call records its action once, under the current flow, and nothing
    else. *)
Lemma resolveNextStateFromAction_records req act (h : Heap) (st : nat) s
    (h' : Heap) (l : nat) :
  h !! st = Some s ->
  resolveNextStateFromAction StringToNumber this req st act h = (h', Ok l) ->
  ∃ f s', getCurrentFlow this st h = (h, Ok f)
          ∧ h' !! l = Some s'
          ∧ by_action unrecorded (recorded_in f) (switched_in f) act s s'.
Proof.
  intros H E.
  assert (Hrec : ∀ f a s0 ctx,
            getActionContext s0 f a = Ok ctx ->
            recorded_in f a s0 (recorded (claimed f s0) f a ctx ctx)).
  { intros f a s0 ctx Hc. exists ctx. split; [exact Hc|]. cbn.
    now destruct (claimed_keeps f s0) as (-> & _ & -> & _). }
  destruct (resolveNextStateFromAction_yields StringToNumber this
              (fun _ => unrecorded) recorded_in switched_in) with
    (req := req) (act := act) (h := h) (st := st) (s := s) (h' := h') (l := l)
    as (_ & f & s' & Hf & H' & HP); try assumption.
  - intros f s0. now split.
  - intros f s0 body. now split.
  - intros f s0. now split.
  - intros f s0. unfold advanced. cbv zeta. now destruct (js_strict_eq _ _).
  - intros f a s0 ctx _ Hc. now apply Hrec.
  - intros f a target s0 ctx _ _ Hc.
    destruct (Hrec f a s0 ctx Hc) as (c & Hc' & Hic & _).
    exists c. now split.
  - intros f a s1 s2 s3 [K1 K2] (ctx & Hc & R1 & R2).
    exists ctx. split.
    + now rewrite (getActionContext_flowContext s1 s2) by now rewrite K2.
    + rewrite R1, R2, K1, K2. now split.
  - intros f a s1 s2 s3 (ctx & Hc & R1 & R2) [K1 K2].
    exists ctx. rewrite K1, K2. now split.
  - now exists f, s'.
Qed.

End Records.

(** X9. A successful call with an action appends exactly one entry to the
    interaction history: the snapshot [getActionContext] takes of the
    action against the cookie handed in, with [flowName] set to the name
    of the flow the cookie was in (for a Trigger too, whose own context
    may name the target).  A call without an action appends nothing. *)
Theorem resolveNextStateFromAction_appends_one {UserCtx}
    (StringToNumber : string -> jsnum) (this : @FlowController UserCtx)
    (req : TwilioWebhookRequest) (act : option Action)
    (h h' : Heap) (st l : nat) (s : SmsCookie) :
  h !! st = Some s ->
  resolveNextStateFromAction StringToNumber this req st act h = (h', Ok l) ->
  ∃ f s',
    getCurrentFlow this st h = (h, Ok f)
    ∧ h' !! l = Some s'
    ∧ match act with
      | None => interactionContext s' = interactionContext s
      | Some a =>
          ∃ ctx,
            getActionContext s f a = Ok ctx
            ∧ interactionContext s' = interactionContext s ++ [history_entry f ctx]
            ∧ history_entry f ctx !! "flowName" = Some (VStr (flow_name f))
            ∧ ∀ k, k ≠ "flowName" -> history_entry f ctx !! k = ctx !! k
      end.
Proof.
  intros H E.
  destruct (resolveNextStateFromAction_records _ _ _ _ _ _ _ _ _ H E)
    as (f & s' & Hf & H' & HP).
  exists f, s'. split; [exact Hf|]. split; [exact H'|].
  destruct act as [a|]; cbn [by_action] in HP; [|exact (proj1 HP)].
  assert (∃ ctx, getActionContext s f a = Ok ctx
                 ∧ interactionContext s'
                   = interactionContext s ++ [history_entry f ctx])
    as (ctx & Hc & Hic).
  { destruct (constructor a); destruct HP as (ctx & Hc & Hic & _);
      exists ctx; now split. }
  exists ctx. split; [exact Hc|]. split; [exact Hic|].
  unfold history_entry. split.
  - apply lookup_insert_eq.
  - intros k Hk. now apply lookup_insert_ne.
Qed.

Lemma resolveNextStateFromAction_appends_one_witness :
  ∃ h' l s',
    resolveNextStateFromAction Sample.toNumber Sample.withSchema Sample.hello 0
      (Some (Sample.ask "rate" Pending true)) [Demo.textReceipts] = (h', Ok l)
    ∧ h' !! l = Some s'
    ∧ interactionContext s' =
        [ <["flowName" := VStr "survey"]>
            (<["messageSid" := VList ["S"; "M"; "0"; "SM1"] ]>
               (ActionGetContext (Sample.ask "rate" Pending true))) ].
Proof.
  assert (∃ h' l,
            resolveNextStateFromAction Sample.toNumber Sample.withSchema
              Sample.hello 0 (Some (Sample.ask "rate" Pending true))
              [Demo.textReceipts] = (h', Ok l)) as (h' & l & E)
    by (eexists _, _; vm_compute; reflexivity).
  destruct (resolveNextStateFromAction_appends_one Sample.toNumber
              Sample.withSchema Sample.hello _ [Demo.textReceipts] h' 0 l
              Demo.textReceipts eq_refl E)
    as (f & s' & Hf & H' & ctx & Hc & Hic & _).
  injection Hf as <-. injection Hc as <-.
  exists h', l, s'. auto.
Defined.

(** X10. After a run of successful calls the interaction history is longer
    by exactly the number of calls that had an action. *)
Theorem history_length_counts_actions {UserCtx}
    (StringToNumber : string -> jsnum) (this : @FlowController UserCtx)
    (calls : list (TwilioWebhookRequest * option Action))
    (h h' : Heap) (st l : nat) (s : SmsCookie) :
  h !! st = Some s ->
  resolveNextStates StringToNumber this calls st h = (h', Ok l) ->
  ∃ s', h' !! l = Some s'
        ∧ length (interactionContext s')
          = length (interactionContext s) + length (omap snd calls).
Proof.
  revert h st s. induction calls as [|[req act] rest IH]; intros h st s H E;
    cbn [resolveNextStates] in E.
  - injection E as <- <-. exists s. split; [exact H|]. cbn. lia.
  - apply bind_inv in E as (h1 & l1 & E1 & E2).
    destruct (resolveNextStateFromAction_records _ _ _ _ _ _ _ _ _ H E1)
      as (f & s1 & _ & H1 & HP).
    destruct (IH _ _ _ H1 E2) as (s2 & H2 & Hlen).
    exists s2. split; [exact H2|]. rewrite Hlen.
    destruct act as [a|]; cbn [by_action] in HP; cbn [omap list_omap snd].
    + assert (∃ ctx, interactionContext s1
                       = interactionContext s ++ [history_entry f ctx])
        as (ctx & Hic)
        by (destruct (constructor a); destruct HP as (ctx & _ & Hic & _);
            now exists ctx).
      rewrite Hic, length_app. cbn [length]. lia.
    + destruct HP as [-> _]. lia.
Qed.

Lemma history_length_counts_actions_witness :
  ∃ h' l s',
    resolveNextStates Sample.toNumber Sample.withSchema
      [ (Sample.hello, Some (Sample.ask "ask" Pending false));
        (Sample.hello, Some (Sample.ask "ask" Answered false));
        (Sample.hello, None) ]
      0 [Sample.greeted] = (h', Ok l)
    ∧ h' !! l = Some s'
    ∧ length (interactionContext s') = 3.
Proof.
  assert (∃ h' l,
            resolveNextStates Sample.toNumber Sample.withSchema
              [ (Sample.hello, Some (Sample.ask "ask" Pending false));
                (Sample.hello, Some (Sample.ask "ask" Answered false));
                (Sample.hello, None) ]
              0 [Sample.greeted] = (h', Ok l)) as (h' & l & E)
    by (eexists _, _; vm_compute; reflexivity).
  destruct (history_length_counts_actions Sample.toNumber Sample.withSchema _
              [Sample.greeted] h' 0 l Sample.greeted eq_refl E) as (s' & H' & Hlen).
  exists h', l, s'. auto.
Defined.

(** X11. A successful call with an action that is not a Trigger leaves
    the snapshot [getActionContext] takes of the action against the cookie
    handed in under the action's name in the flow context, replacing what
    was there, and leaves every other name of the flow context as it
    was. *)
Theorem resolveNextStateFromAction_flowContext {UserCtx}
    (StringToNumber : string -> jsnum) (this : @FlowController UserCtx)
    (req : TwilioWebhookRequest) (a : Action)
    (h h' : Heap) (st l : nat) (s : SmsCookie) :
  h !! st = Some s ->
  (∀ target, constructor a ≠ Trigger target) ->
  resolveNextStateFromAction StringToNumber this req st (Some a) h = (h', Ok l) ->
  ∃ f s' ctx,
    getCurrentFlow this st h = (h, Ok f)
    ∧ h' !! l = Some s'
    ∧ getActionContext s f a = Ok ctx
    ∧ flowContext s' !! action_name a = Some ctx
    ∧ ∀ n, n ≠ action_name a -> flowContext s' !! n = flowContext s !! n.
Proof.
  intros H Hk E.
  destruct (resolveNextStateFromAction_records _ _ _ _ _ _ _ _ _ H E)
    as (f & s' & Hf & H' & HP).
  cbn [by_action] in HP.
  assert (∃ ctx, getActionContext s f a = Ok ctx
                 ∧ flowContext s' = <[action_name a := ctx]> (flowContext s))
    as (ctx & Hc & Hfc).
  { destruct (constructor a) as [| | |target|] eqn:Hq;
      try (destruct HP as (ctx & Hc & _ & Hfc); exists ctx; now split).
    now destruct (Hk target). }
  exists f, s', ctx. split; [exact Hf|]. split; [exact H'|].
  split; [exact Hc|]. rewrite Hfc. split.
  - apply lookup_insert_eq.
  - intros n Hn. apply lookup_insert_ne. congruence.
Qed.

Lemma resolveNextStateFromAction_flowContext_witness :
  ∃ h' l s',
    resolveNextStateFromAction Sample.toNumber Sample.withSchema Sample.hello 0
      (Some (Sample.reply "greet")) [Sample.fresh] = (h', Ok l)
    ∧ h' !! l = Some s'
    ∧ flowContext s' !! "greet" = Some (ActionGetContext (Sample.reply "greet"))
    ∧ flowContext s' !! "ask" = None.
Proof.
  assert (∃ h' l,
            resolveNextStateFromAction Sample.toNumber Sample.withSchema
              Sample.hello 0 (Some (Sample.reply "greet")) [Sample.fresh]
            = (h', Ok l)) as (h' & l & E)
    by (eexists _, _; vm_compute; reflexivity).
  assert (Hk : ∀ target, constructor (Sample.reply "greet") ≠ Trigger target)
    by (intros target; discriminate).
  destruct (resolveNextStateFromAction_flowContext Sample.toNumber
              Sample.withSchema Sample.hello _ [Sample.fresh] h' 0 l
              Sample.fresh eq_refl Hk E)
    as (f & s' & ctx & Hf & H' & Hc & Hname & Hother).
  injection Hc as <-.
  exists h', l, s'. split; [exact E|]. split; [exact H'|].
  split; [exact Hname|]. now rewrite (Hother "ask").
Defined.

(** X12. Delivery receipts of a Question accumulate: after a successful
    call with a Question, the value stored under [messageSid] in the flow
    context under the question's name is the array of what was stored
    there, spread (nothing when there was none, the elements of an array,
    the characters of a string), followed by the question's own
    receipts. *)
Theorem question_receipts_accumulate {UserCtx}
    (StringToNumber : string -> jsnum) (this : @FlowController UserCtx)
    (req : TwilioWebhookRequest) (a : Action) (q : Question)
    (h h' : Heap) (st l : nat) (s : SmsCookie) :
  h !! st = Some s ->
  constructor a = IsQuestion q ->
  resolveNextStateFromAction StringToNumber this req st (Some a) h = (h', Ok l) ->
  ∃ s' prev,
    h' !! l = Some s'
    ∧ spread (prevSids s (action_name a)) = Ok prev
    ∧ prevSids s' (action_name a) = VList (prev ++ default [] (sid q)).
Proof.
  intros H Hq E.
  destruct (resolveNextStateFromAction_records _ _ _ _ _ _ _ _ _ H E)
    as (f & s' & Hf & H' & HP).
  cbn [by_action] in HP. rewrite Hq in HP. destruct HP as (ctx & Hc & _ & Hfc).
  destruct (spread (prevSids s (action_name a))) as [prev|e] eqn:Hp.
  - exists s', prev. split; [exact H'|]. split; [reflexivity|].
    rewrite (getActionContext_asks s f a q prev Hq Hp) in Hc.
    injection Hc as <-.
    unfold prevSids at 1. rewrite Hfc, lookup_insert_eq, lookup_insert_eq.
    reflexivity.
  - rewrite (getActionContext_asks_throws s f a q e Hq Hp) in Hc.
    discriminate Hc.
Qed.

Lemma question_receipts_accumulate_witness :
  ∃ h' l s',
    resolveNextStateFromAction Sample.toNumber Sample.withSchema Sample.hello 0
      (Some (Sample.ask "rate" Pending true)) [Demo.textReceipts] = (h', Ok l)
    ∧ h' !! l = Some s'
    ∧ prevSids Demo.textReceipts "rate" = VStr "SM0"
    ∧ prevSids s' "rate" = VList ["S"; "M"; "0"; "SM1"].
Proof.
  assert (∃ h1 l1,
            resolveNextStateFromAction Sample.toNumber Sample.withSchema
              Sample.hello 0 (Some (Sample.ask "rate" Pending true))
              [Demo.textReceipts] = (h1, Ok l1)) as (h1 & l1 & E1)
    by (eexists _, _; vm_compute; reflexivity).
  destruct (question_receipts_accumulate Sample.toNumber Sample.withSchema
              Sample.hello (Sample.ask "rate" Pending true) _
              [Demo.textReceipts] h1 0 l1 Demo.textReceipts
              eq_refl eq_refl E1) as (s1 & prev & H1 & Hp & Hs1).
  injection Hp as <-.
  exists h1, l1, s1. auto.
Defined.

(** ** The current flow and the position *)

Section Stays.

Context {UserCtx : Type}.
Variable StringToNumber : string -> jsnum.
Variable this : @FlowController UserCtx.
Implicit Types (h : Heap) (s : SmsCookie) (f : @Flow UserCtx) (a : Action).

(** The current flow is read off the cookie's flow name. *)
Lemma getCurrentFlow_same_flow h (st : nat) s h' (l : nat) s' (r : Result Flow) :
  h !! st = Some s ->
  h' !! l = Some s' ->
  flow s' = flow s ->
  getCurrentFlow this st h = (h, r) ->
  getCurrentFlow this l h' = (h', r).
Proof.
  intros H H' Hflow. unfold getCurrentFlow, bind.
  rewrite (deref_eq _ _ _ H), (deref_eq _ _ _ H'), Hflow.
  destruct (falsy (flow s) || bool_decide (flow s = Some (flow_name (root this))));
    [now intros [= <-]|].
  destruct (flow s) as [n|]; [|now intros [= <-]].
  destruct (schema this) as [m|]; [|now intros [= <-]].
  destruct (m !! n); now intros [= <-].
Qed.

(** Claiming the flow does not change the current flow. *)
Lemma getCurrentFlow_claimed h (st : nat) s h' (l : nat) s' f :
  h !! st = Some s ->
  h' !! l = Some s' ->
  flow s' = flow (claimed f s) ->
  getCurrentFlow this st h = (h, Ok f) ->
  getCurrentFlow this l h' = (h', Ok f).
Proof.
  intros H H' Hflow Hf. unfold claimed in Hflow.
  destruct (falsy (flow s)) eqn:Hfalsy.
  - assert (f = root this) as ->.
    { unfold getCurrentFlow, bind in Hf.
      rewrite (deref_eq _ _ _ H), Hfalsy in Hf. now injection Hf as <-. }
    unfold getCurrentFlow, bind. rewrite (deref_eq _ _ _ H'), Hflow.
    cbn [flow set_flow]. rewrite bool_decide_true by reflexivity.
    now rewrite orb_true_r.
  - exact (getCurrentFlow_same_flow _ _ _ _ _ _ _ H H' Hflow Hf).
Qed.

Lemma claimed_flow f s1 s2 :
  flow s2 = flow s1 -> flow (claimed f s2) = flow (claimed f s1).
Proof.
  intros E. unfold claimed. rewrite E. now destruct (falsy (flow s1)).
Qed.

Lemma in_range_advanced f s :
  in_range StringToNumber f s -> in_range StringToNumber f (advanced StringToNumber f s).
Proof.
  intros (z & Hz & Hlt). unfold advanced. cbv zeta. rewrite Hz.
  unfold flow_length. cbn [js_succ js_strict_eq].
  destruct (bool_decide (z + 1 = Z.of_nat (length (flow_actions f)))%Z) eqn:Hend.
  - exists z. split; [exact Hz | exact Hlt].
  - apply bool_decide_eq_false in Hend.
    exists (z + 1)%Z. split; [reflexivity | lia].
Qed.

(** One call that is not a Trigger leaves the cookie in its flow, at a
    position that is an index of the flow if it was one. *)
Lemma resolveNextStateFromAction_stays req act h (st : nat) s h' (l : nat) f :
  h !! st = Some s ->
  not_trigger act ->
  getCurrentFlow this st h = (h, Ok f) ->
  resolveNextStateFromAction StringToNumber this req st act h = (h', Ok l) ->
  ∃ s', h' !! l = Some s'
        ∧ getCurrentFlow this l h' = (h', Ok f)
        ∧ (in_range StringToNumber f s -> in_range StringToNumber f s').
Proof.
  intros H Hnt Hf E.
  set (R := fun (f : @Flow UserCtx) (_ : Action) (s s' : SmsCookie) =>
              flow s' = flow (claimed f s)
              ∧ (in_range StringToNumber f s -> in_range StringToNumber f s')).
  assert (Hkeep : ∀ f0 s1 s2, flowKey s2 = flowKey s1 ->
            in_range StringToNumber f0 s1 -> in_range StringToNumber f0 s2).
  { intros f0 s1 s2 Ek (z & Hz & Hlt). exists z. now rewrite Ek. }
  set (K' := fun (f : @Flow UserCtx) (s s' : SmsCookie) =>
               flow s' = flow s
               ∧ (in_range StringToNumber f s -> in_range StringToNumber f s')).
  destruct (resolveNextStateFromAction_yields StringToNumber this
              K' R (fun _ _ _ _ => True)) with
    (req := req) (act := act) (h := h) (st := st) (s := s) (h' := h') (l := l)
    as (_ & f0 & s' & Hf0 & H' & HP); try assumption.
  - intros f0 s0. split; [reflexivity | now apply Hkeep].
  - intros f0 s0 body. split; [reflexivity | now apply Hkeep].
  - intros f0 s0. split; [reflexivity | now apply Hkeep].
  - intros f0 s0. split; [|apply in_range_advanced].
    unfold advanced. cbv zeta. now destruct (js_strict_eq _ _).
  - intros f0 a s0 ctx _ _. split; [reflexivity|]. intros Hr.
    apply (Hkeep f0 s0); [|exact Hr]. cbn.
    now destruct (claimed_keeps f0 s0) as (_ & -> & _).
  - intros; exact I.
  - intros f0 a s1 s2 s3 [K1 K2] [R1 R2]. split; [|auto].
    rewrite R1. now apply claimed_flow.
  - intros f0 a s1 s2 s3 [R1 R2] [K1 K2]. split; [congruence | auto].
  - rewrite Hf in Hf0. injection Hf0 as <-.
    exists s'. split; [exact H'|].
    destruct act as [a|]; cbn [by_action] in HP.
    + assert (HR : R f a s s').
      { destruct (constructor a) as [| | |target|] eqn:Hc; try exact HP.
        now destruct (Hnt a target eq_refl). }
      destruct HR as [Hflow Hrange]. split; [|exact Hrange].
      exact (getCurrentFlow_claimed _ _ _ _ _ _ _ H H' Hflow Hf).
    + destruct HP as [Hflow Hrange]. split; [|exact Hrange].
      exact (getCurrentFlow_same_flow _ _ _ _ _ _ _ H H' Hflow Hf).
Qed.

(** The same over a run of calls. *)
Lemma resolveNextStates_stays calls h (st : nat) s h' (l : nat) f :
  h !! st = Some s ->
  Forall (fun c => not_trigger c.2) calls ->
  getCurrentFlow this st h = (h, Ok f) ->
  resolveNextStates StringToNumber this calls st h = (h', Ok l) ->
  ∃ s', h' !! l = Some s'
        ∧ getCurrentFlow this l h' = (h', Ok f)
        ∧ (in_range StringToNumber f s -> in_range StringToNumber f s').
Proof.
  intros H Hnt. revert h st s H.
  induction Hnt as [|[req act] rest Hact _ IH]; intros h st s H Hf E;
    cbn [resolveNextStates] in E.
  - injection E as <- <-. exists s. auto.
  - apply bind_inv in E as (h1 & l1 & E1 & E2).
    destruct (resolveNextStateFromAction_stays _ _ _ _ _ _ _ _ H Hact Hf E1)
      as (s1 & H1 & Hf1 & R1).
    destruct (IH _ _ _ H1 Hf1 E2) as (s2 & H2 & Hf2 & R2).
    exists s2. auto.
Qed.

End Stays.

(** X13. Only a Trigger changes the current flow: after any run of
    successful calls that carry no Trigger, the returned cookie resolves to
    the flow the first cookie resolved to. *)
Theorem current_flow_is_kept {UserCtx} (StringToNumber : string -> jsnum)
    (this : @FlowController UserCtx)
    (calls : list (TwilioWebhookRequest * option Action))
    (f : @Flow UserCtx) (h h' : Heap) (st l : nat) (s : SmsCookie) :
  h !! st = Some s ->
  Forall (fun c => not_trigger c.2) calls ->
  getCurrentFlow this st h = (h, Ok f) ->
  resolveNextStates StringToNumber this calls st h = (h', Ok l) ->
  getCurrentFlow this l h' = (h', Ok f).
Proof.
  intros H Hnt Hf E.
  now destruct (resolveNextStates_stays StringToNumber this _ _ _ _ _ _ _
                  H Hnt Hf E) as (s' & _ & Hf' & _).
Qed.

Lemma current_flow_is_kept_witness :
  ∃ h' l,
    resolveNextStates Sample.toNumber Sample.withSchema
      [ (Sample.hello, Some (Sample.ask "rate" Pending true));
        (Sample.hello, Some (Sample.ask "rate" Answered true)) ]
      0 [Sample.inSurvey] = (h', Ok l)
    ∧ getCurrentFlow Sample.withSchema l h' = (h', Ok Sample.surveyFlow).
Proof.
  assert (∃ h' l,
            resolveNextStates Sample.toNumber Sample.withSchema
              [ (Sample.hello, Some (Sample.ask "rate" Pending true));
                (Sample.hello, Some (Sample.ask "rate" Answered true)) ]
              0 [Sample.inSurvey] = (h', Ok l)) as (h' & l & E)
    by (eexists _, _; vm_compute; reflexivity).
  exists h', l. split; [exact E|].
  refine (current_flow_is_kept Sample.toNumber Sample.withSchema _
            Sample.surveyFlow [Sample.inSurvey] h' 0 l Sample.inSurvey
            eq_refl _ eq_refl E).
  repeat constructor; intros a target [= <-]; discriminate.
Defined.

(** X14. The position never leaves the flow: after any run of successful
    calls that carry no Trigger, a position that was an index of the
    current flow is still one (at the end of the flow the cookie is
    completed instead of being moved past it). *)
Theorem position_stays_in_range {UserCtx} (StringToNumber : string -> jsnum)
    (this : @FlowController UserCtx)
    (calls : list (TwilioWebhookRequest * option Action))
    (f : @Flow UserCtx) (h h' : Heap) (st l : nat) (s : SmsCookie) :
  h !! st = Some s ->
  Forall (fun c => not_trigger c.2) calls ->
  getCurrentFlow this st h = (h, Ok f) ->
  in_range StringToNumber f s ->
  resolveNextStates StringToNumber this calls st h = (h', Ok l) ->
  ∃ s', h' !! l = Some s' ∧ in_range StringToNumber f s'.
Proof.
  intros H Hnt Hf Hr E.
  destruct (resolveNextStates_stays StringToNumber this _ _ _ _ _ _ _
              H Hnt Hf E) as (s' & H' & _ & Hr').
  exists s'. auto.
Qed.

Lemma position_stays_in_range_witness :
  ∃ h' l s',
    resolveNextStates Sample.toNumber Sample.withSchema
      [ (Sample.hello, Some (Sample.ask "rate" Answered true));
        (Sample.hello, Some (Sample.reply "thanks"));
        (Sample.hello, Some (Sample.reply "thanks")) ]
      0 [Sample.inSurvey] = (h', Ok l)
    ∧ h' !! l = Some s' ∧ in_range Sample.toNumber Sample.surveyFlow s'.
Proof.
  assert (∃ h' l,
            resolveNextStates Sample.toNumber Sample.withSchema
              [ (Sample.hello, Some (Sample.ask "rate" Answered true));
                (Sample.hello, Some (Sample.reply "thanks"));
                (Sample.hello, Some (Sample.reply "thanks")) ]
              0 [Sample.inSurvey] = (h', Ok l)) as (h' & l & E)
    by (eexists _, _; vm_compute; reflexivity).
  assert (Hnt : Forall (fun c : TwilioWebhookRequest * option Action =>
                          not_trigger c.2)
                  [ (Sample.hello, Some (Sample.ask "rate" Answered true));
                    (Sample.hello, Some (Sample.reply "thanks"));
                    (Sample.hello, Some (Sample.reply "thanks")) ])
    by (repeat constructor; intros a target [= <-]; discriminate).
  assert (Hr : in_range Sample.toNumber Sample.surveyFlow Sample.inSurvey)
    by (exists 0%Z; split; [reflexivity | cbn; lia]).
  destruct (position_stays_in_range Sample.toNumber Sample.withSchema _
              Sample.surveyFlow [Sample.inSurvey] h' 0 l Sample.inSurvey
              eq_refl Hnt eq_refl Hr E) as (s' & H' & Hr').
  exists h', l, s'. auto.
Defined.

(** ** The returned object *)

(** X15. The cookie [resolveNextStateFromAction] returns is always a new
    object: its location did not exist before the call, so it is never the
    cookie that was handed in nor any other existing one. *)
Theorem resolveNextStateFromAction_returns_new_object {UserCtx}
    (StringToNumber : string -> jsnum) (this : @FlowController UserCtx)
    (req : TwilioWebhookRequest) (act : option Action)
    (h h' : Heap) (st l : nat) (s : SmsCookie) :
  h !! st = Some s ->
  resolveNextStateFromAction StringToNumber this req st act h = (h', Ok l) ->
  h !! l = None ∧ l ≠ st ∧ is_Some (h' !! l).
Proof.
  intros H E.
  destruct (resolveNextStateFromAction_yields StringToNumber this
              (fun _ _ _ => True) (fun _ _ _ _ => True) (fun _ _ _ _ => True))
    with (req := req) (act := act) (h := h) (st := st) (s := s) (h' := h') (l := l)
    as (Hl & f & s' & _ & H' & _); try assumption; try (intros; exact I).
  apply lookup_lt_Some in H. split; [|split].
  - apply lookup_ge_None_2. exact Hl.
  - lia.
  - now exists s'.
Qed.

Lemma resolveNextStateFromAction_returns_new_object_witness :
  ∃ h' l,
    resolveNextStateFromAction Sample.toNumber Sample.withSchema Sample.hello 0
      None [Sample.fresh] = (h', Ok l)
    ∧ [Sample.fresh] !! l = None ∧ l ≠ 0 ∧ is_Some (h' !! l).
Proof.
  assert (∃ h' l,
            resolveNextStateFromAction Sample.toNumber Sample.withSchema
              Sample.hello 0 None [Sample.fresh] = (h', Ok l)) as (h' & l & E)
    by (eexists _, _; vm_compute; reflexivity).
  exists h', l. split; [exact E|].
  exact (resolveNextStateFromAction_returns_new_object Sample.toNumber
           Sample.withSchema Sample.hello None [Sample.fresh] h' 0 l
           Sample.fresh eq_refl E).
Defined.

(** ** The other branches of [resolveNextStateFromAction] *)

(** X16. Without an action the call completes the interaction and records
    nothing: the returned cookie is the one handed in with
    [isComplete = true].  The current flow is resolved first, whatever
    the action: a cookie naming an unknown flow raises the error of
    [getCurrentFlow] and nothing is written. *)
Theorem no_action_completes {UserCtx} (StringToNumber : string -> jsnum)
    (this : @FlowController UserCtx) (req : TwilioWebhookRequest)
    (h : Heap) (st : nat) (s : SmsCookie) :
  h !! st = Some s ->
  (∀ f, getCurrentFlow this st h = (h, Ok f) ->
        resolveNextStateFromAction StringToNumber this req st None h
        = (h ++ [set_isComplete true s], Ok (length h)))
  ∧ (∀ e act, getCurrentFlow this st h = (h, Throw e) ->
              resolveNextStateFromAction StringToNumber this req st act h
              = (h, Throw e)).
Proof.
  intros H. split.
  - intros f Hf.
    rewrite (resolveNextStateFromAction_with_flow _ _ _ _ _ _ _ Hf).
    unfold completeInteraction. exact (copy_eq _ _ _ _ H).
  - intros e act Hf. unfold resolveNextStateFromAction, bind. now rewrite Hf.
Qed.

Lemma no_action_completes_witness :
  resolveNextStateFromAction Sample.toNumber Sample.withSchema Sample.hello 0
    None [Sample.greeted]
  = ([Sample.greeted; set_isComplete true Sample.greeted], Ok 1)
  ∧ resolveNextStateFromAction Sample.toNumber Sample.withSchema Sample.hello 0
      None [Sample.lost]
    = ([Sample.lost],
       Throw (TypeError "Received invalid flow name in SMS cookie: nowhere")).
Proof.
  split.
  - apply (proj1 (no_action_completes Sample.toNumber Sample.withSchema
                    Sample.hello [Sample.greeted] 0 Sample.greeted eq_refl)
             Sample.rootFlow eq_refl).
  - apply (proj2 (no_action_completes Sample.toNumber Sample.withSchema
                    Sample.hello [Sample.lost] 0 Sample.lost eq_refl)
             _ None eq_refl).
Defined.

(** X17. An action whose name the current flow does not declare is
    refused, whatever its kind (for a Trigger, once its target has passed
    the check): the call raises the error of [updateContext], and every
    object that existed is unchanged, the cookie handed in included. *)
Theorem undeclared_action_is_refused {UserCtx} (StringToNumber : string -> jsnum)
    (this : @FlowController UserCtx) (req : TwilioWebhookRequest)
    (f : @Flow UserCtx) (a : Action) (h : Heap) (st : nat) (s : SmsCookie) :
  h !! st = Some s ->
  getCurrentFlow this st h = (h, Ok f) ->
  FlowActionNames_has f (action_name a) = false ->
  (∀ target, constructor a = Trigger target ->
             checkTrigger this f target h = (h, Ok tt)) ->
  ∃ h',
    resolveNextStateFromAction StringToNumber this req st (Some a) h
    = (h', Throw (Error ("Flow " ++ flow_name f ++ " does not have an action named "
                           ++ action_name a)%string))
    ∧ heap_keeps h h'.
Proof.
  intros H Hf Hn Hcheck.
  rewrite (resolveNextStateFromAction_with_flow _ _ _ _ _ _ _ Hf).
  assert (Hpipe : ∀ (g : nat -> M nat) h1 (l1 : nat) s1,
            h1 !! l1 = Some s1 ->
            pipeSmsCookieUpdates [ (fun c => updateContext c f a); g ] l1 h1
            = (h1, Throw (Error ("Flow " ++ flow_name f
                                   ++ " does not have an action named "
                                   ++ action_name a)%string))).
  { intros g h1 l1 s1 H1. cbn [pipeSmsCookieUpdates]. unfold bind.
    now rewrite (updateContext_refuses _ _ _ _ _ H1 Hn). }
  destruct (constructor a) as [| |q|target|] eqn:Hk.
  - exists h. split; [exact (Hpipe _ _ _ _ H) | apply heap_keeps_refl].
  - exists h. split; [exact (Hpipe _ _ _ _ H) | apply heap_keeps_refl].
  - unfold bind at 1. rewrite (deref_eq _ _ _ H). unfold bind at 1.
    destruct (isAnswering (question s)) eqn:Ha.
    + unfold addQuestionAttempt. rewrite (copy_eq _ _ _ _ H).
      set (s1 := set_question _ s).
      assert (H1 : (h ++ [s1]) !! length h = Some s1) by now apply heap_lookup_new.
      exists (h ++ [s1]). split; [|apply heap_keeps_alloc].
      destruct (isAnswered q); [exact (Hpipe _ _ _ _ H1)|].
      destruct (isFailed q).
      * destruct (QuestionShouldContinueOnFail q); exact (Hpipe _ _ _ _ H1).
      * unfold bind. rewrite (deref_eq _ _ _ H1). subst s1.
        cbn [question set_question isAnswering]. rewrite Ha.
        exact (updateContext_refuses _ _ _ _ _ (heap_lookup_new _ _ _ eq_refl) Hn).
    + unfold ret at 1.
      destruct (isAnswered q);
        [exists h; split; [exact (Hpipe _ _ _ _ H) | apply heap_keeps_refl]|].
      destruct (isFailed q).
      * exists h. split; [|apply heap_keeps_refl].
        destruct (QuestionShouldContinueOnFail q); exact (Hpipe _ _ _ _ H).
      * exists (h ++ [started s]). split; [|apply heap_keeps_alloc].
        unfold bind at 1. rewrite (deref_eq _ _ _ H), Ha.
        cbn [pipeSmsCookieUpdates]. unfold bind at 1.
        unfold startQuestion. rewrite (copy_eq _ _ _ _ H).
        unfold bind.
        now rewrite (updateContext_refuses _ _ (started s) _ _
                       (heap_lookup_new _ _ _ eq_refl) Hn).
  - exists h. split; [|apply heap_keeps_refl].
    unfold bind at 1. rewrite (Hcheck target eq_refl).
    exact (Hpipe _ _ _ _ H).
  - exists h. split; [exact (Hpipe _ _ _ _ H) | apply heap_keeps_refl].
Qed.

Lemma undeclared_action_is_refused_witness :
  ∃ h',
    resolveNextStateFromAction Sample.toNumber Sample.withSchema Sample.hello 0
      (Some (Sample.reply "thanks")) [Sample.fresh]
    = (h', Throw (Error "Flow root does not have an action named thanks"))
    ∧ heap_keeps [Sample.fresh] h'.
Proof.
  apply (undeclared_action_is_refused Sample.toNumber Sample.withSchema
           Sample.hello Sample.rootFlow (Sample.reply "thanks")
           [Sample.fresh] 0 Sample.fresh eq_refl eq_refl eq_refl).
  intros target [=].
Defined.

(** X18. A Question that is still pending, met by a cookie that is already
    answering.  When the receipts stored under the question's name can be
    spread, it is recorded and nothing more: the inbound body is appended
    to the attempts (as for every Question met while answering), the
    cookie stays answering, at its position, as complete as it was, and
    the history gains the question's context with [messageSid] set to the
    stored receipts followed by its own.  When they cannot be spread, the
    call raises the error of the spread. *)
Theorem pending_question_while_answering {UserCtx}
    (StringToNumber : string -> jsnum) (this : @FlowController UserCtx)
    (req : TwilioWebhookRequest) (f : @Flow UserCtx) (a : Action) (q : Question)
    (h : Heap) (st : nat) (s : SmsCookie) :
  h !! st = Some s ->
  getCurrentFlow this st h = (h, Ok f) ->
  constructor a = IsQuestion q ->
  evaluation q = Pending ->
  isAnswering (question s) = true ->
  FlowActionNames_has f (action_name a) = true ->
  (∀ prev, spread (prevSids s (action_name a)) = Ok prev ->
     returns (resolveNextStateFromAction StringToNumber this req st (Some a)) h
       (fun h' l =>
          ∃ s', h' !! l = Some s'
                ∧ question s' = {| attempts := attempts (question s) ++ [Body req];
                                   isAnswering := true |}
                ∧ flowKey s' = flowKey s
                ∧ isComplete s' = isComplete s
                ∧ interactionContext s'
                  = interactionContext s
                    ++ [history_entry f
                          (<["messageSid" := VList (prev ++ default [] (sid q))]>
                             (ActionGetContext a))]))
  ∧ (∀ e, spread (prevSids s (action_name a)) = Throw e ->
       ∃ h', resolveNextStateFromAction StringToNumber this req st (Some a) h
             = (h', Throw e)).
Proof.
  intros H Hf Hq He Ha Hn. split.
  - intros prev Hp.
    pose proof (resolveNextStateFromAction_question
                  StringToNumber this req f a q _ h st s H Hf Hq Hn
                  (getActionContext_asks s f a q prev Hq Hp)) as Hrun.
    rewrite He, Ha in Hrun.
    eapply returns_mono; [exact Hrun|]. cbv beta. intros h' l Hl.
    eexists. split; [exact Hl|]. unfold history_entry. cbn.
    destruct (claimed_keeps f (attempted req s)) as (_ & -> & -> & -> & ->).
    destruct (attempted_keeps req s) as (_ & -> & -> & -> & _).
    unfold attempted. rewrite Ha. cbn. repeat split.
  - intros e Hp.
    exact (resolveNextStateFromAction_question_throws
             StringToNumber this req f a q e h st s H Hf Hq Hn
             (getActionContext_asks_throws s f a q e Hq Hp)).
Qed.

Lemma pending_question_while_answering_witness :
  returns (resolveNextStateFromAction Sample.toNumber Sample.withSchema
             Sample.hello 0 (Some (Sample.ask "rate" Pending true)))
    [started Sample.inSurvey]
    (fun h' l =>
       ∃ s', h' !! l = Some s'
             ∧ question s' = {| attempts := ["hello"]; isAnswering := true |}
             ∧ flowKey s' = KeyNum (JInt 0)
             ∧ isComplete s' = false)
  ∧ ∃ h', resolveNextStateFromAction Sample.toNumber Sample.withSchema
            Sample.hello 0 (Some (Sample.ask "rate" Pending true))
            [started Demo.badReceipts]
          = (h', Throw (TypeError "prevSids is not iterable")).
Proof.
  split.
  - eapply returns_mono.
    + apply (proj1 (pending_question_while_answering Sample.toNumber
                      Sample.withSchema Sample.hello Sample.surveyFlow
                      (Sample.ask "rate" Pending true) _
                      [started Sample.inSurvey] 0 (started Sample.inSurvey)
                      eq_refl eq_refl eq_refl eq_refl eq_refl eq_refl)
               [] eq_refl).
    + cbv beta. intros h' l (s' & Hl & Hq & Hk & Hc & _). exists s'. auto.
  - apply (proj2 (pending_question_while_answering Sample.toNumber
                    Sample.withSchema Sample.hello Sample.surveyFlow
                    (Sample.ask "rate" Pending true) _
                    [started Demo.badReceipts] 0 (started Demo.badReceipts)
                    eq_refl eq_refl eq_refl eq_refl eq_refl eq_refl)).
    reflexivity.
Defined.

(** X19. An Exit action whose name the current flow declares is recorded
    and completes the interaction wherever the cookie stands: the
    returned cookie is complete, at the same position, with the exit's
    context appended to the history. *)
Theorem exit_completes {UserCtx} (StringToNumber : string -> jsnum)
    (this : @FlowController UserCtx) (req : TwilioWebhookRequest)
    (f : @Flow UserCtx) (a : Action) (h : Heap) (st : nat) (s : SmsCookie) :
  h !! st = Some s ->
  getCurrentFlow this st h = (h, Ok f) ->
  constructor a = Exit ->
  FlowActionNames_has f (action_name a) = true ->
  returns (resolveNextStateFromAction StringToNumber this req st (Some a)) h
    (fun h' l =>
       ∃ s', h' !! l = Some s'
             ∧ isComplete s' = true
             ∧ flowKey s' = flowKey s
             ∧ question s' = question s
             ∧ interactionContext s'
               = interactionContext s ++ [history_entry f (ActionGetContext a)]).
Proof.
  intros H Hf Hk Hn. unfold returns.
  rewrite (resolveNextStateFromAction_with_flow _ _ _ _ _ _ _ Hf), Hk.
  assert (Hc : getActionContext s f a = Ok (ActionGetContext a)).
  { apply getActionContext_plain. intros q Hq. rewrite Hk in Hq.
    discriminate Hq. }
  destruct (record_complete_returns h st s f a _ H Hn Hc) as (h' & l & Hrun & Hl).
  exists h', l. split; [exact Hrun|].
  eexists. split; [exact Hl|]. unfold history_entry. cbn.
  now destruct (claimed_keeps f s) as (_ & -> & -> & _ & ->).
Qed.

Lemma exit_completes_witness :
  returns (resolveNextStateFromAction Sample.toNumber Sample.withSchema
             Sample.bye 0 (Some Demo.leave))
    [Sample.greeted]
    (fun h' l =>
       ∃ s', h' !! l = Some s'
             ∧ isComplete s' = true
             ∧ flowKey s' = KeyNum (JInt 1)).
Proof.
  eapply returns_mono.
  - apply (exit_completes Sample.toNumber Sample.withSchema Sample.bye
             Sample.rootFlow Demo.leave [Sample.greeted] 0 Sample.greeted
             eq_refl eq_refl eq_refl eq_refl).
  - cbv beta. intros h' l (s' & Hl & Hc & Hk & _). exists s'. auto.
Defined.

(** X20. After a successful Trigger the returned cookie is in the target
    flow: it resolves to the root when the target is the root's name, and
    to the schema's flow for a target (a non-empty name, as the Trigger
    constructor requires) that the schema has. *)
Theorem trigger_enters_target {UserCtx} (StringToNumber : string -> jsnum)
    (this : @FlowController UserCtx) (req : TwilioWebhookRequest)
    (f : @Flow UserCtx) (m : gmap string (@Flow UserCtx))
    (a : Action) (target : string) (h : Heap) (st : nat) (s : SmsCookie) :
  h !! st = Some s ->
  getCurrentFlow this st h = (h, Ok f) ->
  schema this = Some m ->
  constructor a = Trigger target ->
  FlowActionNames_has f (action_name a) = true ->
  (target = flow_name (root this) ->
     returns (resolveNextStateFromAction StringToNumber this req st (Some a)) h
       (fun h' l => getCurrentFlow this l h' = (h', Ok (root this))))
  ∧ (∀ f', target ≠ "" -> m !! target = Some f' ->
       target ≠ flow_name (root this) ->
       returns (resolveNextStateFromAction StringToNumber this req st (Some a)) h
         (fun h' l => getCurrentFlow this l h' = (h', Ok f'))).
Proof.
  intros H Hf Hm Hk Hn.
  assert (Hrun : target = flow_name (root this) ∨ is_Some (m !! target) ->
            returns (resolveNextStateFromAction StringToNumber this req st (Some a)) h
              (fun h' l =>
                 h' !! l = Some (triggered target
                                   (recorded (claimed f s) f a
                                      (ActionGetContext a) (ActionGetContext a))))).
  { intros Ht. unfold returns.
    rewrite (resolveNextStateFromAction_with_flow _ _ _ _ _ _ _ Hf), Hk.
    unfold bind at 1. rewrite (checkTrigger_passes _ _ _ _ _ Hm Ht).
    assert (Hc : getActionContext s f a = Ok (ActionGetContext a)).
    { apply getActionContext_plain. intros q Hq. rewrite Hk in Hq.
      discriminate Hq. }
    exact (record_trigger_returns _ _ _ _ _ _ target H Hn Hc). }
  split.
  - intros Ht. eapply returns_mono; [apply Hrun; now left|].
    cbv beta. intros h' l Hl. unfold getCurrentFlow, bind.
    rewrite (deref_eq _ _ _ Hl). cbn [flow triggered set_flowContext set_flowKey set_flow].
    rewrite Ht, bool_decide_true by reflexivity. now rewrite orb_true_r.
  - intros f' Hne Hlook Hroot.
    eapply returns_mono; [apply Hrun; right; now exists f'|].
    cbv beta. intros h' l Hl. unfold getCurrentFlow, bind.
    rewrite (deref_eq _ _ _ Hl). cbn [flow triggered set_flowContext set_flowKey set_flow falsy].
    rewrite !bool_decide_false by congruence. cbn [orb].
    now rewrite Hm, Hlook.
Qed.

Lemma trigger_enters_target_witness :
  returns (resolveNextStateFromAction Sample.toNumber Sample.withSchema
             Sample.hello 0 (Some (Sample.trigger "jump" "survey")))
    [Sample.greeted]
    (fun h' l => getCurrentFlow Sample.withSchema l h' = (h', Ok Sample.surveyFlow))
  ∧ returns (resolveNextStateFromAction Sample.toNumber Sample.withSchema
               Sample.hello 0 (Some (Sample.trigger "rate" "root")))
      [Sample.inSurvey]
      (fun h' l => getCurrentFlow Sample.withSchema l h' = (h', Ok Sample.rootFlow)).
Proof.
  split.
  - eapply (proj2 (trigger_enters_target Sample.toNumber Sample.withSchema
                     Sample.hello Sample.rootFlow _
                     (Sample.trigger "jump" "survey") "survey"
                     [Sample.greeted] 0 Sample.greeted
                     eq_refl eq_refl eq_refl eq_refl eq_refl));
      [discriminate | vm_compute; reflexivity | discriminate].
  - eapply (proj1 (trigger_enters_target Sample.toNumber Sample.withSchema
                     Sample.hello Sample.surveyFlow _
                     (Sample.trigger "rate" "root") "root"
                     [Sample.inSurvey] 0 Sample.inSurvey
                     eq_refl eq_refl eq_refl eq_refl eq_refl)).
    reflexivity.
Defined.

(** ** Resolving an action and feeding it back *)

(** An action that is not a Trigger, whose name the current flow declares
    and whose snapshot can be taken, is accepted. *)
Lemma declared_action_is_accepted {UserCtx} (StringToNumber : string -> jsnum)
    (this : @FlowController UserCtx) (req : TwilioWebhookRequest)
    (f : @Flow UserCtx) (a : Action) (ctx : ActionContext)
    (h : Heap) (st : nat) (s : SmsCookie) :
  h !! st = Some s ->
  getCurrentFlow this st h = (h, Ok f) ->
  FlowActionNames_has f (action_name a) = true ->
  (∀ target, constructor a ≠ Trigger target) ->
  getActionContext s f a = Ok ctx ->
  returns (resolveNextStateFromAction StringToNumber this req st (Some a)) h
    (fun h' l => is_Some (h' !! l)).
Proof.
  intros H Hf Hn Hk Hctx.
  destruct (constructor a) as [| |q|target|] eqn:Hc.
  - unfold returns.
    rewrite (resolveNextStateFromAction_with_flow _ _ _ _ _ _ _ Hf), Hc.
    destruct (record_advance_returns StringToNumber h st s f a ctx H Hn Hctx)
      as (h' & l & Hrun & Hl).
    exists h', l. split; [exact Hrun | cbv beta in Hl; rewrite Hl; eauto].
  - unfold returns.
    rewrite (resolveNextStateFromAction_with_flow _ _ _ _ _ _ _ Hf), Hc.
    destruct (record_advance_returns StringToNumber h st s f a ctx H Hn Hctx)
      as (h' & l & Hrun & Hl).
    exists h', l. split; [exact Hrun | cbv beta in Hl; rewrite Hl; eauto].
  - eapply returns_mono;
      [exact (resolveNextStateFromAction_question
                StringToNumber this req f a q ctx h st s H Hf Hc Hn Hctx)|].
    cbv beta. intros h' l Hl. rewrite Hl; eauto.
  - now destruct (Hk target).
  - unfold returns.
    rewrite (resolveNextStateFromAction_with_flow _ _ _ _ _ _ _ Hf), Hc.
    destruct (record_complete_returns h st s f a ctx H Hn Hctx)
      as (h' & l & Hrun & Hl).
    exists h', l. split; [exact Hrun | cbv beta in Hl; rewrite Hl; eauto].
Qed.

(** X21. What [resolveActionFromState] resolves from the flow can be fed
    back: for an action that is not a Trigger, [resolveNextStateFromAction]
    called with the same cookie and the resolved action returns a state,
    unless the action is a Question and the receipts stored under its
    name cannot be spread: then, and only then, the call raises the error
    of the spread. *)
Theorem resolved_action_is_accepted {UserCtx} (StringToNumber : string -> jsnum)
    (Exit_init : string -> string * ActionContext)
    (QuestionEvaluate :
       Question -> TwilioWebhookRequest -> SmsCookie -> Result Question)
    (this : @FlowController UserCtx) (req : TwilioWebhookRequest)
    (userCtx : UserCtx) (a : Action) (h h' : Heap) (st : nat) (s : SmsCookie) :
  h !! st = Some s ->
  declines_exit this req ->
  resolveActionFromState StringToNumber Exit_init QuestionEvaluate
    this req st userCtx h = (h', Ok (Some a)) ->
  (∀ target, constructor a ≠ Trigger target) ->
  ((∀ q, constructor a = IsQuestion q ->
         ∃ prev, spread (prevSids s (action_name a)) = Ok prev) ->
     returns (resolveNextStateFromAction StringToNumber this req st (Some a)) h
       (fun h'' l => is_Some (h'' !! l)))
  ∧ (∀ q e, constructor a = IsQuestion q ->
            spread (prevSids s (action_name a)) = Throw e ->
            ∃ h'', resolveNextStateFromAction StringToNumber this req st (Some a) h
                   = (h'', Throw e)).
Proof.
  intros H Hexit E Hk.
  destruct (isComplete s) eqn:Hc.
  { unfold resolveActionFromState, bind in E.
    rewrite (deref_eq _ _ _ H), Hc in E. discriminate E. }
  rewrite (resolveActionFromState_past_exit _ _ _ _ _ _ _ _ _ H Hc Hexit) in E.
  destruct (getCurrentFlow this st h) as [h0 [f|e]] eqn:Hf; [|discriminate E].
  pose proof (getCurrentFlow_reads _ _ _ _ _ Hf) as ->.
  destruct (flow_step f _) as [[n resolve]|] eqn:Hstep; [|discriminate E].
  destruct (flow_step_declared _ _ _ _ Hstep) as [Hdecl _].
  assert (Ename : action_name a = n).
  { destruct (resolve _ _) as [[a0|]|e]; [|discriminate E|discriminate E].
    destruct (constructor a0) as [| |q|target|];
      try (injection E as _ <-; reflexivity).
    destruct (QuestionEvaluate q req s); [|discriminate E].
    injection E as _ <-. reflexivity. }
  assert (Hn : FlowActionNames_has f (action_name a) = true)
    by now rewrite Ename.
  split.
  - intros Hq. destruct (getActionContext_ok s f a Hq) as [ctx Hctx].
    exact (declared_action_is_accepted StringToNumber this req f a ctx h st s
             H Hf Hn Hk Hctx).
  - intros q e Hq Hp.
    exact (resolveNextStateFromAction_question_throws
             StringToNumber this req f a q e h st s H Hf Hq Hn
             (getActionContext_asks_throws s f a q e Hq Hp)).
Qed.

Lemma resolved_action_is_accepted_witness :
  returns (resolveNextStateFromAction Sample.toNumber Sample.withSchema
             Sample.hello 0
             (Some (ActionSetName (Sample.ask "rate" Pending true) "rate")))
    [Sample.inSurvey]
    (fun h'' l => is_Some (h'' !! l))
  ∧ ∃ h'', resolveNextStateFromAction Sample.toNumber Sample.withSchema
             Sample.hello 0
             (Some (ActionSetName (Sample.ask "rate" Pending true) "rate"))
             [Demo.badReceipts]
           = (h'', Throw (TypeError "prevSids is not iterable")).
Proof.
  assert (Hexit : declines_exit Sample.withSchema Sample.hello)
    by (right; exists Sample.exitTest; split; reflexivity).
  assert (Hk : ∀ target,
            constructor (ActionSetName (Sample.ask "rate" Pending true) "rate")
            ≠ Trigger target)
    by (intros target; discriminate).
  split.
  - apply (proj1 (resolved_action_is_accepted Sample.toNumber Sample.exitInit
                    Sample.evaluate Sample.withSchema Sample.hello tt
                    (ActionSetName (Sample.ask "rate" Pending true) "rate")
                    [Sample.inSurvey] [Sample.inSurvey] 0 Sample.inSurvey
                    eq_refl Hexit eq_refl Hk)).
    intros q _. exists []. reflexivity.
  - apply (proj2 (resolved_action_is_accepted Sample.toNumber Sample.exitInit
                    Sample.evaluate Sample.withSchema Sample.hello tt
                    (ActionSetName (Sample.ask "rate" Pending true) "rate")
                    [Demo.badReceipts] [Demo.badReceipts] 0 Demo.badReceipts
                    eq_refl Hexit eq_refl Hk)
             _ _ eq_refl eq_refl).
Defined.

(** ** A controller as the constructor builds it *)

(** X22. A controller built without an exit test stops on the exit keyword:
    for a cookie that is not complete and a body that contains the word
    exit (any case, delimited as a word), [resolveActionFromState]
    returns the Exit action, whatever the flows are. *)
Theorem built_controller_honours_exit {UserCtx FlowSchema Hook : Type}
    (StringToNumber : string -> jsnum)
    (Exit_init : string -> string * ActionContext)
    (QuestionEvaluate :
       Question -> TwilioWebhookRequest -> SmsCookie -> Result Question)
    (evaluateSchema :
       @Flow UserCtx -> FlowSchema -> Result (gmap string (@Flow UserCtx)))
    (defaultHook : Hook) (rootArg : RootArg) (schemaArg : SchemaArg)
    (options : FlowControllerOptions) (c : Constructed)
    (req : TwilioWebhookRequest) (userCtx : UserCtx)
    (pre w post : string) (h : Heap) (st : nat) (s : SmsCookie) :
  new_FlowController evaluateSchema defaultHook rootArg schemaArg options = Ok c ->
  opt_testForExit options = TestUndefined ->
  h !! st = Some s ->
  isComplete s = false ->
  Body req = (pre ++ w ++ post)%string ->
  upper w = "EXIT" ->
  word_at (last_char None pre) = false ->
  word_at (first_char post) = false ->
  resolveActionFromState StringToNumber Exit_init QuestionEvaluate
    (controller c) req st userCtx h
  = (h, Ok (Some (new_Exit Exit_init (Body req)))).
Proof.
  intros Hnew Hopt H Hc Hbody Hw Hb Ha.
  destruct (new_FlowController_inv _ _ _ _ _ _ Hnew)
    as (r & _ & _ & _ & Htest & _).
  assert (Ht : testForExit (controller c) = Some defaultTestForExit).
  { destruct Htest as [[_ Ht] | (t & Ht' & _)]; [exact Ht | congruence]. }
  assert (Hmatch : EXIT_REGEXP_test (Body req) = true).
  { apply search_spec. exists pre, w, post. auto. }
  unfold resolveActionFromState, bind.
  rewrite (deref_eq _ _ _ H), Hc, Ht.
  unfold lift, defaultTestForExit. now rewrite Hmatch.
Qed.

Lemma built_controller_honours_exit_witness :
  resolveActionFromState Sample.toNumber Sample.exitInit Sample.evaluate
    (controller Demo.built) Demo.stop 0 tt [Sample.inSurvey]
  = ([Sample.inSurvey], Ok (Some (new_Exit Sample.exitInit "Stop. EXIT!"))).
Proof.
  apply (built_controller_honours_exit Sample.toNumber Sample.exitInit
           Sample.evaluate Demo.evaluate Demo.silent
           (RootIsFlow Sample.rootFlow) (SchemaIs [Sample.surveyFlow])
           Demo.noOptions Demo.built Demo.stop tt "Stop. " "EXIT" "!"
           [Sample.inSurvey] 0 Sample.inSurvey); reflexivity.
Defined.

(** X23. A controller the constructor built always has a first step: on
    the cookie of a new conversation, past the exit test, it calls the
    resolver of the root's first step with an empty flow context, and an
    action it produces (other than a Question, which is evaluated first)
    comes back under that step's name. *)
Theorem built_controller_starts_at_root {UserCtx FlowSchema Hook : Type}
    (StringToNumber : string -> jsnum)
    (Exit_init : string -> string * ActionContext)
    (QuestionEvaluate :
       Question -> TwilioWebhookRequest -> SmsCookie -> Result Question)
    (evaluateSchema :
       @Flow UserCtx -> FlowSchema -> Result (gmap string (@Flow UserCtx)))
    (defaultHook : Hook) (rootArg : RootArg) (schemaArg : SchemaArg)
    (options : FlowControllerOptions) (c : Constructed)
    (req first : TwilioWebhookRequest) (userCtx : UserCtx)
    (now : Z) (uid : string) :
  new_FlowController evaluateSchema defaultHook rootArg schemaArg options = Ok c ->
  declines_exit (controller c) req ->
  ∃ n resolve rest,
    flow_actions (root (controller c)) = (n, resolve) :: rest
    ∧ ∀ a, resolve ∅ userCtx = Ok (Some a) ->
           (∀ q, constructor a ≠ IsQuestion q) ->
           resolveActionFromState StringToNumber Exit_init QuestionEvaluate
             (controller c) req 0 userCtx [createSmsCookie now uid first]
           = ([createSmsCookie now uid first], Ok (Some (ActionSetName a n))).
Proof.
  intros Hnew Hexit.
  destruct (new_FlowController_inv _ _ _ _ _ _ Hnew)
    as (r & _ & Hsteps & Hroot & _).
  rewrite Hroot.
  destruct (flow_actions r) as [|[n resolve] rest] eqn:Hr; [congruence|].
  exists n, resolve, rest. split; [reflexivity|].
  intros a Ha Hq.
  rewrite (resolveActionFromState_past_exit StringToNumber Exit_init
             QuestionEvaluate (controller c) req userCtx
             [createSmsCookie now uid first] 0 (createSmsCookie now uid first)
             eq_refl eq_refl Hexit).
  assert (Hf : getCurrentFlow (controller c) 0 [createSmsCookie now uid first]
               = ([createSmsCookie now uid first], Ok r)).
  { unfold getCurrentFlow, bind, deref. cbn. now rewrite Hroot. }
  rewrite Hf. cbn [createSmsCookie flowKey flowContext Number].
  unfold flow_step. rewrite bool_decide_true by lia.
  rewrite Hr.
  change (((n, resolve) :: rest) !! Z.to_nat 0) with (Some (n, resolve)).
  cbv beta iota.
  match type of Ha with
  | ?call = _ =>
      match goal with
      | |- context [resolve ?m userCtx] =>
          change (resolve m userCtx) with call
      end
  end.
  rewrite Ha.
  destruct (constructor a) as [| |q|target|] eqn:Hk; try reflexivity.
  now destruct (Hq q).
Qed.

Lemma built_controller_starts_at_root_witness :
  ∃ n resolve rest,
    flow_actions (root (controller Demo.built)) = (n, resolve) :: rest
    ∧ ∀ a, resolve ∅ tt = Ok (Some a) ->
           (∀ q, constructor a ≠ IsQuestion q) ->
           resolveActionFromState Sample.toNumber Sample.exitInit Sample.evaluate
             (controller Demo.built) Sample.hello 0 tt
             [createSmsCookie 0 "c0ffee" Sample.hello]
           = ([createSmsCookie 0 "c0ffee" Sample.hello],
              Ok (Some (ActionSetName a n))).
Proof.
  apply (built_controller_starts_at_root Sample.toNumber Sample.exitInit
           Sample.evaluate Demo.evaluate Demo.silent
           (RootIsFlow Sample.rootFlow) (SchemaIs [Sample.surveyFlow])
           Demo.noOptions Demo.built Sample.hello Sample.hello tt 0 "c0ffee").
  - reflexivity.
  - right. exists defaultTestForExit. split; reflexivity.
Defined.
